(** * API-Check: endpoint resolution, probe execution, audit log,
      worker pool and round aggregation

    A shallow embedding of the probe engine of the API-Check front end
    (apiService.ts, dbService.ts, and the runners of Dashboard.tsx and
    BulkTestView.tsx), with the properties its specification states.

    Conventions.
    - A JavaScript string is its sequence of UTF-16 code units ([list N]).
    - A JavaScript value of type [any] (provider JSON, request bodies) is a
      [jsval]; numbers are the integer-valued ones. An object is the list of
      its own properties, in the order of its keys.
    - [JSON.parse], [JSON.stringify] and string coercion are run-time
      built-ins: the operations take them as parameters.
    - The outside world of one call (the outcome of [fetch], the clocks,
      the generated id) is a [World] record. *)

From Stdlib Require Import ZArith NArith String Ascii DecimalString Lia.
From stdpp Require Import base option list gmap sorting.

Local Open Scope Z_scope.

#[local] Set Warnings "-register-all".

(** ** JavaScript strings *)

Abbreviation jsstring := (list N).

(** An ASCII literal as a JavaScript string. *)
Definition js (s : string) : jsstring :=
  map N_of_ascii (list_ascii_of_string s).

(** Code units that [String.prototype.trim] strips: ECMAScript WhiteSpace and
    LineTerminator. *)
Definition isWhiteSpace (c : N) : bool :=
  match c with
  | 0x09 | 0x0A | 0x0B | 0x0C | 0x0D | 0x20 | 0xA0 | 0x1680
  | 0x2028 | 0x2029 | 0x202F | 0x205F | 0x3000 | 0xFEFF => true
  | _ => ((0x2000 <=? c) && (c <=? 0x200A))%N
  end%N.

Fixpoint trimStart (s : jsstring) : jsstring :=
  match s with
  | c :: s' => if isWhiteSpace c then trimStart s' else s
  | [] => []
  end.

Definition trimEnd (s : jsstring) : jsstring := rev (trimStart (rev s)).

Definition trim (s : jsstring) : jsstring := trimEnd (trimStart s).

Definition endsWith (s suffix : jsstring) : bool :=
  bool_decide (length suffix ≤ length s)%nat
  && bool_decide (drop (length s - length suffix) s = suffix).

Definition startsWith (s prefix : jsstring) : bool :=
  bool_decide (take (length prefix) s = prefix).

(** [s.slice(0, -1)] *)
Definition slice_0_m1 (s : jsstring) : jsstring := take (length s - 1) s.

(** [s.slice(0, n)] for a literal [n >= 0] *)
Definition slice_0 (n : nat) (s : jsstring) : jsstring := take n s.

(** [s.split(sep)] for a one-unit separator: never returns the empty list. *)
Fixpoint split (sep : N) (s : jsstring) : list jsstring :=
  match s with
  | [] => [[]]
  | c :: s' =>
      if (c =? sep)%N then [] :: split sep s'
      else match split sep s' with
           | line :: lines => (c :: line) :: lines
           | [] => [[c]]
           end
  end.

(** [s.replace(pattern, replacement)] with a string pattern: the first
    occurrence only. *)
Fixpoint replace (pattern replacement s : jsstring) : jsstring :=
  if startsWith s pattern then replacement ++ drop (length pattern) s
  else match s with
       | [] => []
       | c :: s' => c :: replace pattern replacement s'
       end.

(** Number-to-string conversion of an integer. *)
Definition Number_toString (n : Z) : jsstring := js (NilZero.string_of_int (Z.to_int n)).

(** [Math.round(a / b)] on integers, [b > 0]: halves round towards
    positive infinity. *)
Definition Math_round_div (a b : Z) : Z := (2 * a + b) / (2 * b).

(** ** JavaScript values and errors *)

(** Values of type [any]. *)
Inductive jsval :=
| VUndefined
| VNull
| VBool (b : bool)
| VNum (n : Z)
| VStr (s : jsstring)
| VArr (elems : list jsval)
| VObj (fields : list (jsstring * jsval)).

Module JsError.
Record t := { name : jsstring; message : jsstring }.
End JsError.

(** [new Error(message)] *)
Definition Error (message : jsstring) : JsError.t :=
  {| JsError.name := js "Error"; JsError.message := message |}.

(** The DOMException with which an aborted [fetch] rejects. *)
Definition AbortError (message : jsstring) : JsError.t :=
  {| JsError.name := js "AbortError"; JsError.message := message |}.

(** How an evaluation ends. *)
Inductive Completion (A : Type) :=
| Normal (a : A)
| Throw (e : JsError.t).
Arguments Normal {A} a.
Arguments Throw {A} e.

(** The built-ins of the run-time system that the engine calls. *)
Record Builtins := {
  (** [JSON.parse(text)]; throws a SyntaxError on malformed text *)
  JSON_parse : jsstring -> Completion jsval;
  (** [JSON.stringify(v)] *)
  JSON_stringify : jsval -> jsstring;
  (** [JSON.stringify(v, null, 2)] *)
  JSON_stringify_pretty : jsval -> jsstring;
  (** string coercion of an array or object (it may throw a TypeError) *)
  ToPrimitive_string : jsval -> Completion jsstring;
  (** the TypeError of reading the named property of [null] or [undefined] *)
  TypeError_reading : jsstring -> JsError.t;
  (** the TypeError of calling the named property of an object that holds
      no function under it *)
  TypeError_not_a_function : jsstring -> JsError.t;
  (** [v > 0] for a string, array or object operand *)
  ToNumber_positive : jsval -> bool
}.

Definition truthy (v : jsval) : bool :=
  match v with
  | VUndefined | VNull => false
  | VBool b => b
  | VNum n => negb (n =? 0)
  | VStr s => negb (bool_decide (s = []))
  | VArr _ | VObj _ => true
  end.

Definition Array_isArray (v : jsval) : bool :=
  match v with VArr _ => true | _ => false end.

(** Own property of an object literal or parsed object: the first binding. *)
Fixpoint assoc {A} (k : jsstring) (fields : list (jsstring * A)) : option A :=
  match fields with
  | [] => None
  | (k', v) :: rest => if bool_decide (k' = k) then Some v else assoc k rest
  end.

(** The value of a string of decimal digits, from [acc] on. *)
Fixpoint decimal (acc : N) (s : jsstring) : option N :=
  match s with
  | [] => Some acc
  | c :: s' =>
      if ((0x30 <=? c) && (c <=? 0x39))%N then decimal (10 * acc + (c - 0x30))%N s' else None
  end.

(** The array index that a property key is: the canonical decimal string of
    an integer below [2^32 - 1]. *)
Definition array_index (k : jsstring) : option N :=
  match k with
  | [] => None
  | c :: rest =>
      if (c =? 0x30)%N && negb (bool_decide (rest = [])) then None
      else match decimal 0 k with
           | Some n => if (n <? 4294967295)%N then Some n else None
           | None => None
           end
  end.

(** The fields of an object are listed in the order of its own keys: the
    array indices first, ascending, then the other keys as they were
    created. A new key takes its place in that order. *)
Fixpoint obj_add {A} (k : jsstring) (v : A) (fields : list (jsstring * A)) : list (jsstring * A) :=
  match fields with
  | [] => [(k, v)]
  | (k', v') :: rest =>
      match array_index k, array_index k' with
      | Some n, Some n' => if (n <? n')%N then (k, v) :: fields else (k', v') :: obj_add k v rest
      | Some _, None => (k, v) :: fields
      | None, _ => (k', v') :: obj_add k v rest
      end
  end.

(** The value of a key that the object has is overwritten in place. *)
Fixpoint obj_replace {A} (k : jsstring) (v : A) (fields : list (jsstring * A))
  : list (jsstring * A) :=
  match fields with
  | [] => []
  | (k', v') :: rest =>
      if bool_decide (k' = k) then (k, v) :: rest else (k', v') :: obj_replace k v rest
  end.

(** The definition of the own property [k] with the value [v], as by a
    spread, or by [obj[k] = v] for a key other than [__proto__]. *)
Definition obj_set {A} (k : jsstring) (v : A) (fields : list (jsstring * A)) : list (jsstring * A) :=
  match assoc k fields with
  | Some _ => obj_replace k v fields
  | None => obj_add k v fields
  end.

(** [{...a, ...b}], for an object [a] given in the order of its keys: the
    own properties of [b] are defined on a copy of [a], one after the
    other. *)
Definition obj_spread {A} (a b : list (jsstring * A)) : list (jsstring * A) :=
  foldl (fun acc kv => obj_set kv.1 kv.2 acc) a b.

(** The properties that a plain object [{}] inherits from
    [Object.prototype], those of Annex B (which browsers implement) included.
    An object used as a dictionary finds them under a key it never stored:
    each holds a function, and [__proto__] the prototype itself. *)
Definition Object_prototype_members : list jsstring :=
  [js "constructor"; js "hasOwnProperty"; js "isPrototypeOf"; js "propertyIsEnumerable";
   js "toLocaleString"; js "toString"; js "valueOf"; js "__proto__";
   js "__defineGetter__"; js "__defineSetter__"; js "__lookupGetter__"; js "__lookupSetter__"].

(** [v[k]] for [v] neither [null] nor [undefined], where [v] is a value of a
    response or request body. Of the inherited properties only [length] is
    modelled: the engine reads no other one of such a value. *)
Definition get (v : jsval) (k : jsstring) : jsval :=
  match v with
  | VObj fields => default VUndefined (assoc k fields)
  | VArr elems => if bool_decide (k = js "length") then VNum (Z.of_nat (length elems)) else VUndefined
  | VStr s => if bool_decide (k = js "length") then VNum (Z.of_nat (length s)) else VUndefined
  | _ => VUndefined
  end.

(** [v[0]] for [v] neither [null] nor [undefined]. *)
Definition get_0 (v : jsval) : jsval :=
  match v with
  | VObj fields => default VUndefined (assoc (js "0") fields)
  | VArr elems => default VUndefined (head elems)
  | VStr s => match s with c :: _ => VStr [c] | [] => VUndefined end
  | _ => VUndefined
  end.

Definition nullish (v : jsval) : bool :=
  match v with VUndefined | VNull => true | _ => false end.

(** [v?.k] *)
Definition opt_get (v : jsval) (k : jsstring) : jsval :=
  if nullish v then VUndefined else get v k.

(** [v?.[0]] *)
Definition opt_get_0 (v : jsval) : jsval :=
  if nullish v then VUndefined else get_0 v.

(** [v.k] *)
Definition get_strict (rt : Builtins) (v : jsval) (k : jsstring) : Completion jsval :=
  if nullish v then Throw (TypeError_reading rt k) else Normal (get v k).

(** [v > 0] *)
Definition gt_zero (rt : Builtins) (v : jsval) : bool :=
  match v with
  | VUndefined | VNull => false
  | VBool b => b
  | VNum n => 0 <? n
  | VStr _ | VArr _ | VObj _ => ToNumber_positive rt v
  end.

(** String coercion, as in a template literal or [s += v]. *)
Definition ToString (rt : Builtins) (v : jsval) : Completion jsstring :=
  match v with
  | VUndefined => Normal (js "undefined")
  | VNull => Normal (js "null")
  | VBool true => Normal (js "true")
  | VBool false => Normal (js "false")
  | VNum n => Normal (Number_toString n)
  | VStr s => Normal s
  | VArr _ | VObj _ => ToPrimitive_string rt v
  end.

(** ** types.ts *)

Inductive ConnectionMode := standard | custom.
Inductive Feature := feature_chat | feature_models.
Inductive EndpointType := models | chat.

#[global] Instance Feature_eq_dec : EqDecision Feature.
Proof. solve_decision. Defined.

Module ApiConfig.
Record t := {
  id : jsstring;
  name : jsstring;
  baseUrl : jsstring;
  apiKey : jsstring;
  connectionMode : ConnectionMode;
  features : option (list Feature);
  modelsEndpoint : option jsstring;
  chatEndpoint : option jsstring;
  customHeaders : option (list (jsstring * jsstring));
  customParams : option (list (jsstring * jsval));
  skipAutoCompletion : option bool;
  autoV1 : option bool;
  createdAt : Z
}.
End ApiConfig.

(** The status strings of test results. *)
Inductive Status := st_success | st_error | st_pending | st_supported | st_unsupported.

#[global] Instance Status_eq_dec : EqDecision Status.
Proof. solve_decision. Defined.

Module TestResult.
Record t := {
  modelId : jsstring;
  latency : Z;
  status : Status;
  message : option jsstring;
  timestamp : Z;
  statusCode : option Z;
  requestBody : jsval;
  responseBody : jsval
}.
End TestResult.

Module ToolTestResult.
Record t := {
  modelId : jsstring;
  status : Status;
  latency : Z;
  requestBody : jsval;
  responseBody : jsval;
  message : option jsstring;
  timestamp : Z
}.
End ToolTestResult.

Module GlobalSettings.
Record t := {
  testTimeout : Z;
  testConcurrency : Z;
  testRounds : Z;
  stream : option bool
}.
End GlobalSettings.

Module MatrixCellResult.
Record t := {
  latency : Z;
  status : Status;
  message : option jsstring;
  statusCode : option Z;
  requestBody : jsval;
  responseBody : jsval
}.
End MatrixCellResult.

Module MatrixRowResult.
Record t := {
  key : jsstring;
  results : gmap jsstring MatrixCellResult.t
}.
End MatrixRowResult.

Inductive LogType := log_chat | log_models | log_test | log_tool_check.

Module RequestLog.
Record t := {
  id : jsstring;
  timestamp : Z;
  type : LogType;
  apiId : jsstring;
  apiName : jsstring;
  model : jsval;
  method : jsstring;
  url : jsstring;
  status : Z;
  latency : Z;
  requestBody : jsval;
  responseBody : jsval;
  error : option jsstring
}.

Definition set_status (v : Z) (l : t) : t :=
  {| id := id l; timestamp := timestamp l; type := type l; apiId := apiId l;
     apiName := apiName l; model := model l; method := method l; url := url l;
     status := v; latency := latency l; requestBody := requestBody l;
     responseBody := responseBody l; error := error l |}.

Definition set_latency (v : Z) (l : t) : t :=
  {| id := id l; timestamp := timestamp l; type := type l; apiId := apiId l;
     apiName := apiName l; model := model l; method := method l; url := url l;
     status := status l; latency := v; requestBody := requestBody l;
     responseBody := responseBody l; error := error l |}.

Definition set_responseBody (v : jsval) (l : t) : t :=
  {| id := id l; timestamp := timestamp l; type := type l; apiId := apiId l;
     apiName := apiName l; model := model l; method := method l; url := url l;
     status := status l; latency := latency l; requestBody := requestBody l;
     responseBody := v; error := error l |}.

Definition set_error (v : jsstring) (l : t) : t :=
  {| id := id l; timestamp := timestamp l; type := type l; apiId := apiId l;
     apiName := apiName l; model := model l; method := method l; url := url l;
     status := status l; latency := latency l; requestBody := requestBody l;
     responseBody := responseBody l; error := Some v |}.
End RequestLog.

Module SendMessageResult.
Record t := { actualBody : jsstring; responseBody : jsstring }.
End SendMessageResult.

(** ** apiService.ts: getEndpoint *)

Definition getEndpoint (api : ApiConfig.t) (type : EndpointType) : jsstring :=
  match ApiConfig.connectionMode api with
  | custom =>
      match type with
      | models => default [] (ApiConfig.modelsEndpoint api)
      | chat => default [] (ApiConfig.chatEndpoint api)
      end
  | standard =>
      let baseUrl := trim (ApiConfig.baseUrl api) in
      let baseUrl := if endsWith baseUrl (js "/") then slice_0_m1 baseUrl else baseUrl in
      if default false (ApiConfig.skipAutoCompletion api) then
        baseUrl ++ js "/" ++ (match type with models => js "models" | chat => js "chat/completions" end)
      else
        let autoV1 := default true (ApiConfig.autoV1 api) in
        if negb autoV1 then baseUrl
        else
          let suffix := match type with models => js "models" | chat => js "chat/completions" end in
          if endsWith baseUrl (js "/v1") then baseUrl ++ js "/" ++ suffix
          else baseUrl ++ js "/v1/" ++ suffix
  end.

(** The resolver as the specification words it, on a given base URL: in
    standard mode a trailing slash is removed, then the mode rules apply. *)
Definition trim_trailing_slash (s : jsstring) : jsstring :=
  if endsWith s (js "/") then slice_0_m1 s else s.

Definition kind_path (type : EndpointType) : jsstring :=
  match type with models => js "/models" | chat => js "/chat/completions" end.

Definition resolve_on_base (base : jsstring) (api : ApiConfig.t) (type : EndpointType) : jsstring :=
  match ApiConfig.connectionMode api, ApiConfig.skipAutoCompletion api, ApiConfig.autoV1 api with
  | custom, _, _ =>
      match type with
      | models => default [] (ApiConfig.modelsEndpoint api)
      | chat => default [] (ApiConfig.chatEndpoint api)
      end
  | standard, Some true, _ => trim_trailing_slash base ++ kind_path type
  | standard, _, Some false => trim_trailing_slash base
  | standard, _, _ =>
      if endsWith (trim_trailing_slash base) (js "/v1")
      then trim_trailing_slash base ++ kind_path type
      else trim_trailing_slash base ++ js "/v1" ++ kind_path type
  end.

(** The specification's resolver: the rules applied to the stored base URL. *)
Definition resolve_spec (api : ApiConfig.t) (type : EndpointType) : jsstring :=
  resolve_on_base (ApiConfig.baseUrl api) api type.

(** ** dbService.ts: the IndexedDB object store [logs], keyPath [id] *)

Module Database.
Record t := {
  (** whether [indexedDB.open] succeeds *)
  opens : bool;
  rows : gmap jsstring RequestLog.t
}.
End Database.

(** [store.add(log)]: a record whose key is already stored is refused
    (ConstraintError) and the transaction aborts. *)
Definition store_add (log : RequestLog.t) (rows : gmap jsstring RequestLog.t)
  : option (gmap jsstring RequestLog.t) :=
  match rows !! RequestLog.id log with
  | Some _ => None
  | None => Some (<[RequestLog.id log := log]> rows)
  end.

(** The database after one [saveLog(log)] has settled. A failure to open is
    caught and reported on the console; a failed transaction rejects the
    promise, which no caller awaits. *)
Definition saveLog (log : RequestLog.t) (db : Database.t) : Database.t :=
  if Database.opens db then
    match store_add log (Database.rows db) with
    | Some rows' => {| Database.opens := true; Database.rows := rows' |}
    | None => db
    end
  else db.

(** Order of the keys of IndexedDB: strings compare by code units. *)
Fixpoint key_lt (a b : jsstring) : bool :=
  match a, b with
  | _, [] => false
  | [], _ :: _ => true
  | x :: a', y :: b' => (x <? y)%N || ((x =? y)%N && key_lt a' b')
  end.

(** The order of a [prev] cursor over the index [timestamp]: later first,
    equal timestamps by decreasing primary key. *)
Definition cursor_prev (a b : RequestLog.t) : Prop :=
  RequestLog.timestamp b < RequestLog.timestamp a
  ∨ (RequestLog.timestamp a = RequestLog.timestamp b
     ∧ key_lt (RequestLog.id a) (RequestLog.id b) = false).

#[global] Instance cursor_prev_dec a b : Decision (cursor_prev a b).
Proof. unfold cursor_prev. apply _. Defined.

(** [getLogs(limit, offset)]: [None] when the database does not open. The
    cursor skips [offset] records, then collects until [limit] are held (at
    least one, if there is one). *)
Definition getLogs (limit offset : Z) (db : Database.t) : option (list RequestLog.t) :=
  if Database.opens db then
    let latest_first := merge_sort cursor_prev (map_to_list (Database.rows db)).*2 in
    Some (take (Z.to_nat (Z.max 1 limit)) (drop (Z.to_nat offset) latest_first))
  else None.

(** ** dbService.ts: the cursor of [getLogs], [clearLogs], [getLogsStats] *)

(** The [onsuccess] handler of [getLogs], run over the records that the
    cursor visits in turn (the cursor is [null] after the last one), from the
    state [results], [hasSkipped], [skippedCount]; yields the array with
    which the promise resolves. *)
Fixpoint getLogs_cursor (limit offset : Z) (results : list RequestLog.t)
    (hasSkipped : bool) (skippedCount : Z) (visited : list RequestLog.t)
  : list RequestLog.t :=
  match visited with
  | [] => results
  | value :: visited' =>
      if negb hasSkipped && (skippedCount <? offset) then
        getLogs_cursor limit offset results hasSkipped (skippedCount + 1) visited'
      else
        let results := results ++ [value] in
        if Z.of_nat (length results) <? limit then
          getLogs_cursor limit offset results true skippedCount visited'
        else results
  end.

(** [clearLogs()]: [None] when the database does not open (the promise
    rejects). *)
Definition clearLogs (db : Database.t) : option Database.t :=
  if Database.opens db then Some {| Database.opens := true; Database.rows := ∅ |}
  else None.

Module LogsStats.
Record t := { total : Z; success : Z; error : Z; avgLatency : Z }.
End LogsStats.

(** The body of [logs.forEach] in [getLogsStats], on the counters
    [success], [error] and [totalLatency]. *)
Definition count_log (counters : Z * Z * Z) (l : RequestLog.t) : Z * Z * Z :=
  let '(success, error, totalLatency) := counters in
  if (200 <=? RequestLog.status l) && (RequestLog.status l <? 300)
  then (success + 1, error, totalLatency + RequestLog.latency l)
  else (success, error + 1, totalLatency + RequestLog.latency l).

(** [getLogsStats()]: [None] when the database does not open. *)
Definition getLogsStats (db : Database.t) : option LogsStats.t :=
  match getLogs 500 0 db with
  | None => None
  | Some logs =>
      if bool_decide (length logs = 0%nat) then
        Some {| LogsStats.total := 0; LogsStats.success := 0; LogsStats.error := 0;
                LogsStats.avgLatency := 0 |}
      else
        let '(success, error, totalLatency) := foldl count_log (0, 0, 0) logs in
        Some {| LogsStats.total := Z.of_nat (length logs);
                LogsStats.success := success;
                LogsStats.error := error;
                LogsStats.avgLatency := Math_round_div totalLatency (Z.of_nat (length logs)) |}
  end.

(** ** The outside world of one call *)

Module Body.
(** A response body that ends or fails: the decoded text of the chunks
    that arrive, and the error (if any) with which reading fails after them.
    The timer of the deadline is cleared when the headers arrive, so that a
    body that stalls (no further chunk, no end, no error) leaves its call
    pending for ever: such a body is no world of this model, and what is
    stated of a call is stated of one whose response body ends or fails. *)
Record t := { chunks : list jsstring; failure : option JsError.t }.
End Body.

Module Response.
Record t := { status : Z; statusText : jsstring; body : option Body.t }.

(** [response.ok] *)
Definition ok (r : t) : bool := (200 <=? status r) && (status r <=? 299).
End Response.

Module HttpRequest.
Record t := {
  method : jsstring;
  url : jsstring;
  headers : list (jsstring * jsstring);
  body : option jsstring;
  (** the delay in milliseconds of the timer that aborts the request through
      the attached signal; [None]: no signal is attached *)
  deadline : option Z
}.
End HttpRequest.

(** How [fetch] settles. (A request without a deadline that is never
    answered leaves its call pending: no world of this model.) *)
Inductive FetchOutcome :=
| FetchResponse (response : Response.t)
  (** the headers of a response arrive *)
| FetchFailure (e : JsError.t)
  (** the request fails in transit *)
| FetchAborted (message : jsstring)
  (** the timer of the deadline fires first and [controller.abort()] ends
      the request: it rejects with an AbortError *).

Module World.
Record t := {
  (** [crypto.randomUUID()] *)
  randomUUID : jsstring;
  (** the [k]-th reading of [Date.now()] *)
  Date_now : nat -> Z;
  (** the [k]-th reading of [performance.now()], in milliseconds *)
  performance_now : nat -> Z;
  fetched : FetchOutcome
}.
End World.

(** ** apiService.ts: the probe executor *)

(** The state one call works on: its [log] object, which [saveLog] receives
    by reference, and what the call has done so far. *)
Module Probe.
Record t := {
  log : RequestLog.t;
  (** how many times [saveLog(log)] was called *)
  saveLog_calls : nat;
  (** the requests handed to [fetch] *)
  requests : list HttpRequest.t;
  (** the contents handed to [onChunk] *)
  delivered : list jsval;
  perf_reads : nat;
  date_reads : nat
}.

Definition with_log (f : RequestLog.t -> RequestLog.t) (s : t) : t :=
  {| log := f (log s); saveLog_calls := saveLog_calls s; requests := requests s;
     delivered := delivered s; perf_reads := perf_reads s; date_reads := date_reads s |}.
End Probe.

Definition M (A : Type) : Type := Probe.t -> Completion A * Probe.t.

Definition ret {A} (a : A) : M A := fun s => (Normal a, s).

Definition throw {A} (e : JsError.t) : M A := fun s => (Throw e, s).

Definition bind {A B} (m : M A) (k : A -> M B) : M B :=
  fun s => match m s with
           | (Normal a, s') => k a s'
           | (Throw e, s') => (Throw e, s')
           end.

(** [try { m } catch (e) { handler e }] *)
Definition try_catch {A} (m : M A) (handler : JsError.t -> M A) : M A :=
  fun s => match m s with
           | (Normal a, s') => (Normal a, s')
           | (Throw e, s') => handler e s'
           end.

(** A pure evaluation that may throw. *)
Definition lift {A} (c : Completion A) : M A := fun s => (c, s).

Declare Scope probe_scope.
Delimit Scope probe_scope with probe.
Notation "x <- m ;; k" := (bind m (fun x => k))
  (at level 100, m at next level, right associativity) : probe_scope.
Notation "m ;;; k" := (bind m (fun _ => k))
  (at level 100, right associativity) : probe_scope.

(** What a call leaves behind: how it completed, and the final state of its
    probe when it got as far as creating the log object. *)
Module Outcome.
Record t (A : Type) := { completion : Completion A; final : option Probe.t }.
Arguments completion {A} _.
Arguments final {A} _.

Definition saveLog_calls {A} (o : t A) : nat :=
  match final o with Some s => Probe.saveLog_calls s | None => 0%nat end.

Definition requests {A} (o : t A) : list HttpRequest.t :=
  match final o with Some s => Probe.requests s | None => [] end.

Definition log {A} (o : t A) : option RequestLog.t :=
  match final o with Some s => Some (Probe.log s) | None => None end.
End Outcome.

(** A call that ends before the log object exists. *)
Definition immediately {A} (c : Completion A) : Outcome.t A :=
  {| Outcome.completion := c; Outcome.final := None |}.

Definition run {A} (m : M A) (s : Probe.t) : Outcome.t A :=
  {| Outcome.completion := (m s).1; Outcome.final := Some (m s).2 |}.

(** The database once every [saveLog(log)] of the call has settled. Each
    [saveLog] first awaits [openDB], and the call runs to its end without a
    further await after its first [saveLog]: every [store.add(log)] clones
    the log object in its final state. *)
Definition persist {A} (o : Outcome.t A) (db : Database.t) : Database.t :=
  match Outcome.final o with
  | Some s => Nat.iter (Probe.saveLog_calls s) (saveLog (Probe.log s)) db
  | None => db
  end.

(* 未配置模型列表接口地址 *)
Definition MSG_NO_MODELS_ENDPOINT : jsstring :=
  [0x672A; 0x914D; 0x7F6E; 0x6A21; 0x578B; 0x5217; 0x8868; 0x63A5; 0x53E3; 0x5730; 0x5740]%N.
(* 返回数据格式不符合 OpenAI 标准 (缺少 array 或 data 字段) *)
Definition MSG_BAD_FORMAT : jsstring :=
  [0x8FD4; 0x56DE; 0x6570; 0x636E; 0x683C; 0x5F0F; 0x4E0D; 0x7B26; 0x5408; 0x0020; 0x004F; 0x0070; 0x0065; 0x006E; 0x0041; 0x0049; 0x0020; 0x6807; 0x51C6; 0x0020; 0x0028; 0x7F3A; 0x5C11; 0x0020; 0x0061; 0x0072; 0x0072; 0x0061; 0x0079; 0x0020; 0x6216; 0x0020; 0x0064; 0x0061; 0x0074; 0x0061; 0x0020; 0x5B57; 0x6BB5; 0x0029]%N.
(* 请求超时 (10秒)，请检查网络连接或代理设置 *)
Definition MSG_FETCH_TIMEOUT : jsstring :=
  [0x8BF7; 0x6C42; 0x8D85; 0x65F6; 0x0020; 0x0028; 0x0031; 0x0030; 0x79D2; 0x0029; 0xFF0C; 0x8BF7; 0x68C0; 0x67E5; 0x7F51; 0x7EDC; 0x8FDE; 0x63A5; 0x6216; 0x4EE3; 0x7406; 0x8BBE; 0x7F6E]%N.
(* 未配置对话接口 *)
Definition MSG_NO_CHAT_ENDPOINT : jsstring :=
  [0x672A; 0x914D; 0x7F6E; 0x5BF9; 0x8BDD; 0x63A5; 0x53E3]%N.
(* 请求超时 ( *)
Definition MSG_TIMEOUT_PREFIX : jsstring :=
  [0x8BF7; 0x6C42; 0x8D85; 0x65F6; 0x0020; 0x0028]%N.
(* 网络错误 *)
Definition MSG_NETWORK_ERROR : jsstring :=
  [0x7F51; 0x7EDC; 0x9519; 0x8BEF]%N.
(* 没有响应内容 *)
Definition MSG_NO_BODY : jsstring :=
  [0x6CA1; 0x6709; 0x54CD; 0x5E94; 0x5185; 0x5BB9]%N.

Section Executor.
Context (rt : Builtins) (w : World.t).
Local Open Scope probe_scope.

Definition createLogEntry (api : ApiConfig.t) (type : LogType) (url method : jsstring)
    (model requestBody : jsval) : RequestLog.t :=
  {| RequestLog.id := World.randomUUID w;
     RequestLog.timestamp := World.Date_now w 0;
     RequestLog.type := type;
     RequestLog.apiId := ApiConfig.id api;
     RequestLog.apiName := ApiConfig.name api;
     RequestLog.model := model;
     RequestLog.method := method;
     RequestLog.url := url;
     RequestLog.status := 0;
     RequestLog.latency := 0;
     RequestLog.requestBody := requestBody;
     RequestLog.responseBody := VUndefined;
     RequestLog.error := None |}.

(** The probe just after [createLogEntry] and [const start =
    performance.now()]. *)
Definition started (log : RequestLog.t) : Probe.t :=
  {| Probe.log := log; Probe.saveLog_calls := 0; Probe.requests := [];
     Probe.delivered := []; Probe.perf_reads := 1; Probe.date_reads := 1 |}.

Definition performance_now : M Z :=
  fun s => (Normal (World.performance_now w (Probe.perf_reads s)),
            {| Probe.log := Probe.log s; Probe.saveLog_calls := Probe.saveLog_calls s;
               Probe.requests := Probe.requests s; Probe.delivered := Probe.delivered s;
               Probe.perf_reads := S (Probe.perf_reads s); Probe.date_reads := Probe.date_reads s |}).

Definition Date_now : M Z :=
  fun s => (Normal (World.Date_now w (Probe.date_reads s)),
            {| Probe.log := Probe.log s; Probe.saveLog_calls := Probe.saveLog_calls s;
               Probe.requests := Probe.requests s; Probe.delivered := Probe.delivered s;
               Probe.perf_reads := Probe.perf_reads s; Probe.date_reads := S (Probe.date_reads s) |}).

(** [log.latency = Math.round(performance.now() - start)] *)
Definition measure_latency (start : Z) : M unit :=
  now <- performance_now;;
  fun s => (Normal tt, Probe.with_log (RequestLog.set_latency (now - start)) s).

Definition update_log (f : RequestLog.t -> RequestLog.t) : M unit :=
  fun s => (Normal tt, Probe.with_log f s).

Definition read_log : M RequestLog.t := fun s => (Normal (Probe.log s), s).

(** [saveLog(log)], not awaited *)
Definition call_saveLog : M unit :=
  fun s => (Normal tt,
            {| Probe.log := Probe.log s; Probe.saveLog_calls := S (Probe.saveLog_calls s);
               Probe.requests := Probe.requests s; Probe.delivered := Probe.delivered s;
               Probe.perf_reads := Probe.perf_reads s; Probe.date_reads := Probe.date_reads s |}).

(** [await fetch(url, init)]. Only a request with a deadline can be aborted
    by its timer; a world that aborts another one rejects it all the same. *)
Definition fetch (request : HttpRequest.t) : M Response.t :=
  fun s => (match World.fetched w with
            | FetchResponse response => Normal response
            | FetchFailure e => Throw e
            | FetchAborted message => Throw (AbortError message)
            end,
            {| Probe.log := Probe.log s; Probe.saveLog_calls := Probe.saveLog_calls s;
               Probe.requests := Probe.requests s ++ [request]; Probe.delivered := Probe.delivered s;
               Probe.perf_reads := Probe.perf_reads s; Probe.date_reads := Probe.date_reads s |}).

(** [await response.text()] *)
Definition Response_text (response : Response.t) : Completion jsstring :=
  match Response.body response with
  | None => Normal []
  | Some body =>
      match Body.failure body with
      | Some e => Throw e
      | None => Normal (concat (Body.chunks body))
      end
  end.

(** [await response.json()] *)
Definition Response_json (response : Response.t) : Completion jsval :=
  match Response_text response with
  | Normal text => JSON_parse rt text
  | Throw e => Throw e
  end.

(** The request headers of every probe. *)
Definition request_headers (api : ApiConfig.t) : list (jsstring * jsstring) :=
  obj_spread
    [(js "Authorization", js "Bearer " ++ ApiConfig.apiKey api);
     (js "Content-Type", js "application/json")]
    (default [] (ApiConfig.customHeaders api)).

(** [api.features && !api.features.includes('models')] *)
Definition models_disabled (api : ApiConfig.t) : bool :=
  match ApiConfig.features api with
  | Some features => negb (bool_decide (feature_models ∈ features))
  | None => false
  end.

Definition fetchModels_error_message (response : Response.t) (errorText : jsstring) : jsstring :=
  let errorMsg := js "HTTP " ++ Number_toString (Response.status response) ++ js " "
                  ++ Response.statusText response in
  let fallback := errorMsg ++ js ": " ++ slice_0 200 errorText in
  match JSON_parse rt errorText with
  | Normal errorJson =>
      match get_strict rt errorJson (js "error") with
      | Normal error =>
          if truthy error && truthy (get error (js "message")) then
            match ToString rt (get error (js "message")) with
            | Normal message => errorMsg ++ js ": " ++ message
            | Throw _ => fallback
            end
          else fallback
      | Throw _ => fallback
      end
  | Throw _ => fallback
  end.

(** [fetchModels]; the models it returns are the elements of the array in
    the response. *)
Definition fetchModels (api : ApiConfig.t) : Outcome.t (list jsval) :=
  if models_disabled api then immediately (Normal [])
  else
    let url := getEndpoint api models in
    if bool_decide (url = []) then immediately (Throw (Error MSG_NO_MODELS_ENDPOINT))
    else
      let log := createLogEntry api log_models url (js "GET") VUndefined VUndefined in
      let start := World.performance_now w 0 in
      run
        (try_catch
           (response <- fetch {| HttpRequest.method := js "GET"; HttpRequest.url := url;
                                 HttpRequest.headers := request_headers api;
                                 HttpRequest.body := None;
                               HttpRequest.deadline := Some 10000 |};;
            measure_latency start;;;
            update_log (RequestLog.set_status (Response.status response));;;
            if Response.ok response then
              data <- lift (Response_json response);;
              update_log (RequestLog.set_responseBody data);;;
              call_saveLog;;;
              match data with
              | VArr elems => ret elems
              | _ =>
                  data_data <- lift (get_strict rt data (js "data"));;
                  match data_data with
                  | VArr elems => ret elems
                  | _ => throw (Error MSG_BAD_FORMAT)
                  end
              end
            else
              errorText <- lift (Response_text response);;
              update_log (RequestLog.set_responseBody (VStr errorText));;;
              update_log (RequestLog.set_error errorText);;;
              call_saveLog;;;
              throw (Error (fetchModels_error_message response errorText)))
           (fun err =>
              measure_latency start;;;
              update_log (RequestLog.set_error (JsError.message err));;;
              call_saveLog;;;
              if bool_decide (JsError.name err = js "AbortError")
              then throw (Error MSG_FETCH_TIMEOUT)
              else throw err))
        (started log).

(** [await reader.read()] until done, accumulating the decoded text. *)
Definition drain (response : Response.t) : Completion jsstring :=
  Response_text response.

Definition testModelLatency_error_message (response : Response.t) (errorText : jsstring) : jsstring :=
  let shortMsg := js "HTTP " ++ Number_toString (Response.status response) in
  let fallback := shortMsg ++ js " " ++ Response.statusText response in
  match JSON_parse rt errorText with
  | Normal json =>
      match get_strict rt json (js "error") with
      | Normal error =>
          if truthy (opt_get error (js "message")) then
            match ToString rt (get error (js "message")) with
            | Normal message => shortMsg ++ js ": " ++ message
            | Throw _ => fallback
            end
          else if truthy (get json (js "message")) then
            match ToString rt (get json (js "message")) with
            | Normal message => shortMsg ++ js ": " ++ message
            | Throw _ => fallback
            end
          else fallback
      | Throw _ => fallback
      end
  | Throw _ => fallback
  end.

(** [testModelLatency], with its time-out in whole seconds. *)
Definition testModelLatency (api : ApiConfig.t) (modelId : jsstring)
    (timeoutSeconds : Z) (stream : bool) : Outcome.t TestResult.t :=
  let url := getEndpoint api chat in
  if bool_decide (url = []) then
    immediately (Normal
      {| TestResult.modelId := modelId; TestResult.latency := 0;
         TestResult.status := st_error; TestResult.message := Some MSG_NO_CHAT_ENDPOINT;
         TestResult.timestamp := World.Date_now w 0; TestResult.statusCode := None;
         TestResult.requestBody := VUndefined; TestResult.responseBody := VUndefined |})
  else
    let requestBody :=
      VObj (obj_spread
              [(js "model", VStr modelId);
               (js "messages", VArr [VObj [(js "role", VStr (js "user"));
                                           (js "content", VStr (js "Hi"))]]);
               (js "max_tokens", VNum 1);
               (js "stream", VBool stream)]
              (default [] (ApiConfig.customParams api))) in
    let log := createLogEntry api log_test url (js "POST") (VStr modelId) requestBody in
    let start := World.performance_now w 0 in
    run
      (try_catch
         (response <- fetch {| HttpRequest.method := js "POST"; HttpRequest.url := url;
                               HttpRequest.headers := request_headers api;
                               HttpRequest.body := Some (JSON_stringify rt requestBody);
                               HttpRequest.deadline := Some (timeoutSeconds * 1000) |};;
          update_log (RequestLog.set_status (Response.status response));;;
          measure_latency start;;;
          if Response.ok response then
            data <- (if stream then
                       accumulated <- lift (drain response);;
                       ret (VObj [(js "stream_content",
                                   VStr (slice_0 1000 accumulated
                                         ++ (if bool_decide (1000 < length accumulated)%nat
                                             then js "..." else [])))])
                     else lift (Response_json response));;
            update_log (RequestLog.set_responseBody data);;;
            call_saveLog;;;
            log <- read_log;;
            timestamp <- Date_now;;
            ret {| TestResult.modelId := modelId; TestResult.latency := RequestLog.latency log;
                   TestResult.status := st_success; TestResult.message := None;
                   TestResult.timestamp := timestamp;
                   TestResult.statusCode := Some (Response.status response);
                   TestResult.requestBody := requestBody; TestResult.responseBody := data |}
          else
            errorText <- lift (Response_text response);;
            update_log (RequestLog.set_responseBody (VStr errorText));;;
            update_log (RequestLog.set_error errorText);;;
            call_saveLog;;;
            timestamp <- Date_now;;
            ret {| TestResult.modelId := modelId; TestResult.latency := 0;
                   TestResult.status := st_error;
                   TestResult.message := Some (testModelLatency_error_message response errorText);
                   TestResult.timestamp := timestamp;
                   TestResult.statusCode := Some (Response.status response);
                   TestResult.requestBody := requestBody;
                   TestResult.responseBody := VStr errorText |})
         (fun error =>
            measure_latency start;;;
            update_log (RequestLog.set_error (JsError.message error));;;
            call_saveLog;;;
            timestamp <- Date_now;;
            ret {| TestResult.modelId := modelId; TestResult.latency := 0;
                   TestResult.status := st_error;
                   TestResult.message :=
                     Some (if bool_decide (JsError.name error = js "AbortError")
                           then MSG_TIMEOUT_PREFIX ++ Number_toString timeoutSeconds ++ js "s)"
                           else if bool_decide (JsError.message error = [])
                                then MSG_NETWORK_ERROR else JsError.message error);
                   TestResult.timestamp := timestamp;
                   TestResult.statusCode := Some 0;
                   TestResult.requestBody := requestBody;
                   TestResult.responseBody := VStr (JsError.message error) |}))
      (started log).

(** The synthetic tool of the function-calling probe. *)
Definition get_weather_tools : jsval :=
  VArr [VObj [(js "type", VStr (js "function"));
              (js "function",
               VObj [(js "name", VStr (js "get_weather"));
                     (js "description", VStr (js "Get the current weather"));
                     (js "parameters",
                      VObj [(js "type", VStr (js "object"));
                            (js "properties",
                             VObj [(js "location", VObj [(js "type", VStr (js "string"))])]);
                            (js "required", VArr [VStr (js "location")])])])]].

(** [choice?.message?.tool_calls?.length > 0 || choice?.message?.function_call],
    with [choice = data.choices?.[0]], as a condition. *)
Definition hasToolCalls (choice : jsval) : bool :=
  let message := opt_get choice (js "message") in
  gt_zero rt (opt_get (opt_get message (js "tool_calls")) (js "length"))
  || truthy (opt_get message (js "function_call")).

Definition testModelToolSupport (api : ApiConfig.t) (modelId : jsstring)
    (timeoutSeconds : Z) : Outcome.t ToolTestResult.t :=
  let url := getEndpoint api chat in
  if bool_decide (url = []) then
    immediately (Normal
      {| ToolTestResult.modelId := modelId; ToolTestResult.latency := 0;
         ToolTestResult.status := st_error;
         ToolTestResult.message := Some MSG_NO_CHAT_ENDPOINT;
         ToolTestResult.timestamp := World.Date_now w 0;
         ToolTestResult.requestBody := VObj []; ToolTestResult.responseBody := VObj [] |})
  else
    let requestBody :=
      VObj (obj_spread
              [(js "model", VStr modelId);
               (js "messages",
                VArr [VObj [(js "role", VStr (js "user"));
                            (js "content", VStr (js "What is the weather in Tokyo?"))]]);
               (js "tools", get_weather_tools);
               (js "tool_choice", VStr (js "auto"));
               (js "max_tokens", VNum 50)]
              (default [] (ApiConfig.customParams api))) in
    let log := createLogEntry api log_tool_check url (js "POST") (VStr modelId) requestBody in
    let start := World.performance_now w 0 in
    run
      (try_catch
         (response <- fetch {| HttpRequest.method := js "POST"; HttpRequest.url := url;
                               HttpRequest.headers := request_headers api;
                               HttpRequest.body := Some (JSON_stringify rt requestBody);
                               HttpRequest.deadline := Some (timeoutSeconds * 1000) |};;
          latency_now <- performance_now;;
          let latency := latency_now - start in
          update_log (RequestLog.set_status (Response.status response));;;
          update_log (RequestLog.set_latency latency);;;
          if Response.ok response then
            data <- lift (Response_json response);;
            update_log (RequestLog.set_responseBody data);;;
            call_saveLog;;;
            choices <- lift (get_strict rt data (js "choices"));;
            let choice := opt_get_0 choices in
            timestamp <- Date_now;;
            ret {| ToolTestResult.modelId := modelId;
                   ToolTestResult.status :=
                     if hasToolCalls choice then st_supported else st_unsupported;
                   ToolTestResult.latency := latency;
                   ToolTestResult.requestBody := requestBody;
                   ToolTestResult.responseBody := data;
                   ToolTestResult.message :=
                     Some (if hasToolCalls choice then js "Successfully triggered tool call"
                           else js "Model returned text instead of tool call");
                   ToolTestResult.timestamp := timestamp |}
          else
            errorText <- lift (Response_text response);;
            update_log (RequestLog.set_responseBody (VStr errorText));;;
            update_log (RequestLog.set_error errorText);;;
            call_saveLog;;;
            timestamp <- Date_now;;
            ret {| ToolTestResult.modelId := modelId; ToolTestResult.status := st_error;
                   ToolTestResult.latency := latency;
                   ToolTestResult.requestBody := requestBody;
                   ToolTestResult.responseBody := VStr errorText;
                   ToolTestResult.message :=
                     Some (js "HTTP " ++ Number_toString (Response.status response));
                   ToolTestResult.timestamp := timestamp |})
         (fun error =>
            measure_latency start;;;
            update_log (RequestLog.set_error (JsError.message error));;;
            call_saveLog;;;
            timestamp <- Date_now;;
            ret {| ToolTestResult.modelId := modelId; ToolTestResult.status := st_error;
                   ToolTestResult.latency := 0;
                   ToolTestResult.requestBody := requestBody;
                   ToolTestResult.responseBody := VStr (JsError.message error);
                   ToolTestResult.message := Some (JsError.message error);
                   ToolTestResult.timestamp := timestamp |}))
      (started log).

(** [onChunk(content)]: the caller's callback, which sees what it was
    handed before and may throw. *)
Definition deliver (onChunk : list jsval -> jsval -> Completion unit) (content : jsval) : M unit :=
  fun s => (onChunk (Probe.delivered s) content,
            {| Probe.log := Probe.log s; Probe.saveLog_calls := Probe.saveLog_calls s;
               Probe.requests := Probe.requests s;
               Probe.delivered := Probe.delivered s ++ [content];
               Probe.perf_reads := Probe.perf_reads s; Probe.date_reads := Probe.date_reads s |}).

(** [v || ''] *)
Definition or_empty_string (v : jsval) : jsval := if truthy v then v else VStr [].

(** One line of a chunk of the event stream; yields the new [fullText]. *)
Definition stream_line (onChunk : list jsval -> jsval -> Completion unit)
    (fullText line : jsstring) : M jsstring :=
  if startsWith line (js "data: ") && negb (bool_decide (line = js "data: [DONE]")) then
    try_catch
      (json <- lift (JSON_parse rt (replace (js "data: ") [] line));;
       choices <- lift (get_strict rt json (js "choices"));;
       let content :=
         or_empty_string (opt_get (opt_get (opt_get_0 choices) (js "delta")) (js "content")) in
       if truthy content then
         deliver onChunk content;;;
         text <- lift (ToString rt content);;
         ret (fullText ++ text)
       else ret fullText)
      (fun _ => ret fullText)
  else ret fullText.

Fixpoint stream_lines (onChunk : list jsval -> jsval -> Completion unit)
    (fullText : jsstring) (lines : list jsstring) : M jsstring :=
  match lines with
  | [] => ret fullText
  | line :: lines' =>
      fullText' <- stream_line onChunk fullText line;;
      stream_lines onChunk fullText' lines'
  end.

(** The read loop over the chunks that arrive; yields [fullText] and
    [rawStream]. The last read reports the end with no value. *)
Fixpoint read_stream (onChunk : list jsval -> jsval -> Completion unit)
    (fullText rawStream : jsstring) (chunks : list jsstring) (failure : option JsError.t)
    : M (jsstring * jsstring) :=
  match chunks with
  | [] =>
      match failure with
      | Some e => throw e
      | None => ret (fullText, rawStream)
      end
  | chunkValue :: chunks' =>
      fullText' <- stream_lines onChunk fullText (split 0x0A chunkValue);;
      read_stream onChunk fullText' (rawStream ++ chunkValue) chunks' failure
  end.

Definition sendChatMessage_error_detail (text : jsstring) : jsstring :=
  match JSON_parse rt text with
  | Normal json =>
      match get_strict rt json (js "error") with
      | Normal error => if truthy error then JSON_stringify_pretty rt error else text
      | Throw _ => text
      end
  | Throw _ => text
  end.

(** [sendChatMessage], on a request body that is an object, given by its
    fields (what [prepareChatBody] builds). *)
Definition sendChatMessage (api : ApiConfig.t) (requestBody : list (jsstring * jsval))
    (onChunk : list jsval -> jsval -> Completion unit) : Outcome.t SendMessageResult.t :=
  let url := getEndpoint api chat in
  if bool_decide (url = []) then immediately (Throw (Error (js "Chat Endpoint not configured")))
  else
    let finalBody := VObj (obj_spread requestBody (default [] (ApiConfig.customParams api))) in
    let log := createLogEntry api log_chat url (js "POST")
                 (get (VObj requestBody) (js "model")) finalBody in
    let start := World.performance_now w 0 in
    run
      (try_catch
         (response <- fetch {| HttpRequest.method := js "POST"; HttpRequest.url := url;
                               HttpRequest.headers := request_headers api;
                               HttpRequest.body := Some (JSON_stringify rt finalBody);
                               HttpRequest.deadline := None |};;
          update_log (RequestLog.set_status (Response.status response));;;
          if negb (Response.ok response) then
            text <- lift (Response_text response);;
            update_log (RequestLog.set_responseBody (VStr text));;;
            update_log (RequestLog.set_error text);;;
            measure_latency start;;;
            call_saveLog;;;
            throw (Error (js "[" ++ Number_toString (Response.status response) ++ js " "
                          ++ Response.statusText response ++ js "]" ++ [0x0A%N]
                          ++ sendChatMessage_error_detail text))
          else if truthy (get finalBody (js "stream")) then
            match Response.body response with
            | None => throw (Error MSG_NO_BODY)
            | Some body =>
                read <- read_stream onChunk [] [] (Body.chunks body) (Body.failure body);;
                let fullText := read.1 in
                let rawStream := read.2 in
                measure_latency start;;;
                update_log (RequestLog.set_responseBody
                              (VObj [(js "stream_length", VNum (Z.of_nat (length rawStream)));
                                     (js "generated_text", VStr fullText)]));;;
                call_saveLog;;;
                ret {| SendMessageResult.actualBody := JSON_stringify_pretty rt finalBody;
                       SendMessageResult.responseBody := rawStream |}
            end
          else
            data <- lift (Response_json response);;
            measure_latency start;;;
            update_log (RequestLog.set_responseBody data);;;
            call_saveLog;;;
            choices <- lift (get_strict rt data (js "choices"));;
            let content :=
              or_empty_string (opt_get (opt_get (opt_get_0 choices) (js "message")) (js "content")) in
            deliver onChunk content;;;
            ret {| SendMessageResult.actualBody := JSON_stringify_pretty rt finalBody;
                   SendMessageResult.responseBody := JSON_stringify_pretty rt data |})
         (fun error =>
            update_log (fun log => if bool_decide (RequestLog.status log = 0)
                                   then RequestLog.set_status 0 log else log);;;
            measure_latency start;;;
            update_log (RequestLog.set_error (JsError.message error));;;
            call_saveLog;;;
            throw error))
      (started log).
End Executor.

(** ** apiService.ts: testApiKeyConnectivity, prepareChatBody *)

Module ConnectivityResult.
Record t := { success : bool; latency : Z; modelCount : Z; message : jsstring }.
End ConnectivityResult.

(** The world as a call sees it that begins after [n] readings of
    [performance.now()]. *)
Definition after_clock_reads (n : nat) (w : World.t) : World.t :=
  {| World.randomUUID := World.randomUUID w;
     World.Date_now := World.Date_now w;
     World.performance_now := fun k => World.performance_now w (n + k);
     World.fetched := World.fetched w |}.

(** How often the call read [performance.now()]. *)
Definition clock_reads {A} (o : Outcome.t A) : nat :=
  match Outcome.final o with Some s => Probe.perf_reads s | None => 0%nat end.

Section Connectivity.
Context (rt : Builtins) (w : World.t).

(** The configuration that [testApiKeyConnectivity] probes. *)
Definition connectivity_api (baseUrl apiKey : jsstring) (skipAutoCompletion : bool) : ApiConfig.t :=
  {| ApiConfig.id := js "temp"; ApiConfig.name := js "BulkTest";
     ApiConfig.baseUrl := baseUrl; ApiConfig.apiKey := apiKey;
     ApiConfig.connectionMode := standard;
     ApiConfig.features := Some [feature_models; feature_chat];
     ApiConfig.modelsEndpoint := None; ApiConfig.chatEndpoint := None;
     ApiConfig.customHeaders := None; ApiConfig.customParams := None;
     ApiConfig.skipAutoCompletion := Some skipAutoCompletion;
     ApiConfig.autoV1 := Some (negb skipAutoCompletion);
     ApiConfig.createdAt := 0 |}.

(** [testApiKeyConnectivity]: it reads the clock, awaits [fetchModels] and,
    if that returns, reads the clock again. *)
Definition testApiKeyConnectivity (baseUrl apiKey : jsstring) (skipAutoCompletion : bool)
  : Outcome.t ConnectivityResult.t :=
  let tempApi := connectivity_api baseUrl apiKey skipAutoCompletion in
  let start := World.performance_now w 0 in
  let fetched := fetchModels rt (after_clock_reads 1 w) tempApi in
  {| Outcome.completion :=
       match Outcome.completion fetched with
       | Normal found =>
           let end_ := World.performance_now w (1 + clock_reads fetched) in
           Normal {| ConnectivityResult.success := true;
                     ConnectivityResult.latency := end_ - start;
                     ConnectivityResult.modelCount := Z.of_nat (length found);
                     ConnectivityResult.message := js "OK" |}
       | Throw e =>
           Normal {| ConnectivityResult.success := false;
                     ConnectivityResult.latency := 0;
                     ConnectivityResult.modelCount := 0;
                     ConnectivityResult.message :=
                       if bool_decide (JsError.message e = []) then js "Unknown Error"
                       else JsError.message e |}
       end;
     Outcome.final := Outcome.final fetched |}.
End Connectivity.

(** [seed?: number], as the guard of [prepareChatBody] tells its values
    apart. *)
Inductive Seed := seed_undefined | seed_null | seed_NaN | seed_number (n : Z).

(** The chat settings. The sampling parameters are copied into the body
    without being read: they are kept as values of type [any]. *)
Module ChatConfig.
Record t := {
  temperature : jsval;
  top_p : jsval;
  frequency_penalty : jsval;
  presence_penalty : jsval;
  max_tokens : jsval;
  seed : Seed;
  stream : bool;
  enableImage : bool;
  imageUrl : option jsstring
}.
End ChatConfig.

(** [config.enableImage && config.imageUrl?.trim()] *)
Definition image_attached (config : ChatConfig.t) : bool :=
  ChatConfig.enableImage config
  && match ChatConfig.imageUrl config with
     | Some imageUrl => negb (bool_decide (trim imageUrl = []))
     | None => false
     end.

(** [prepareChatBody]: the fields of the body object; [messages] are the
    message objects of the conversation so far. *)
Definition prepareChatBody (modelId : jsstring) (messages : list jsval)
    (config : ChatConfig.t) (currentInput : jsstring) : list (jsstring * jsval) :=
  let userContent :=
    if image_attached config then
      VArr [VObj [(js "type", VStr (js "text")); (js "text", VStr currentInput)];
            VObj [(js "type", VStr (js "image_url"));
                  (js "image_url",
                   VObj [(js "url", VStr (trim (default [] (ChatConfig.imageUrl config))))])]]
    else VStr currentInput in
  let finalMessages :=
    messages ++ [VObj [(js "role", VStr (js "user")); (js "content", userContent)]] in
  let body :=
    [(js "model", VStr modelId);
     (js "messages", VArr finalMessages);
     (js "temperature", ChatConfig.temperature config);
     (js "top_p", ChatConfig.top_p config);
     (js "frequency_penalty", ChatConfig.frequency_penalty config);
     (js "presence_penalty", ChatConfig.presence_penalty config);
     (js "max_tokens", ChatConfig.max_tokens config);
     (js "stream", VBool (ChatConfig.stream config))] in
  match ChatConfig.seed config with
  | seed_number n => obj_set (js "seed") (VNum n) body
  | _ => body
  end.

(** ** The worker pool of the two runners

    [runTests] (Dashboard.tsx) and [handleStart] (BulkTestView.tsx) start
    [W] asynchronous workers over one shared array; every worker loops
    [while (queue.length > 0) { task = queue.shift(); ... await probe ... }].
    JavaScript runs a worker from one [await] to the next without
    interruption, so a worker's step is: its awaited probe settles, it records
    the result, and it runs on from the loop head to its next [await] or to
    its end. *)

Inductive Worker (Task : Type) :=
| Awaiting (task : Task)
| Finished
| Rejected (e : JsError.t).
Arguments Awaiting {Task} task.
Arguments Finished {Task}.
Arguments Rejected {Task} e.

Module Pool.
Record t (Task Result Client : Type) := {
  queue : list Task;
  workers : list (Worker Task);
  (** the state the workers write their results to *)
  client : Client;
  (** observation: which worker took which task, in the order of the shifts *)
  handed : list (nat * Task);
  (** observation: the results recorded, in the order of completion *)
  results : list (Task * Result)
}.
Arguments queue {Task Result Client} _.
Arguments workers {Task Result Client} _.
Arguments client {Task Result Client} _.
Arguments handed {Task Result Client} _.
Arguments results {Task Result Client} _.
End Pool.

Section WorkerPool.
Context {Task Result Client : Type}.
(** the truth value of a task taken off the queue *)
Context (usable : Task -> bool).
(** the awaited probe, in the world it runs in *)
Context (probe : Task -> World.t -> Completion Result).
(** what a worker does with the result before it loops; an exception
    leaves the client state as it was *)
Context (record : Task -> Result -> Client -> Completion Client).

Abbreviation pool := (Pool.t Task Result Client).

(** From the loop head: shift until a task passes the truth test. A task
    that fails it is dropped and the loop goes on, as in Dashboard.tsx;
    BulkTestView.tsx leaves the loop instead, but its tasks always pass. *)
Fixpoint next_task (queue : list Task) : option Task * list Task :=
  match queue with
  | [] => (None, [])
  | task :: rest => if usable task then (Some task, rest) else next_task rest
  end.

(** Worker [i] runs from the loop head to its next await, or to its end. *)
Definition enter (i : nat) (p : pool) : pool :=
  match next_task (Pool.queue p) with
  | (Some task, rest) =>
      {| Pool.queue := rest; Pool.workers := <[i := Awaiting task]> (Pool.workers p);
         Pool.client := Pool.client p; Pool.handed := Pool.handed p ++ [(i, task)];
         Pool.results := Pool.results p |}
  | (None, rest) =>
      {| Pool.queue := rest; Pool.workers := <[i := Finished]> (Pool.workers p);
         Pool.client := Pool.client p; Pool.handed := Pool.handed p;
         Pool.results := Pool.results p |}
  end.

(** [worker()]: a new worker is called and runs to its first await. *)
Definition spawn (p : pool) : pool :=
  enter (length (Pool.workers p))
    {| Pool.queue := Pool.queue p; Pool.workers := Pool.workers p ++ [Finished];
       Pool.client := Pool.client p; Pool.handed := Pool.handed p;
       Pool.results := Pool.results p |}.

(** [Array(W).fill(null).map(() => worker())] *)
Definition start (W : nat) (queue : list Task) (client : Client) : pool :=
  Nat.iter W spawn
    {| Pool.queue := queue; Pool.workers := []; Pool.client := client;
       Pool.handed := []; Pool.results := [] |}.

(** Worker [i] ends on an exception that nothing catches: the promise of
    [worker()] is rejected, and what the worker has not done stays undone. *)
Definition reject (i : nat) (e : JsError.t) (p : pool) : pool :=
  {| Pool.queue := Pool.queue p; Pool.workers := <[i := Rejected e]> (Pool.workers p);
     Pool.client := Pool.client p; Pool.handed := Pool.handed p;
     Pool.results := Pool.results p |}.

(** The probe that worker [i] awaits settles, in world [w]. [None]: worker
    [i] awaits nothing. *)
Definition settle (i : nat) (w : World.t) (p : pool) : option pool :=
  match Pool.workers p !! i with
  | Some (Awaiting task) =>
      match probe task w with
      | Normal result =>
          match record task result (Pool.client p) with
          | Normal client =>
              Some (enter i
                      {| Pool.queue := Pool.queue p; Pool.workers := Pool.workers p;
                         Pool.client := client;
                         Pool.handed := Pool.handed p;
                         Pool.results := Pool.results p ++ [(task, result)] |})
          | Throw e => Some (reject i e p)
          end
      | Throw e => Some (reject i e p)
      end
  | _ => None
  end.

(** A schedule: which probes settle, in which order and world. *)
Fixpoint exec (schedule : list (nat * World.t)) (p : pool) : option pool :=
  match schedule with
  | [] => Some p
  | (i, w) :: schedule' =>
      match settle i w p with
      | Some p' => exec schedule' p'
      | None => None
      end
  end.

Definition is_finished (worker : Worker Task) : bool :=
  match worker with Finished => true | _ => false end.

(** [await Promise.all(workers)] has resolved. *)
Definition resolved (p : pool) : bool := forallb is_finished (Pool.workers p).

Definition is_rejected (worker : Worker Task) : bool :=
  match worker with Rejected _ => true | _ => false end.

(** [await Promise.all(workers)] has thrown: a worker was rejected. *)
Definition rejected (p : pool) : bool := existsb is_rejected (Pool.workers p).

(** The client state after the results recorded, from [client] on. *)
Definition recorded (client : Client) (results : list (Task * Result)) : Client :=
  foldl (fun c tr => match record tr.1 tr.2 c with Normal c' => c' | Throw _ => c end)
    client results.

(** The task whose probe a worker awaits. *)
Definition awaited (worker : Worker Task) : option Task :=
  match worker with Awaiting task => Some task | _ => None end.

(** The tasks whose probes are in flight. *)
Definition in_flight (p : pool) : list Task := omap awaited (Pool.workers p).

(** What holds of a pool started on the queue [init], whatever has
    settled since: the tasks handed out are, in order, the usable tasks
    taken off the front of [init]; each of them has its result recorded or
    its probe in flight; a worker has ended only on an empty queue; none
    was rejected. *)
Definition pool_invariant (init : list Task) (p : pool) : Prop :=
  (Pool.handed p).*2 ++ List.filter usable (Pool.queue p) = List.filter usable init
  /\ (Pool.results p).*1 ++ in_flight p ≡ₚ (Pool.handed p).*2
  /\ (Finished ∈ Pool.workers p -> Pool.queue p = [])
  /\ (forall e, Rejected e ∉ Pool.workers p).
End WorkerPool.

(** [Math.min(testConcurrency, queue.length)] as an array length; [Array]
    throws a RangeError on a negative one. *)
Definition worker_count (testConcurrency : Z) (tasks : nat) : option nat :=
  if 0 <=? testConcurrency then Some (Z.to_nat (Z.min testConcurrency (Z.of_nat tasks)))
  else None.

(** ** Dashboard.tsx: runTests *)

Inductive TestMode := mode_latency | mode_tool.

#[global] Instance TestMode_eq_dec : EqDecision TestMode.
Proof. solve_decision. Defined.

(** [TestResult | ToolTestResult] *)
Inductive RoundResult :=
| LatencyRound (r : TestResult.t)
| ToolRound (r : ToolTestResult.t).

Module Round.
Definition latency (r : RoundResult) : Z :=
  match r with LatencyRound r => TestResult.latency r | ToolRound r => ToolTestResult.latency r end.
Definition status (r : RoundResult) : Status :=
  match r with LatencyRound r => TestResult.status r | ToolRound r => ToolTestResult.status r end.
Definition message (r : RoundResult) : option jsstring :=
  match r with LatencyRound r => TestResult.message r | ToolRound r => ToolTestResult.message r end.

(** [{...result, latency, status, message}] *)
Definition override (latency : Z) (status : Status) (message : jsstring) (r : RoundResult)
  : RoundResult :=
  match r with
  | LatencyRound r =>
      LatencyRound
        {| TestResult.modelId := TestResult.modelId r; TestResult.latency := latency;
           TestResult.status := status; TestResult.message := Some message;
           TestResult.timestamp := TestResult.timestamp r;
           TestResult.statusCode := TestResult.statusCode r;
           TestResult.requestBody := TestResult.requestBody r;
           TestResult.responseBody := TestResult.responseBody r |}
  | ToolRound r =>
      ToolRound
        {| ToolTestResult.modelId := ToolTestResult.modelId r; ToolTestResult.status := status;
           ToolTestResult.latency := latency;
           ToolTestResult.requestBody := ToolTestResult.requestBody r;
           ToolTestResult.responseBody := ToolTestResult.responseBody r;
           ToolTestResult.message := Some message;
           ToolTestResult.timestamp := ToolTestResult.timestamp r |}
  end.
End Round.

(** What the aggregation logic of a worker computes after a round. *)
Module Aggregate.
Record t := {
  avgLatency : Z;
  successCount : Z;
  newStatus : Status;
  message : jsstring
}.
End Aggregate.

Module Dashboard.
Record t := {
  (** the own properties of the plain object [sessionResults] *)
  sessionResults : gmap jsstring (list RoundResult);
  testResults : gmap jsstring RoundResult;
  toolTestResults : gmap jsstring RoundResult;
  completedCount : Z;
  (** [testProgress]: current and total *)
  testProgress : option (Z * Z)
}.

Section RunTests.
Context (rt : Builtins) (api : ApiConfig.t) (settings : GlobalSettings.t)
        (activeTestMode : TestMode).

(** [settings.testRounds || 1] *)
Definition rounds : Z :=
  if GlobalSettings.testRounds settings =? 0 then 1 else GlobalSettings.testRounds settings.

(** [settings.stream ?? false] *)
Definition useStream : bool := default false (GlobalSettings.stream settings).

(** The flattened task queue: every selected model, [rounds] times. *)
Definition make_queue (selectedModels : list jsstring) : list jsstring :=
  flat_map (fun m => replicate (Z.to_nat rounds) m) selectedModels.

Definition sumLatency (modelRuns : list RoundResult) : Z :=
  foldl (fun sum r => sum + Round.latency r) 0 modelRuns.

Definition successCount (modelRuns : list RoundResult) : Z :=
  foldl (fun successCount r =>
           let successCount :=
             if bool_decide (activeTestMode = mode_latency)
                && bool_decide (Round.status r = st_success)
             then successCount + 1 else successCount in
           if bool_decide (activeTestMode = mode_tool)
              && bool_decide (Round.status r = st_supported)
           then successCount + 1 else successCount) 0 modelRuns.

(** The aggregation logic, on the runs of the model so far, the last of
    which is [result]. *)
Definition aggregate (modelRuns : list RoundResult) (result : RoundResult) : Aggregate.t :=
  let totalRuns := Z.of_nat (length modelRuns) in
  let avgLatency := Math_round_div (sumLatency modelRuns) totalRuns in
  let successCount := successCount modelRuns in
  let hasSuccess := 0 <? successCount in
  let newStatus := if hasSuccess then st_success else st_error in
  let newStatus :=
    if bool_decide (activeTestMode = mode_tool)
    then (if hasSuccess then st_supported else st_unsupported) else newStatus in
  let newStatus :=
    if bool_decide (activeTestMode = mode_tool) && (successCount =? 0)
       && existsb (fun r => bool_decide (Round.status r = st_error)) modelRuns
    then st_error else newStatus in
  let result_message := default (js "undefined") (Round.message result) in
  let message :=
    js "Runs: " ++ Number_toString successCount ++ js "/" ++ Number_toString rounds
    ++ js " OK. Avg: " ++ Number_toString avgLatency ++ js "ms. "
    ++ (if 1 <? rounds then js "Last: " ++ result_message else result_message) in
  {| Aggregate.avgLatency := avgLatency; Aggregate.successCount := successCount;
     Aggregate.newStatus := newStatus; Aggregate.message := message |}.

(** [if (!sessionResults[modelId]) sessionResults[modelId] = [];] and the
    array that [sessionResults[modelId].push] is then called on.
    [sessionResults] is a plain object: under a key that it has not stored
    but inherits, it finds a function (or its prototype), which is truthy, so
    that nothing is assigned, and which has no [push]: the call throws. *)
Definition session_runs (modelId : jsstring) (d : t) : Completion (list RoundResult) :=
  match sessionResults d !! modelId with
  | Some modelRuns => Normal modelRuns
  | None =>
      if bool_decide (modelId ∈ Object_prototype_members)
      then Throw (TypeError_not_a_function rt (js "sessionResults[modelId].push"))
      else Normal []
  end.

(** From the [push] on: the result joins the runs of the model, the
    aggregate of the runs becomes the entry of the model in the table of the
    active mode, and the round is counted. *)
Definition record_round (modelId : jsstring) (earlier : list RoundResult)
    (result : RoundResult) (d : t) : t :=
  let modelRuns := earlier ++ [result] in
  let a := aggregate modelRuns result in
  let entry := Round.override (Aggregate.avgLatency a) (Aggregate.newStatus a)
                 (Aggregate.message a) result in
  {| sessionResults := <[modelId := modelRuns]> (sessionResults d);
     testResults :=
       match activeTestMode with
       | mode_latency => <[modelId := entry]> (testResults d)
       | mode_tool => testResults d
       end;
     toolTestResults :=
       match activeTestMode with
       | mode_tool => <[modelId := entry]> (toolTestResults d)
       | mode_latency => toolTestResults d
       end;
     completedCount := completedCount d + 1;
     testProgress :=
       match testProgress d with
       | Some (_, total) => Some (completedCount d + 1, total)
       | None => None
       end |}.

(** What a worker does when the probe of [modelId] has returned [result];
    nothing is written before the [push]. *)
Definition complete_round (modelId : jsstring) (result : RoundResult) (d : t) : Completion t :=
  match session_runs modelId d with
  | Throw e => Throw e
  | Normal earlier => Normal (record_round modelId earlier result d)
  end.

(** The probe of the active test mode. *)
Definition probe (modelId : jsstring) (w : World.t) : Completion RoundResult :=
  match activeTestMode with
  | mode_latency =>
      match Outcome.completion
              (testModelLatency rt w api modelId (GlobalSettings.testTimeout settings) useStream) with
      | Normal r => Normal (LatencyRound r)
      | Throw e => Throw e
      end
  | mode_tool =>
      match Outcome.completion
              (testModelToolSupport rt w api modelId (GlobalSettings.testTimeout settings)) with
      | Normal r => Normal (ToolRound r)
      | Throw e => Throw e
      end
  end.

(** [if (modelId)] *)
Definition usable (modelId : jsstring) : bool := negb (bool_decide (modelId = [])).

(** The state of a run: fresh session results, progress at zero; the
    result tables keep what earlier runs left. *)
Definition fresh (queue : list jsstring) (testResults toolTestResults : gmap jsstring RoundResult) : t :=
  {| sessionResults := ∅; testResults := testResults; toolTestResults := toolTestResults;
     completedCount := 0; testProgress := Some (0, Z.of_nat (length queue)) |}.

(** [runTests] up to [await Promise.all(workers)], for the configuration
    found under the selected id. [None]: no run starts (the early return on
    an empty selection, or the RangeError of a negative array length). *)
Definition runTests (selectedModels : list jsstring)
    (testResults toolTestResults : gmap jsstring RoundResult)
  : option (Pool.t jsstring RoundResult t) :=
  if bool_decide (selectedModels = []) then None
  else
    let queue := make_queue selectedModels in
    match worker_count (GlobalSettings.testConcurrency settings) (length queue) with
    | Some W => Some (start usable W queue (fresh queue testResults toolTestResults))
    | None => None
    end.

(** The entry of the active result table. *)
Definition entry (modelId : jsstring) (d : t) : option RoundResult :=
  match activeTestMode with
  | mode_latency => testResults d !! modelId
  | mode_tool => toolTestResults d !! modelId
  end.

(** The rounds of one model, folded in the order of their completion, as
    far as no round throws. *)
Definition fold_rounds (modelId : jsstring) (results : list RoundResult) (d : t) : Completion t :=
  foldl (fun c result =>
           match c with
           | Normal d => complete_round modelId result d
           | Throw e => Throw e
           end) (Normal d) results.
End RunTests.
End Dashboard.

(** ** BulkTestView.tsx: handleStart *)

Module BulkTestView.
Record t := {
  results : list MatrixRowResult.t;
  completed : Z;
  (** [progress]: current and total *)
  progress : Z * Z
}.

Section HandleStart.
Context (rt : Builtins) (baseUrl : jsstring) (globalSettings : GlobalSettings.t).

(** Every key with every target model. *)
Definition make_tasks (keys targetModels : list jsstring) : list (jsstring * jsstring) :=
  flat_map (fun key => map (fun model => (key, model)) targetModels) keys.

Definition tempApi (key : jsstring) : ApiConfig.t :=
  {| ApiConfig.id := js "temp"; ApiConfig.name := js "temp"; ApiConfig.baseUrl := baseUrl;
     ApiConfig.apiKey := key; ApiConfig.connectionMode := standard;
     ApiConfig.features := Some [feature_chat];
     ApiConfig.modelsEndpoint := None; ApiConfig.chatEndpoint := None;
     ApiConfig.customHeaders := None; ApiConfig.customParams := None;
     ApiConfig.skipAutoCompletion := None; ApiConfig.autoV1 := None;
     ApiConfig.createdAt := 0 |}.

Definition probe (task : jsstring * jsstring) (w : World.t) : Completion TestResult.t :=
  Outcome.completion
    (testModelLatency rt w (tempApi task.1) task.2 (GlobalSettings.testTimeout globalSettings) false).

Definition cell (result : TestResult.t) : MatrixCellResult.t :=
  {| MatrixCellResult.latency := TestResult.latency result;
     MatrixCellResult.status := TestResult.status result;
     MatrixCellResult.message := TestResult.message result;
     MatrixCellResult.statusCode := TestResult.statusCode result;
     MatrixCellResult.requestBody := TestResult.requestBody result;
     MatrixCellResult.responseBody := TestResult.responseBody result |}.

(** The [setResults] update: the first row of the key gets the cell. *)
Fixpoint set_cell (key model : jsstring) (c : MatrixCellResult.t)
    (rows : list MatrixRowResult.t) : list MatrixRowResult.t :=
  match rows with
  | [] => []
  | row :: rows' =>
      if bool_decide (MatrixRowResult.key row = key) then
        {| MatrixRowResult.key := MatrixRowResult.key row;
           MatrixRowResult.results := <[model := c]> (MatrixRowResult.results row) |} :: rows'
      else row :: set_cell key model c rows'
  end.

(** [setResults], [completed++] and [setProgress] after a probe. *)
Definition store_result (task : jsstring * jsstring) (result : TestResult.t) (b : t) : t :=
  {| results := set_cell task.1 task.2 (cell result) (results b);
     completed := completed b + 1;
     progress := (completed b + 1, (progress b).2) |}.

(** What a worker does with the result of a probe: nothing in it throws. *)
Definition record (task : jsstring * jsstring) (result : TestResult.t) (b : t) : Completion t :=
  Normal (store_result task result b).

(** A task is an object [{ key, model }]: it is never falsy, and the
    [if (!task) break] of the loop never leaves it. *)
Definition usable (task : jsstring * jsstring) : bool := true.

Definition initial (keys : list jsstring) (tasks : nat) : t :=
  {| results := map (fun key => {| MatrixRowResult.key := key; MatrixRowResult.results := ∅ |}) keys;
     completed := 0;
     progress := (0, Z.of_nat tasks) |}.

(** The keys of the input: its lines, trimmed, without the empty ones. *)
Definition parse_keys (keysInput : jsstring) : list jsstring :=
  List.filter (fun k => negb (bool_decide (k = []))) (map trim (split 0x0A keysInput)).

(** [handleStart] up to [await Promise.all(workers)]. [None]: no run starts
    (an early return on missing input, or the RangeError of a negative array
    length). *)
Definition handleStart (keysInput : jsstring) (targetModels : list jsstring)
  : option (Pool.t (jsstring * jsstring) TestResult.t t) :=
  if bool_decide (trim baseUrl = []) then None
  else if bool_decide (trim keysInput = []) then None
  else if bool_decide (targetModels = []) then None
  else
    let keys := parse_keys keysInput in
    if bool_decide (keys = []) then None
    else
      let tasks := make_tasks keys targetModels in
      match worker_count (GlobalSettings.testConcurrency globalSettings) (length tasks) with
      | Some W => Some (start usable W tasks (initial keys (length tasks)))
      | None => None
      end.
End HandleStart.
End BulkTestView.

(** ** BulkTestView.tsx: the matrix and its export *)

(** [rows.find(r => r.key === key)] *)
Fixpoint find_row (key : jsstring) (rows : list MatrixRowResult.t) : option MatrixRowResult.t :=
  match rows with
  | [] => None
  | row :: rows' =>
      if bool_decide (MatrixRowResult.key row = key) then Some row else find_row key rows'
  end.

Inductive ExportKeys := export_working | export_failed | export_all.

(** [Object.values(r.results).some(res => res.status === 'success')] *)
Definition some_success (row : MatrixRowResult.t) : bool :=
  existsb (fun res => bool_decide (MatrixCellResult.status res = st_success))
    (map_to_list (MatrixRowResult.results row)).*2.

(** The filter of the failed keys: the row has results, and none is a
    success. *)
Definition all_failed (row : MatrixRowResult.t) : bool :=
  let hasResults := negb (bool_decide (size (MatrixRowResult.results row) = 0%nat)) in
  let allFailed :=
    forallb (fun res => negb (bool_decide (MatrixCellResult.status res = st_success)))
      (map_to_list (MatrixRowResult.results row)).*2 in
  hasResults && allFailed.

(** The keys that [handleExportKeys] selects. *)
Definition keysToExport (type : ExportKeys) (results : list MatrixRowResult.t) : list jsstring :=
  match type with
  | export_all => MatrixRowResult.key <$> results
  | export_working => MatrixRowResult.key <$> List.filter some_success results
  | export_failed => MatrixRowResult.key <$> List.filter all_failed results
  end.

(** [handleExportKeys]: the lines copied to the clipboard; [None] when
    there is nothing to copy (no results, or no key of the kind). *)
Definition handleExportKeys (type : ExportKeys) (results : list MatrixRowResult.t)
  : option (list jsstring) :=
  if bool_decide (results = []) then None
  else match keysToExport type results with
       | [] => None
       | keys => Some keys
       end.

(** The row has no result yet. *)
Definition untested (row : MatrixRowResult.t) : bool :=
  bool_decide (MatrixRowResult.results row = ∅).

(** ** Dashboard.tsx: stored data, import and export *)

Module Prompt.
Record t := { id : jsstring; title : jsstring; content : jsstring; createdAt : Z }.
End Prompt.

(** The merge of an import: [[...existing, ...incoming.filter(a =>
    !existingIds.has(a.id))]], with [existingIds] the set of the ids of
    [existing]. *)
Definition merge_new {Item : Type} (id : Item -> jsstring) (existing incoming : list Item)
  : list Item :=
  existing
  ++ List.filter (fun a => negb (bool_decide (id a ∈ id <$> existing))) incoming.

(** The data of a backup, as [getAllDataForExport] builds it; an import file
    may lack any of the three parts. *)
Module Backup.
Record t := {
  apis : option (list ApiConfig.t);
  settings : option GlobalSettings.t;
  prompts : option (list Prompt.t);
  version : Z;
  exportedAt : Z
}.
End Backup.

(** What the browser stores: the connections, the settings, and the
    prompts under [omni_prompts]. *)
Module Stored.
Record t := {
  apis : list ApiConfig.t;
  globalSettings : GlobalSettings.t;
  prompts : list Prompt.t
}.
End Stored.

Definition getAllDataForExport (w : World.t) (s : Stored.t) : Backup.t :=
  {| Backup.apis := Some (Stored.apis s);
     Backup.settings := Some (Stored.globalSettings s);
     Backup.prompts := Some (Stored.prompts s);
     Backup.version := 1;
     Backup.exportedAt := World.Date_now w 0 |}.

(** [processImportData], on data whose parts have the types of types.ts. *)
Definition processImportData (data : Backup.t) (s : Stored.t) : Stored.t :=
  {| Stored.apis :=
       match Backup.apis data with
       | Some incoming => merge_new ApiConfig.id (Stored.apis s) incoming
       | None => Stored.apis s
       end;
     Stored.globalSettings := default (Stored.globalSettings s) (Backup.settings data);
     Stored.prompts :=
       match Backup.prompts data with
       | Some incoming => merge_new Prompt.id (Stored.prompts s) incoming
       | None => Stored.prompts s
       end |}.

(** ** Dashboard.tsx, BulkTestView.tsx: selections

    A [Set] of strings is the list of its elements in the order of their
    insertion; the target models of the bulk test are an array that the same
    two operations keep free of duplicates. *)

(** [set.add(x)] *)
Definition Set_add (x : jsstring) (s : list jsstring) : list jsstring :=
  if bool_decide (x ∈ s) then s else s ++ [x].

(** [set.delete(x)], and [array.filter(m => m !== x)] *)
Definition Set_delete (x : jsstring) (s : list jsstring) : list jsstring :=
  List.filter (fun y => negb (bool_decide (y = x))) s.

(** [toggleModelSelection], [toggleKeySelection] and [toggleModel] *)
Definition toggleModelSelection (modelId : jsstring) (selected : list jsstring) : list jsstring :=
  if bool_decide (modelId ∈ selected) then Set_delete modelId selected
  else Set_add modelId selected.

(** [toggleAllVisibleModels], on the ids of the filtered models. *)
Definition toggleAllVisibleModels (filteredModels selected : list jsstring) : list jsstring :=
  let allFilteredSelected :=
    (0 <? Z.of_nat (length filteredModels))
    && forallb (fun m => bool_decide (m ∈ selected)) filteredModels in
  foldl (fun next m => if allFilteredSelected then Set_delete m next else Set_add m next)
    selected filteredModels.

(** ** LogViewer.tsx: the filter of the log list *)

Inductive StatusFilter := filter_all | filter_success | filter_error.

Module LogFilter.
Record t := { search : jsstring; status : StatusFilter; apiId : jsstring }.
End LogFilter.

(** [s.includes(sub)] *)
Fixpoint includes (s sub : jsstring) : bool :=
  startsWith s sub
  || match s with
     | [] => false
     | _ :: s' => includes s' sub
     end.

Section LogViewer.
(** [String.prototype.toLowerCase] *)
Context (toLowerCase : jsstring -> jsstring).
Context (rt : Builtins).

(** [(log.model || '').toLowerCase()]; a model that is truthy and not a
    string has no such method. *)
Definition model_lower (log : RequestLog.t) : Completion jsstring :=
  match RequestLog.model log with
  | VStr s => Normal (toLowerCase s)
  | v => if truthy v then Throw (TypeError_reading rt (js "toLowerCase"))
         else Normal (toLowerCase [])
  end.

Definition matchSearch (filter : LogFilter.t) (log : RequestLog.t) : Completion bool :=
  if includes (toLowerCase (RequestLog.url log)) (toLowerCase (LogFilter.search filter))
  then Normal true
  else match model_lower log with
       | Throw e => Throw e
       | Normal model =>
           Normal (includes model (toLowerCase (LogFilter.search filter))
                   || includes (Number_toString (RequestLog.status log))
                        (LogFilter.search filter))
       end.

Definition matchStatus (filter : LogFilter.t) (log : RequestLog.t) : bool :=
  match LogFilter.status filter with
  | filter_all => true
  | filter_success => (200 <=? RequestLog.status log) && (RequestLog.status log <? 300)
  | filter_error => (RequestLog.status log =? 0) || (400 <=? RequestLog.status log)
  end.

Definition matchApi (filter : LogFilter.t) (log : RequestLog.t) : bool :=
  bool_decide (LogFilter.apiId filter = js "all")
  || bool_decide (RequestLog.apiId log = LogFilter.apiId filter).

(** The predicate of [filteredLogs]. *)
Definition log_matches (filter : LogFilter.t) (log : RequestLog.t) : Completion bool :=
  match matchSearch filter log with
  | Throw e => Throw e
  | Normal s => Normal (s && matchStatus filter log && matchApi filter log)
  end.
End LogViewer.

(** ** AddApiView.tsx: the form of a connection *)

Module AddApiView.
Inductive Tab := tab_standard | tab_advanced | tab_curl.

(** The state of the form. *)
Record t := {
  activeTab : Tab;
  name : jsstring;
  apiKey : jsstring;
  baseUrl : jsstring;
  autoV1 : bool;
  enableChat : bool;
  enableModels : bool;
  modelsEndpoint : jsstring;
  chatEndpoint : jsstring;
  (** the rows [{ key, value }] of the two tables *)
  customHeaders : list (jsstring * jsstring);
  customParams : list (jsstring * jsstring)
}.

(** The state of a new form. *)
Definition empty : t :=
  {| activeTab := tab_standard; name := []; apiKey := []; baseUrl := []; autoV1 := true;
     enableChat := true; enableModels := true; modelsEndpoint := []; chatEndpoint := [];
     customHeaders := []; customParams := [] |}.

(** [rows.forEach(r => { if (r.key) obj[r.key] = r.value; })] on an empty
    object, for rows whose values are strings. The key [__proto__] names the
    accessor that the object inherits, and the assignment of a string to it
    does nothing. *)
Definition object_of_rows {A} (rows : list (jsstring * A)) : list (jsstring * A) :=
  foldl (fun obj row =>
           if bool_decide (row.1 = []) || bool_decide (row.1 = js "__proto__") then obj
           else obj_set row.1 row.2 obj)
    [] rows.

(** [Object.keys(obj).length ? obj : undefined] *)
Definition unless_empty {A} (obj : list (jsstring * A)) : option (list (jsstring * A)) :=
  match obj with [] => None | _ => Some obj end.

Definition is_standard (tab : Tab) : bool :=
  match tab with tab_standard => true | _ => false end.

Definition constructTempConfig (f : t) : ApiConfig.t :=
  let headersObj := object_of_rows (customHeaders f) in
  let paramsObj := object_of_rows (map (fun p => (p.1, VStr p.2)) (customParams f)) in
  {| ApiConfig.id := js "temp_test";
     ApiConfig.name := if bool_decide (name f = []) then js "Test Config" else name f;
     ApiConfig.baseUrl := if bool_decide (baseUrl f = []) then js "custom" else baseUrl f;
     ApiConfig.apiKey := apiKey f;
     ApiConfig.connectionMode := if is_standard (activeTab f) then standard else custom;
     ApiConfig.features := Some [feature_chat; feature_models];
     ApiConfig.modelsEndpoint :=
       if is_standard (activeTab f) then None else Some (modelsEndpoint f);
     ApiConfig.chatEndpoint :=
       if is_standard (activeTab f) then None else Some (chatEndpoint f);
     ApiConfig.customHeaders := unless_empty headersObj;
     ApiConfig.customParams := unless_empty paramsObj;
     ApiConfig.skipAutoCompletion := None;
     ApiConfig.autoV1 := Some (if is_standard (activeTab f) then autoV1 f else false);
     ApiConfig.createdAt := 0 |}.

(* 等待输入... *)
Definition MSG_WAITING : jsstring :=
  [0x7B49; 0x5F85; 0x8F93; 0x5165; 0x002E; 0x002E; 0x002E]%N.

(** The endpoint that the standard tab previews. *)
Definition getStandardPreview (f : t) (type : EndpointType) : jsstring :=
  if bool_decide (baseUrl f = []) then MSG_WAITING
  else
    let url := trim (baseUrl f) in
    let url := if endsWith url (js "/") then slice_0_m1 url else url in
    if negb (autoV1 f) then url
    else
      let suffix := match type with models => js "models" | chat => js "chat/completions" end in
      if endsWith url (js "/v1") then url ++ js "/" ++ suffix
      else url ++ js "/v1/" ++ suffix.

(** The effect that fills the form from the connection to edit. The rows of
    the tables are the entries of the two objects, in the order of their
    bindings; [String(v)] may throw. *)
Definition load (rt : Builtins) (initialData : ApiConfig.t) : Completion t :=
  let custom_mode :=
    match ApiConfig.connectionMode initialData with custom => true | standard => false end in
  let params :=
    foldr (fun (p : jsstring * jsval) (rest : Completion (list (jsstring * jsstring))) =>
             match ToString rt p.2, rest with
             | Normal s, Normal rows => Normal ((p.1, s) :: rows)
             | Throw e, _ => Throw e
             | _, Throw e => Throw e
             end)
      (Normal []) (default [] (ApiConfig.customParams initialData)) in
  match params with
  | Throw e => Throw e
  | Normal params =>
      Normal
        {| activeTab := if custom_mode then tab_advanced else tab_standard;
           name := ApiConfig.name initialData;
           apiKey := ApiConfig.apiKey initialData;
           baseUrl := ApiConfig.baseUrl initialData;
           autoV1 := default true (ApiConfig.autoV1 initialData);
           enableChat :=
             match ApiConfig.features initialData with
             | Some features => bool_decide (feature_chat ∈ features)
             | None => true
             end;
           enableModels :=
             match ApiConfig.features initialData with
             | Some features => bool_decide (feature_models ∈ features)
             | None => true
             end;
           modelsEndpoint :=
             if custom_mode then default [] (ApiConfig.modelsEndpoint initialData) else [];
           chatEndpoint :=
             if custom_mode then default [] (ApiConfig.chatEndpoint initialData) else [];
           customHeaders := default [] (ApiConfig.customHeaders initialData);
           customParams := params |}
  end.

(** [handleSave]: the configuration handed to [onSave]; [None] when a
    guard stops it. *)
Definition handleSave (w : World.t) (initialData : option ApiConfig.t) (f : t)
  : option ApiConfig.t :=
  if bool_decide (trim (name f) = []) then None
  else if bool_decide (trim (apiKey f) = []) then None
  else if negb (enableChat f) && negb (enableModels f) then None
  else
    let config := constructTempConfig f in
    let id :=
      match initialData with
      | Some initial =>
          if bool_decide (ApiConfig.id initial = []) then World.randomUUID w
          else ApiConfig.id initial
      | None => World.randomUUID w
      end in
    let createdAt :=
      match initialData with
      | Some initial =>
          if ApiConfig.createdAt initial =? 0 then World.Date_now w 0
          else ApiConfig.createdAt initial
      | None => World.Date_now w 0
      end in
    Some {| ApiConfig.id := id; ApiConfig.name := ApiConfig.name config;
            ApiConfig.baseUrl := ApiConfig.baseUrl config;
            ApiConfig.apiKey := ApiConfig.apiKey config;
            ApiConfig.connectionMode := ApiConfig.connectionMode config;
            ApiConfig.features := ApiConfig.features config;
            ApiConfig.modelsEndpoint := ApiConfig.modelsEndpoint config;
            ApiConfig.chatEndpoint := ApiConfig.chatEndpoint config;
            ApiConfig.customHeaders := ApiConfig.customHeaders config;
            ApiConfig.customParams := ApiConfig.customParams config;
            ApiConfig.skipAutoCompletion := ApiConfig.skipAutoCompletion config;
            ApiConfig.autoV1 := ApiConfig.autoV1 config;
            ApiConfig.createdAt := createdAt |}.
End AddApiView.

(** ** What a call adds to the audit log *)

(** The call handed its log object to [saveLog], and in a database that
    opens and does not hold the record's id yet this adds exactly that
    record, which [getLogs] then returns. *)
Definition adds_one_record {A} (o : Outcome.t A) : Prop :=
  exists log,
    Outcome.log o = Some log
    /\ (1 <= Outcome.saveLog_calls o)%nat
    /\ forall db,
        Database.opens db = true ->
        Database.rows db !! RequestLog.id log = None ->
        Database.rows (persist o db) = <[RequestLog.id log := log]> (Database.rows db)
        /\ exists limit records,
            getLogs limit 0 (persist o db) = Some records /\ log ∈ records.

(** The call never called [saveLog]: the database stays as it is. *)
Definition adds_no_record {A} (o : Outcome.t A) : Prop :=
  Outcome.saveLog_calls o = 0%nat /\ forall db, persist o db = db.

(** ** What a response tells about tool calls *)

(** The message of the first choice of a parsed response body. *)
Definition first_choice_message (data : jsval) : jsval :=
  opt_get (opt_get_0 (get data (js "choices"))) (js "message").

(** The value has a positive length: a non-empty array (or, outside the
    OpenAI schema, a non-empty string or an object whose [length] is
    positive). *)
Definition length_positive (rt : Builtins) (v : jsval) : Prop :=
  match v with
  | VArr elems => elems <> []
  | VStr s => s <> []
  | VObj _ => gt_zero rt (get v (js "length")) = true
  | _ => False
  end.

(** The message carries [tool_calls] of positive length or a truthy
    [function_call]. *)
Definition calls_tool (rt : Builtins) (message : jsval) : Prop :=
  length_positive rt (opt_get message (js "tool_calls"))
  \/ truthy (opt_get message (js "function_call")) = true.

(** ** What a streaming exchange generates *)

(** The content fragment of a line of a chunk of the event stream: the
    [choices[0].delta.content] of a [data: ] line, other than the [DONE]
    marker, whose payload parses, where that content is truthy. *)
Definition line_content (rt : Builtins) (line : jsstring) : option jsval :=
  if startsWith line (js "data: ") && negb (bool_decide (line = js "data: [DONE]")) then
    match JSON_parse rt (replace (js "data: ") [] line) with
    | Normal json =>
        if nullish json then None
        else
          let content :=
            opt_get (opt_get (opt_get_0 (get json (js "choices"))) (js "delta")) (js "content") in
          if truthy content then Some content else None
    | Throw _ => None
    end
  else None.

(** The content fragments of a body, in order: those of the lines of each
    chunk. (A line that is split over two chunks is read as two lines.) *)
Definition content_fragments (rt : Builtins) (chunks : list jsstring) : list jsval :=
  omap (line_content rt) (flat_map (split 0x0A) chunks).

(** The text that the fragments add up to, for a callback that has
    received [delivered] so far: the string of each fragment, in order; a
    fragment that the callback throws on, or that has no string, adds
    nothing. *)
Fixpoint appended_text (rt : Builtins) (onChunk : list jsval -> jsval -> Completion unit)
    (delivered fragments : list jsval) : jsstring :=
  match fragments with
  | [] => []
  | content :: rest =>
      match onChunk delivered content, ToString rt content with
      | Normal _, Normal text => text
      | _, _ => []
      end ++ appended_text rt onChunk (delivered ++ [content]) rest
  end.

(** The string of a value, or nothing when its coercion throws. *)
Definition string_or_nothing (rt : Builtins) (v : jsval) : jsstring :=
  match ToString rt v with Normal text => text | Throw _ => [] end.

(** ** What the aggregation of rounds is specified to compute *)

(** The round counts as a success of the test mode. *)
Definition round_succeeded (mode : TestMode) (r : RoundResult) : bool :=
  match mode with
  | mode_latency => bool_decide (Round.status r = st_success)
  | mode_tool => bool_decide (Round.status r = st_supported)
  end.

(** The sum of the latencies of the rounds. *)
Definition total_latency (rounds : list RoundResult) : Z :=
  foldr Z.add 0 (Round.latency <$> rounds).

(** The number of successful rounds. *)
Definition successes (mode : TestMode) (rounds : list RoundResult) : Z :=
  Z.of_nat (length (filter (fun r => round_succeeded mode r = true) rounds)).

(** [a] is the integer nearest to [total / n], the upper one of two. *)
Definition nearest_integer (a total n : Z) : Prop :=
  2 * n * a - n <= 2 * total < 2 * n * a + n.

(** The overall status of the specification. *)
Definition overall_status (mode : TestMode) (rounds : list RoundResult) : Status :=
  match mode with
  | mode_latency => if 0 <? successes mode rounds then st_success else st_error
  | mode_tool =>
      if 0 <? successes mode rounds then st_supported
      else if bool_decide (Exists (fun r => Round.status r = st_error) rounds)
           then st_error else st_unsupported
  end.

(** ** What a run of the pool is specified to do

    The run over [tasks], as far as [schedule] has taken it to [p], where
    [counted] is the runner's own count of completed tasks: every settled
    probe gave one recorded result; the tasks were handed out in the order of
    the queue, each entry once, and each has its result or is in flight; the
    run has resolved exactly when as many probes have settled as there are
    tasks, and then every task has its result. *)
Definition complete_run {Task Result Client : Type} (tasks : list Task)
    (schedule : list (nat * World.t)) (p : Pool.t Task Result Client) (counted : Z) : Prop :=
  length (Pool.results p) = length schedule
  /\ counted = Z.of_nat (length schedule)
  /\ (Pool.handed p).*2 `prefix_of` tasks
  /\ (Pool.results p).*1 ++ in_flight p ≡ₚ (Pool.handed p).*2
  /\ (resolved p = true <-> length schedule = length tasks)
  /\ (resolved p = true ->
      (Pool.handed p).*2 = tasks /\ (Pool.results p).*1 ≡ₚ tasks).

(** ** What the log of a call tells about its request *)

(** The two records agree on the fields that describe the request: all but
    [status], [latency], [responseBody] and [error]. *)
Definition same_request (a b : RequestLog.t) : Prop :=
  RequestLog.id a = RequestLog.id b
  /\ RequestLog.timestamp a = RequestLog.timestamp b
  /\ RequestLog.type a = RequestLog.type b
  /\ RequestLog.apiId a = RequestLog.apiId b
  /\ RequestLog.apiName a = RequestLog.apiName b
  /\ RequestLog.model a = RequestLog.model b
  /\ RequestLog.method a = RequestLog.method b
  /\ RequestLog.url a = RequestLog.url b
  /\ RequestLog.requestBody a = RequestLog.requestBody b.

(** The log record describes the request: the same method and URL, and the
    body sent is the JSON text of the request body recorded (none when none
    is recorded). *)
Definition log_describes (rt : Builtins) (log : RequestLog.t) (request : HttpRequest.t) : Prop :=
  HttpRequest.method request = RequestLog.method log
  /\ HttpRequest.url request = RequestLog.url log
  /\ HttpRequest.body request
     = match RequestLog.requestBody log with
       | VUndefined => None
       | body => Some (JSON_stringify rt body)
       end.

(** The call issued the one request [request], to [url] and with the
    headers of the configuration, and its log describes that request. *)
Definition issues_one_request {A} (rt : Builtins) (api : ApiConfig.t) (url : jsstring)
    (o : Outcome.t A) : Prop :=
  exists log request,
    Outcome.log o = Some log
    /\ Outcome.requests o = [request]
    /\ HttpRequest.url request = url
    /\ HttpRequest.headers request = request_headers api
    /\ log_describes rt log request.

(** The own fields of the request bodies of the two test probes, before
    the custom parameters are merged in. *)
Definition testModelLatency_fields (modelId : jsstring) (stream : bool) : list (jsstring * jsval) :=
  [(js "model", VStr modelId);
   (js "messages", VArr [VObj [(js "role", VStr (js "user")); (js "content", VStr (js "Hi"))]]);
   (js "max_tokens", VNum 1);
   (js "stream", VBool stream)].

Definition testModelToolSupport_fields (modelId : jsstring) : list (jsstring * jsval) :=
  [(js "model", VStr modelId);
   (js "messages",
    VArr [VObj [(js "role", VStr (js "user"));
                (js "content", VStr (js "What is the weather in Tokyo?"))]]);
   (js "tools", get_weather_tools);
   (js "tool_choice", VStr (js "auto"));
   (js "max_tokens", VNum 50)].
(** What a call that got past its configuration guard leaves: a log whose
    request fields are still those of [createLogEntry], and the one request
    it handed to [fetch]. *)
Definition frame_of {A} (o : Outcome.t A) (created : RequestLog.t) (request : HttpRequest.t) : Prop :=
  exists log,
    Outcome.log o = Some log
    /\ same_request log created
    /\ Outcome.requests o = [request].

(** The contents that the call handed to [onChunk], in order. *)
Definition handed_to_onChunk {A} (o : Outcome.t A) : list jsval :=
  match Outcome.final o with Some s => Probe.delivered s | None => [] end.

(** ** Sample configurations, worlds and run-time systems *)

Definition example_api (base : string) : ApiConfig.t :=
  {| ApiConfig.id := js "a1"; ApiConfig.name := js "Example"; ApiConfig.baseUrl := js base;
     ApiConfig.apiKey := js "sk-test"; ApiConfig.connectionMode := standard;
     ApiConfig.features := Some [feature_chat; feature_models];
     ApiConfig.modelsEndpoint := None; ApiConfig.chatEndpoint := None;
     ApiConfig.customHeaders := None; ApiConfig.customParams := None;
     ApiConfig.skipAutoCompletion := None; ApiConfig.autoV1 := None;
     ApiConfig.createdAt := 0 |}.

(** A custom-mode configuration with no endpoint filled in. *)
Definition unconfigured_api : ApiConfig.t :=
  {| ApiConfig.id := js "a2"; ApiConfig.name := js "Custom"; ApiConfig.baseUrl := [];
     ApiConfig.apiKey := js "sk-test"; ApiConfig.connectionMode := custom;
     ApiConfig.features := Some [feature_chat; feature_models];
     ApiConfig.modelsEndpoint := None; ApiConfig.chatEndpoint := None;
     ApiConfig.customHeaders := None; ApiConfig.customParams := None;
     ApiConfig.skipAutoCompletion := None; ApiConfig.autoV1 := None;
     ApiConfig.createdAt := 0 |}.

(** A chat-only configuration: the model list is switched off. *)
Definition chat_only_api : ApiConfig.t :=
  {| ApiConfig.id := js "a3"; ApiConfig.name := js "ChatOnly";
     ApiConfig.baseUrl := js "https://api.example.com";
     ApiConfig.apiKey := js "sk-test"; ApiConfig.connectionMode := standard;
     ApiConfig.features := Some [feature_chat];
     ApiConfig.modelsEndpoint := None; ApiConfig.chatEndpoint := None;
     ApiConfig.customHeaders := None; ApiConfig.customParams := None;
     ApiConfig.skipAutoCompletion := None; ApiConfig.autoV1 := None;
     ApiConfig.createdAt := 0 |}.

(** A run-time system for closed examples: [JSON.parse] is given by a table
    of the texts it accepts, with their values, and rejects any other text;
    serialisation and the coercions of objects, which no example depends on,
    yield placeholders. *)
Definition example_runtime (parses : list (jsstring * jsval)) : Builtins :=
  {| JSON_parse := fun text =>
       match assoc text parses with
       | Some v => Normal v
       | None => Throw {| JsError.name := js "SyntaxError";
                          JsError.message := js "Unexpected token" |}
       end;
     JSON_stringify := fun _ => js "{}";
     JSON_stringify_pretty := fun _ => js "{}";
     ToPrimitive_string := fun _ => Normal (js "[object Object]");
     TypeError_reading := fun k =>
       {| JsError.name := js "TypeError";
          JsError.message := js "Cannot read properties of null (reading '" ++ k ++ js "')" |};
     TypeError_not_a_function := fun k =>
       {| JsError.name := js "TypeError"; JsError.message := k ++ js " is not a function" |};
     ToNumber_positive := fun _ => false |}.

Definition example_world (fetched : FetchOutcome) : World.t :=
  {| World.randomUUID := js "3b241101-e2bb-4255-8caf-4136c566a962";
     World.Date_now := fun k => 1700000000000 + Z.of_nat k;
     World.performance_now := fun k => 120 * Z.of_nat k;
     World.fetched := fetched |}.

Definition response_200 (text : string) : Response.t :=
  {| Response.status := 200; Response.statusText := js "OK";
     Response.body := Some {| Body.chunks := [js text]; Body.failure := None |} |}.

Definition empty_database : Database.t :=
  {| Database.opens := true; Database.rows := ∅ |}.

(** A property name or string value in JSON text, between its quotes. *)
Definition quoted (s : string) : jsstring := [0x22%N] ++ js s ++ [0x22%N].

Definition response_of (status : Z) (statusText : string) (chunks : list jsstring) : Response.t :=
  {| Response.status := status; Response.statusText := js statusText;
     Response.body := Some {| Body.chunks := chunks; Body.failure := None |} |}.

(** A completion whose first choice calls the tool: the JSON text and the
    value it parses to. *)
Definition tool_call_reply_text : jsstring :=
  js "{" ++ quoted "choices" ++ js ":[{" ++ quoted "message" ++ js ":{"
  ++ quoted "role" ++ js ":" ++ quoted "assistant" ++ js ","
  ++ quoted "tool_calls" ++ js ":[{" ++ quoted "id" ++ js ":" ++ quoted "call_1" ++ js ","
  ++ quoted "type" ++ js ":" ++ quoted "function" ++ js "}]}}]}".

Definition tool_call_reply : jsval :=
  VObj [(js "choices",
         VArr [VObj [(js "message",
                      VObj [(js "role", VStr (js "assistant"));
                            (js "tool_calls",
                             VArr [VObj [(js "id", VStr (js "call_1"));
                                         (js "type", VStr (js "function"))]])])]])].

(** A model list with one model, as the JSON text and its value. *)
Definition models_reply_text : jsstring :=
  js "{" ++ quoted "data" ++ js ":[{" ++ quoted "id" ++ js ":" ++ quoted "gpt-4" ++ js ","
  ++ quoted "object" ++ js ":" ++ quoted "model" ++ js "," ++ quoted "created" ++ js ":0,"
  ++ quoted "owned_by" ++ js ":" ++ quoted "openai" ++ js "}]}".

Definition gpt_4_model : jsval :=
  VObj [(js "id", VStr (js "gpt-4")); (js "object", VStr (js "model"));
        (js "created", VNum 0); (js "owned_by", VStr (js "openai"))].

Definition models_reply : jsval := VObj [(js "data", VArr [gpt_4_model])].

(** A completion that answers in text only. *)
Definition text_reply_text : jsstring :=
  js "{" ++ quoted "choices" ++ js ":[{" ++ quoted "message" ++ js ":{"
  ++ quoted "role" ++ js ":" ++ quoted "assistant" ++ js ","
  ++ quoted "content" ++ js ":" ++ quoted "Sunny" ++ js "}}]}".

Definition text_reply : jsval :=
  VObj [(js "choices",
         VArr [VObj [(js "message",
                      VObj [(js "role", VStr (js "assistant"));
                            (js "content", VStr (js "Sunny"))])]])].

(** One chunk of an event stream: a content fragment, then the end mark. *)
Definition delta_text : jsstring :=
  js "{" ++ quoted "choices" ++ js ":[{" ++ quoted "delta" ++ js ":{"
  ++ quoted "content" ++ js ":" ++ quoted "Hi" ++ js "}}]}".

Definition delta_json : jsval :=
  VObj [(js "choices", VArr [VObj [(js "delta", VObj [(js "content", VStr (js "Hi"))])]])].

Definition sse_chunk : jsstring :=
  js "data: " ++ delta_text ++ [0x0A%N] ++ js "data: [DONE]" ++ [0x0A%N].

Definition streaming_request : list (jsstring * jsval) :=
  [(js "model", VStr (js "gpt-4"));
   (js "messages", VArr [VObj [(js "role", VStr (js "user")); (js "content", VStr (js "Hello"))]]);
   (js "stream", VBool true)].

(** A callback that accepts every fragment. *)
Definition accept_chunk (delivered : list jsval) (content : jsval) : Completion unit := Normal tt.

Definition failed_to_fetch : JsError.t :=
  {| JsError.name := js "TypeError"; JsError.message := js "Failed to fetch" |}.

(** Two rounds of one model: a success, then an HTTP error. *)
Definition round_ok : RoundResult :=
  LatencyRound
    {| TestResult.modelId := js "gpt-4"; TestResult.latency := 241;
       TestResult.status := st_success; TestResult.message := None;
       TestResult.timestamp := 1700000000001; TestResult.statusCode := Some 200;
       TestResult.requestBody := VUndefined; TestResult.responseBody := text_reply |}.

Definition round_failed : RoundResult :=
  LatencyRound
    {| TestResult.modelId := js "gpt-4"; TestResult.latency := 0;
       TestResult.status := st_error; TestResult.message := Some (js "HTTP 500 Internal Server Error");
       TestResult.timestamp := 1700000000002; TestResult.statusCode := Some 500;
       TestResult.requestBody := VUndefined; TestResult.responseBody := VStr (js "oops") |}.

(** A round that failed in transit, and ended at the given time. *)
Definition round_refused (timestamp : Z) : RoundResult :=
  LatencyRound
    {| TestResult.modelId := js "gpt-4"; TestResult.latency := 0;
       TestResult.status := st_error; TestResult.message := Some (js "Failed to fetch");
       TestResult.timestamp := timestamp; TestResult.statusCode := Some 0;
       TestResult.requestBody := VUndefined;
       TestResult.responseBody := VStr (js "Failed to fetch") |}.

Definition example_settings (testConcurrency testRounds : Z) : GlobalSettings.t :=
  {| GlobalSettings.testTimeout := 15; GlobalSettings.testConcurrency := testConcurrency;
     GlobalSettings.testRounds := testRounds; GlobalSettings.stream := None |}.

(** A log record for examples. *)
Definition log_at (id : string) (timestamp status latency : Z) : RequestLog.t :=
  {| RequestLog.id := js id; RequestLog.timestamp := timestamp; RequestLog.type := log_test;
     RequestLog.apiId := js "a1"; RequestLog.apiName := js "Example";
     RequestLog.model := VStr (js "gpt-4"); RequestLog.method := js "POST";
     RequestLog.url := js "https://api.example.com/v1/chat/completions";
     RequestLog.status := status; RequestLog.latency := latency;
     RequestLog.requestBody := VUndefined; RequestLog.responseBody := VUndefined;
     RequestLog.error := None |}.

(** A database of three records. *)
Definition sample_database : Database.t :=
  saveLog (log_at "c" 1700000000300 0 15)
    (saveLog (log_at "a" 1700000000100 200 120)
       (saveLog (log_at "b" 1700000000200 500 80) empty_database)).

(** A configuration with a custom header and a custom parameter. *)
Definition customised_api : ApiConfig.t :=
  {| ApiConfig.id := js "a4"; ApiConfig.name := js "Customised";
     ApiConfig.baseUrl := js "https://api.example.com";
     ApiConfig.apiKey := js "sk-test"; ApiConfig.connectionMode := standard;
     ApiConfig.features := Some [feature_chat; feature_models];
     ApiConfig.modelsEndpoint := None; ApiConfig.chatEndpoint := None;
     ApiConfig.customHeaders := Some [(js "Authorization", js "Key sk-test")];
     ApiConfig.customParams := Some [(js "max_tokens", VNum 16)];
     ApiConfig.skipAutoCompletion := None; ApiConfig.autoV1 := None;
     ApiConfig.createdAt := 0 |}.

(** The chat settings of a new session, with whole-number sampling
    parameters. *)
Definition example_chat_config (stream : bool) : ChatConfig.t :=
  {| ChatConfig.temperature := VNum 1; ChatConfig.top_p := VNum 1;
     ChatConfig.frequency_penalty := VNum 0; ChatConfig.presence_penalty := VNum 0;
     ChatConfig.max_tokens := VNum 4096; ChatConfig.seed := seed_undefined;
     ChatConfig.stream := stream; ChatConfig.enableImage := false;
     ChatConfig.imageUrl := Some [] |}.

(** Unfolding of the operations of the probe monad. *)
Ltac probe_unfold :=
  unfold run, try_catch, bind, lift, ret, throw, fetch, measure_latency, update_log,
    call_saveLog, read_log, performance_now, Date_now; simpl.

(** Closing step for the facts about the final state of a probe. *)
Ltac frame_done := try (unfold same_request; simpl; repeat split; reflexivity).

(** * Properties *)

(** ** The endpoint resolver *)

Example getEndpoint_default_chat :
  getEndpoint (example_api "https://api.example.com") chat
  = js "https://api.example.com/v1/chat/completions".
Proof. vm_compute. reflexivity. Qed.

Example getEndpoint_autoV1_off :
  getEndpoint
    {| ApiConfig.id := js "a1"; ApiConfig.name := js "Example";
       ApiConfig.baseUrl := js "https://api.example.com/";
       ApiConfig.apiKey := js "sk-test"; ApiConfig.connectionMode := standard;
       ApiConfig.features := None; ApiConfig.modelsEndpoint := None;
       ApiConfig.chatEndpoint := None; ApiConfig.customHeaders := None;
       ApiConfig.customParams := None; ApiConfig.skipAutoCompletion := None;
       ApiConfig.autoV1 := Some false; ApiConfig.createdAt := 0 |} chat
  = js "https://api.example.com".
Proof. vm_compute. reflexivity. Qed.

Example getEndpoint_v1_not_duplicated :
  getEndpoint (example_api "https://api.example.com/v1/") models
  = js "https://api.example.com/v1/models".
Proof. vm_compute. reflexivity. Qed.

Lemma kind_path_split type :
  kind_path type
  = js "/" ++ match type with models => js "models" | chat => js "chat/completions" end.
Proof. destruct type; reflexivity. Qed.

Lemma getEndpoint_on_trimmed_base (api : ApiConfig.t) (type : EndpointType) :
  getEndpoint api type = resolve_on_base (trim (ApiConfig.baseUrl api)) api type.
Proof.
  unfold getEndpoint, resolve_on_base, trim_trailing_slash.
  destruct (ApiConfig.connectionMode api); [|reflexivity].
  destruct (ApiConfig.skipAutoCompletion api) as [[|]|]; simpl.
  - rewrite kind_path_split. reflexivity.
  - destruct (ApiConfig.autoV1 api) as [[|]|]; simpl; try reflexivity;
      destruct (endsWith _ (js "/v1")); rewrite kind_path_split;
      rewrite <- ?app_assoc; reflexivity.
  - destruct (ApiConfig.autoV1 api) as [[|]|]; simpl; try reflexivity;
      destruct (endsWith _ (js "/v1")); rewrite kind_path_split;
      rewrite <- ?app_assoc; reflexivity.
Qed.

(** On a base URL without surrounding white space the resolver is the
    specification's. *)
Corollary getEndpoint_resolve_spec (api : ApiConfig.t) (type : EndpointType) :
  trim (ApiConfig.baseUrl api) = ApiConfig.baseUrl api ->
  getEndpoint api type = resolve_spec api type.
Proof.
  intros Hclean. rewrite getEndpoint_on_trimmed_base, Hclean. reflexivity.
Qed.

(** C1, as amended: the resolver is the specified case analysis applied to
    the base URL with its surrounding white space removed first. Custom mode
    returns the stored endpoint of the kind verbatim (the empty string when
    unset); in standard mode, on the base with white space and then one
    trailing slash removed: the legacy flag appends the kind's path without
    [/v1]; else [autoV1 = false] returns the base itself; else the path is
    appended after [/v1], which is inserted unless the base already ends
    with it. *)
Theorem getEndpoint_resolves_trimmed_base (api : ApiConfig.t) (type : EndpointType) :
  getEndpoint api type = resolve_on_base (trim (ApiConfig.baseUrl api)) api type
  /\ (ApiConfig.connectionMode api = custom ->
      getEndpoint api type
      = match type with
        | models => default [] (ApiConfig.modelsEndpoint api)
        | chat => default [] (ApiConfig.chatEndpoint api)
        end).
Proof.
  split; [apply getEndpoint_on_trimmed_base|].
  intros Hcustom. unfold getEndpoint. rewrite Hcustom. reflexivity.
Qed.

Lemma getEndpoint_resolves_trimmed_base_witness :
  getEndpoint unconfigured_api chat = [].
Proof.
  destruct (getEndpoint_resolves_trimmed_base unconfigured_api chat) as [_ Hcustom].
  rewrite Hcustom; reflexivity.
Defined.

(** C1, counterexample: a base URL stored with a leading blank. The resolver
    drops the blank; the claim's rule, which only removes a trailing slash,
    keeps it. *)
Lemma getEndpoint_not_resolve_spec :
  getEndpoint (example_api " https://api.example.com") chat
    = js "https://api.example.com/v1/chat/completions"
  /\ resolve_spec (example_api " https://api.example.com") chat
    = js " https://api.example.com/v1/chat/completions"
  /\ getEndpoint (example_api " https://api.example.com") chat
    <> resolve_spec (example_api " https://api.example.com") chat.
Proof. split; [|split]; vm_compute; [reflexivity | reflexivity | discriminate]. Qed.

(** ** The probe executor: guards and deadlines *)

(** C10: with a features list that lacks [models], [fetchModels] returns the
    empty list at once, whatever the world and the endpoint fields are: no
    request is issued, no log object is created and [saveLog] is not called,
    so the database stays as it is. *)
Theorem fetchModels_feature_off (rt : Builtins) (w : World.t) (api : ApiConfig.t)
    (features : list Feature) :
  ApiConfig.features api = Some features ->
  feature_models ∉ features ->
  fetchModels rt w api = immediately (Normal [])
  /\ Outcome.completion (fetchModels rt w api) = Normal []
  /\ Outcome.requests (fetchModels rt w api) = []
  /\ Outcome.saveLog_calls (fetchModels rt w api) = 0%nat
  /\ Outcome.log (fetchModels rt w api) = None
  /\ forall db, persist (fetchModels rt w api) db = db.
Proof.
  intros Hfeatures Hnot.
  assert (Heq : fetchModels rt w api = immediately (Normal [])).
  { unfold fetchModels, models_disabled. rewrite Hfeatures.
    rewrite bool_decide_eq_false_2 by assumption. reflexivity. }
  rewrite Heq. repeat split.
Qed.

Lemma fetchModels_feature_off_witness :
  fetchModels (example_runtime []) (example_world (FetchFailure (Error (js "Failed to fetch"))))
    chat_only_api = immediately (Normal [])
  /\ Outcome.requests
       (fetchModels (example_runtime [])
          (example_world (FetchFailure (Error (js "Failed to fetch")))) chat_only_api) = [].
Proof.
  pose proof (fetchModels_feature_off (example_runtime [])
                (example_world (FetchFailure (Error (js "Failed to fetch"))))
                chat_only_api [feature_chat] eq_refl) as H.
  destruct H as (H1 & _ & H3 & _).
  - intros Hin. apply list_elem_of_In in Hin. simpl in Hin. intuition discriminate.
  - split; assumption.
Defined.

(** C7: [fetchModels] issues its request with a deadline of 10 seconds and
    [testModelLatency] with one of [timeoutSeconds]; when the timer of the
    deadline aborts the request in flight, [fetchModels] throws its own
    time-out message, and [testModelLatency] returns status [error], latency
    0, status code 0 and the message that the request timed out after
    [timeoutSeconds] seconds; neither depends on the text of the abort
    itself. *)
Theorem deadline_abort_is_reported_as_timeout (rt : Builtins) (w : World.t) (api : ApiConfig.t)
    (modelId : jsstring) (timeoutSeconds : Z) (stream : bool) (abort_text : jsstring) :
  World.fetched w = FetchAborted abort_text ->
  (models_disabled api = false -> getEndpoint api models <> [] ->
   Outcome.completion (fetchModels rt w api) = Throw (Error MSG_FETCH_TIMEOUT)
   /\ HttpRequest.deadline <$> Outcome.requests (fetchModels rt w api) = [Some 10000])
  /\ (getEndpoint api chat <> [] ->
      (exists r,
          Outcome.completion (testModelLatency rt w api modelId timeoutSeconds stream) = Normal r
          /\ TestResult.status r = st_error
          /\ TestResult.latency r = 0
          /\ TestResult.statusCode r = Some 0
          /\ TestResult.message r
             = Some (MSG_TIMEOUT_PREFIX ++ Number_toString timeoutSeconds ++ js "s)"))
      /\ HttpRequest.deadline <$>
           Outcome.requests (testModelLatency rt w api modelId timeoutSeconds stream)
         = [Some (timeoutSeconds * 1000)]).
Proof.
  intros Hfetch. split.
  - intros Hon Hurl. unfold fetchModels. rewrite Hon.
    rewrite bool_decide_eq_false_2 by assumption.
    unfold Outcome.requests. probe_unfold. rewrite Hfetch. split; reflexivity.
  - intros Hurl. unfold testModelLatency.
    rewrite bool_decide_eq_false_2 by assumption.
    unfold Outcome.requests. probe_unfold. rewrite Hfetch. simpl.
    split; [|reflexivity].
    eexists. split; [reflexivity|]. simpl. repeat split.
Qed.

Lemma deadline_abort_is_reported_as_timeout_witness :
  Outcome.completion
    (fetchModels (example_runtime [])
       (example_world (FetchAborted (js "The user aborted a request.")))
       (example_api "https://api.openai.com"))
  = Throw (Error MSG_FETCH_TIMEOUT)
  /\ exists r,
      Outcome.completion
        (testModelLatency (example_runtime [])
           (example_world (FetchAborted (js "The user aborted a request.")))
           (example_api "https://api.openai.com") (js "gpt-4") 1 false) = Normal r
      /\ TestResult.status r = st_error
      /\ TestResult.latency r = 0
      /\ TestResult.statusCode r = Some 0
      /\ TestResult.message r = Some (MSG_TIMEOUT_PREFIX ++ js "1s)").
Proof.
  destruct (deadline_abort_is_reported_as_timeout (example_runtime [])
              (example_world (FetchAborted (js "The user aborted a request.")))
              (example_api "https://api.openai.com") (js "gpt-4") 1 false
              (js "The user aborted a request.") eq_refl) as [Hmodels Hlatency].
  split.
  - apply Hmodels; [reflexivity | vm_compute; discriminate].
  - apply Hlatency. vm_compute. discriminate.
Defined.

(** A failure in transit that is not an abort is reported as itself. *)
Lemma network_failure_is_not_timeout (rt : Builtins) (w : World.t) (api : ApiConfig.t)
    (modelId : jsstring) (timeoutSeconds : Z) (stream : bool) (e : JsError.t) :
  World.fetched w = FetchFailure e ->
  JsError.name e <> js "AbortError" ->
  (models_disabled api = false -> getEndpoint api models <> [] ->
   Outcome.completion (fetchModels rt w api) = Throw e)
  /\ (getEndpoint api chat <> [] ->
      exists r, Outcome.completion (testModelLatency rt w api modelId timeoutSeconds stream) = Normal r
                /\ TestResult.message r
                   = Some (if bool_decide (JsError.message e = [])
                           then MSG_NETWORK_ERROR else JsError.message e)).
Proof.
  intros Hfetch Hname. split.
  - intros Hon Hurl. unfold fetchModels. rewrite Hon.
    rewrite bool_decide_eq_false_2 by assumption.
    probe_unfold. rewrite Hfetch. simpl.
    rewrite bool_decide_eq_false_2 by assumption. reflexivity.
  - intros Hurl. unfold testModelLatency.
    rewrite bool_decide_eq_false_2 by assumption.
    probe_unfold. rewrite Hfetch. simpl.
    eexists. split; [reflexivity|]. simpl.
    rewrite (bool_decide_eq_false_2 (JsError.name e = js "AbortError")) by assumption.
    reflexivity.
Qed.

(** The end-to-end scenario of the specification: a 200 response with one
    model returns that model and leaves one record, with status 200. *)
Example fetchModels_lists_models :
  Outcome.completion
    (fetchModels (example_runtime [(models_reply_text, models_reply)])
       (example_world (FetchResponse (response_of 200 "OK" [models_reply_text])))
       (example_api "https://api.openai.com"))
  = Normal [gpt_4_model]
  /\ Outcome.saveLog_calls
       (fetchModels (example_runtime [(models_reply_text, models_reply)])
          (example_world (FetchResponse (response_of 200 "OK" [models_reply_text])))
          (example_api "https://api.openai.com")) = 1%nat
  /\ (RequestLog.status <$>
        Outcome.log
          (fetchModels (example_runtime [(models_reply_text, models_reply)])
             (example_world (FetchResponse (response_of 200 "OK" [models_reply_text])))
             (example_api "https://api.openai.com"))) = Some 200.
Proof. split; [|split]; vm_compute; reflexivity. Qed.

(** ** The probe executor: which failures are returned, which are thrown *)

Lemma testModelLatency_returns rt w api modelId timeoutSeconds stream :
  exists r,
    Outcome.completion (testModelLatency rt w api modelId timeoutSeconds stream) = Normal r
    /\ ((TestResult.status r = st_success
         /\ exists response,
             World.fetched w = FetchResponse response
             /\ Response.ok response = true
             /\ (if stream then exists text, drain response = Normal text
                 else Response_json rt response = Normal (TestResult.responseBody r)))
        \/ TestResult.status r = st_error).
Proof.
  unfold testModelLatency. case_bool_decide as Hurl.
  { eexists. split; [reflexivity|]. right. reflexivity. }
  probe_unfold.
  destruct (World.fetched w) as [response | e | text] eqn:Hfetch; simpl.
  - destruct (Response.ok response) eqn:Hok; simpl.
    + destruct stream; simpl.
      * unfold drain. destruct (Response_text response) eqn:Hread; simpl.
        -- eexists. split; [reflexivity|]. left. simpl. split; [reflexivity|].
           exists response. repeat split; eauto.
        -- eexists. split; [reflexivity|]. right. reflexivity.
      * destruct (Response_json rt response) eqn:Hread; simpl.
        -- eexists. split; [reflexivity|]. left. simpl. split; [reflexivity|].
           exists response. repeat split; eauto.
        -- eexists. split; [reflexivity|]. right. reflexivity.
    + destruct (Response_text response) eqn:Hread; simpl;
        (eexists; split; [reflexivity|]; right; reflexivity).
  - eexists. split; [reflexivity|]. right. reflexivity.
  - eexists. split; [reflexivity|]. right. reflexivity.
Qed.

Lemma testModelToolSupport_returns rt w api modelId timeoutSeconds :
  exists r,
    Outcome.completion (testModelToolSupport rt w api modelId timeoutSeconds) = Normal r
    /\ (((ToolTestResult.status r = st_supported \/ ToolTestResult.status r = st_unsupported)
         /\ exists response,
             World.fetched w = FetchResponse response
             /\ Response.ok response = true
             /\ Response_json rt response = Normal (ToolTestResult.responseBody r)
             /\ nullish (ToolTestResult.responseBody r) = false)
        \/ ToolTestResult.status r = st_error).
Proof.
  unfold testModelToolSupport. case_bool_decide as Hurl.
  { eexists. split; [reflexivity|]. right. reflexivity. }
  probe_unfold.
  destruct (World.fetched w) as [response | e | text] eqn:Hfetch; simpl.
  - destruct (Response.ok response) eqn:Hok; simpl.
    + destruct (Response_json rt response) as [data|e] eqn:Hread; simpl.
      * unfold get_strict. destruct (nullish data) eqn:Hnull; simpl.
        -- eexists. split; [reflexivity|]. right. reflexivity.
        -- eexists. split; [reflexivity|]. left. simpl. split.
           ++ destruct (hasToolCalls rt _); auto.
           ++ exists response. auto.
      * eexists. split; [reflexivity|]. right. reflexivity.
    + destruct (Response_text response) eqn:Hread; simpl;
        (eexists; split; [reflexivity|]; right; reflexivity).
  - eexists. split; [reflexivity|]. right. reflexivity.
  - eexists. split; [reflexivity|]. right. reflexivity.
Qed.










(** ** The audit log *)

Lemma saveLog_fresh log db :
  Database.opens db = true ->
  Database.rows db !! RequestLog.id log = None ->
  saveLog log db
  = {| Database.opens := true; Database.rows := <[RequestLog.id log := log]> (Database.rows db) |}.
Proof.
  intros Hopen Hfresh. unfold saveLog, store_add. rewrite Hopen, Hfresh. reflexivity.
Qed.

Lemma saveLog_duplicate log db :
  is_Some (Database.rows db !! RequestLog.id log) -> saveLog log db = db.
Proof.
  intros [old Hold]. unfold saveLog, store_add. rewrite Hold.
  destruct (Database.opens db); reflexivity.
Qed.

(** However often the same log object is saved, one record is added. *)
Lemma saveLog_repeated log db n :
  Database.opens db = true ->
  Database.rows db !! RequestLog.id log = None ->
  Nat.iter (S n) (saveLog log) db
  = {| Database.opens := true; Database.rows := <[RequestLog.id log := log]> (Database.rows db) |}.
Proof.
  intros Hopen Hfresh. induction n as [|n IH].
  - simpl. apply saveLog_fresh; assumption.
  - change (Nat.iter (S (S n)) (saveLog log) db)
      with (saveLog log (Nat.iter (S n) (saveLog log) db)).
    rewrite IH. apply saveLog_duplicate. simpl. rewrite lookup_insert_eq. eauto.
Qed.

Lemma getLogs_retrieves log db :
  Database.opens db = true ->
  Database.rows db !! RequestLog.id log = Some log ->
  exists limit records, getLogs limit 0 db = Some records /\ log ∈ records.
Proof.
  intros Hopen Hrow.
  exists (Z.of_nat (size (Database.rows db))).
  eexists. unfold getLogs. rewrite Hopen. split; [reflexivity|].
  change (Z.to_nat 0) with 0%nat. rewrite drop_0, take_ge.
  - rewrite merge_sort_Permutation. apply list_elem_of_fmap.
    exists (RequestLog.id log, log). split; [reflexivity|].
    apply elem_of_map_to_list. assumption.
  - rewrite (Permutation_length (merge_sort_Permutation cursor_prev _)).
    rewrite length_fmap, length_map_to_list. lia.
Qed.

Lemma persist_adds_one {A} (o : Outcome.t A) log :
  Outcome.log o = Some log ->
  (1 <= Outcome.saveLog_calls o)%nat ->
  adds_one_record o.
Proof.
  intros Hlog Hcalls. exists log. split; [assumption|]. split; [assumption|].
  intros db Hopen Hfresh.
  unfold Outcome.log, Outcome.saveLog_calls, persist in *.
  destruct (Outcome.final o) as [s|]; [|discriminate].
  injection Hlog as <-.
  destruct (Probe.saveLog_calls s) as [|n]; [lia|].
  rewrite saveLog_repeated by assumption. simpl. split; [reflexivity|].
  apply (getLogs_retrieves (Probe.log s)
           {| Database.opens := true;
              Database.rows := <[RequestLog.id (Probe.log s) := Probe.log s]> (Database.rows db) |}).
  - reflexivity.
  - simpl. apply lookup_insert_eq.
Qed.

Lemma immediately_adds_no_record {A} (c : Completion A) : adds_no_record (immediately c).
Proof. split; [reflexivity | intros db; reflexivity]. Qed.

Lemma testModelLatency_saves_once rt w api modelId timeoutSeconds stream :
  getEndpoint api chat <> [] ->
  Outcome.saveLog_calls (testModelLatency rt w api modelId timeoutSeconds stream) = 1%nat
  /\ exists log, Outcome.log (testModelLatency rt w api modelId timeoutSeconds stream) = Some log.
Proof.
  intros Hurl. unfold testModelLatency. rewrite bool_decide_eq_false_2 by assumption.
  unfold Outcome.saveLog_calls, Outcome.log. simpl. split; [|eauto].
  probe_unfold.
  destruct (World.fetched w) as [response | e | text]; simpl; try reflexivity.
  destruct (Response.ok response); simpl.
  - destruct stream; simpl.
    + unfold drain. destruct (Response_text response); reflexivity.
    + destruct (Response_json rt response); reflexivity.
  - destruct (Response_text response); reflexivity.
Qed.

Lemma testModelToolSupport_saves rt w api modelId timeoutSeconds :
  getEndpoint api chat <> [] ->
  (1 <= Outcome.saveLog_calls (testModelToolSupport rt w api modelId timeoutSeconds) <= 2)%nat
  /\ exists log, Outcome.log (testModelToolSupport rt w api modelId timeoutSeconds) = Some log.
Proof.
  intros Hurl. unfold testModelToolSupport. rewrite bool_decide_eq_false_2 by assumption.
  unfold Outcome.saveLog_calls, Outcome.log. simpl. split; [|eauto].
  probe_unfold.
  destruct (World.fetched w) as [response | e | text]; simpl; try lia.
  destruct (Response.ok response); simpl.
  - destruct (Response_json rt response) as [data|e]; simpl; [|lia].
    unfold get_strict. destruct (nullish data); simpl; lia.
  - destruct (Response_text response); simpl; lia.
Qed.

Lemma fetchModels_saves rt w api :
  models_disabled api = false ->
  getEndpoint api models <> [] ->
  (1 <= Outcome.saveLog_calls (fetchModels rt w api) <= 2)%nat
  /\ exists log, Outcome.log (fetchModels rt w api) = Some log.
Proof.
  intros Hon Hurl. unfold fetchModels. rewrite Hon.
  rewrite bool_decide_eq_false_2 by assumption.
  unfold Outcome.saveLog_calls, Outcome.log. simpl. split; [|eauto].
  probe_unfold.
  destruct (World.fetched w) as [response | e | text]; simpl.
  - destruct (Response.ok response); simpl.
    + destruct (Response_json rt response) as [data|e]; simpl.
      * destruct data; simpl; try lia; try (case_bool_decide; simpl; lia).
        match goal with |- context [default VUndefined ?o] => destruct o as [[]|] end;
          simpl; lia.
      * case_bool_decide; simpl; lia.
    + destruct (Response_text response); simpl; try case_bool_decide; simpl; lia.
  - case_bool_decide; simpl; lia.
  - lia.
Qed.

Lemma sendChatMessage_saves rt w api requestBody onChunk :
  getEndpoint api chat <> [] ->
  (1 <= Outcome.saveLog_calls (sendChatMessage rt w api requestBody onChunk))%nat
  /\ exists log, Outcome.log (sendChatMessage rt w api requestBody onChunk) = Some log.
Proof.
  intros Hurl. unfold sendChatMessage. rewrite bool_decide_eq_false_2 by assumption.
  unfold Outcome.saveLog_calls, Outcome.log. simpl. split; [|eauto].
  unfold run, try_catch, bind at 1, fetch. simpl.
  destruct (World.fetched w) as [response | e | text]; simpl; try lia.
  unfold bind at 1, update_log. simpl.
  destruct (Response.ok response); simpl.
  - destruct (truthy _); simpl.
    + destruct (Response.body response) as [body|]; simpl; [|lia].
      unfold bind at 1.
      destruct (read_stream _ _ _ _ _ _ _) as [[read|e] s']; simpl; lia.
    + unfold bind at 1, lift.
      destruct (Response_json rt response) as [data|e]; simpl; [|lia].
      unfold get_strict. destruct (nullish data); simpl; [lia|].
      probe_unfold. unfold deliver. simpl.
      match goal with |- context [onChunk ?a ?b] => destruct (onChunk a b) end; simpl; lia.
  - unfold bind at 1, lift. destruct (Response_text response); simpl; lia.
Qed.

(** C2, as amended: a call that its configuration guard stops (the model
    list switched off, or no endpoint for the kind) never calls [saveLog] and
    leaves the database as it is; every other call of the four operations
    hands its log object to [saveLog] before it returns or throws, which adds
    exactly one record to a database that opens and does not hold the
    record's id yet, and [getLogs] returns that record. *)
Theorem probes_add_one_log_record (rt : Builtins) (w : World.t) (api : ApiConfig.t)
    (modelId : jsstring) (timeoutSeconds : Z) (stream : bool)
    (requestBody : list (jsstring * jsval))
    (onChunk : list jsval -> jsval -> Completion unit) :
  (if models_disabled api || bool_decide (getEndpoint api models = [])
   then adds_no_record (fetchModels rt w api)
   else adds_one_record (fetchModels rt w api))
  /\ (if bool_decide (getEndpoint api chat = [])
      then adds_no_record (testModelLatency rt w api modelId timeoutSeconds stream)
           /\ adds_no_record (testModelToolSupport rt w api modelId timeoutSeconds)
           /\ adds_no_record (sendChatMessage rt w api requestBody onChunk)
      else adds_one_record (testModelLatency rt w api modelId timeoutSeconds stream)
           /\ adds_one_record (testModelToolSupport rt w api modelId timeoutSeconds)
           /\ adds_one_record (sendChatMessage rt w api requestBody onChunk)).
Proof.
  split.
  - destruct (models_disabled api) eqn:Hon; simpl.
    + unfold fetchModels. rewrite Hon. apply immediately_adds_no_record.
    + case_bool_decide as Hurl.
      * unfold fetchModels. rewrite Hon, bool_decide_eq_true_2 by assumption.
        apply immediately_adds_no_record.
      * destruct (fetchModels_saves rt w api Hon Hurl) as [[Hcalls _] [log Hlog]].
        eapply persist_adds_one; eassumption.
  - case_bool_decide as Hurl.
    + unfold testModelLatency, testModelToolSupport, sendChatMessage.
      rewrite !bool_decide_eq_true_2 by assumption.
      repeat split; apply immediately_adds_no_record.
    + split; [|split].
      * destruct (testModelLatency_saves_once rt w api modelId timeoutSeconds stream Hurl)
          as [Hcalls [log Hlog]].
        eapply persist_adds_one; [eassumption | lia].
      * destruct (testModelToolSupport_saves rt w api modelId timeoutSeconds Hurl)
          as [[Hcalls _] [log Hlog]].
        eapply persist_adds_one; eassumption.
      * destruct (sendChatMessage_saves rt w api requestBody onChunk Hurl)
          as [Hcalls [log Hlog]].
        eapply persist_adds_one; eassumption.
Qed.

(** C2, counterexample: a latency probe on a configuration without a chat
    endpoint fails with the configuration error, and the log holds no new
    record afterwards. *)
Lemma unconfigured_probe_adds_no_record :
  (exists r,
      Outcome.completion
        (testModelLatency (example_runtime [])
           (example_world (FetchFailure (Error (js "Failed to fetch"))))
           unconfigured_api (js "gpt-4") 15 false) = Normal r
      /\ TestResult.status r = st_error
      /\ TestResult.message r = Some MSG_NO_CHAT_ENDPOINT)
  /\ Outcome.saveLog_calls
       (testModelLatency (example_runtime [])
          (example_world (FetchFailure (Error (js "Failed to fetch"))))
          unconfigured_api (js "gpt-4") 15 false) = 0%nat
  /\ getLogs 1000 0
       (persist
          (testModelLatency (example_runtime [])
             (example_world (FetchFailure (Error (js "Failed to fetch"))))
             unconfigured_api (js "gpt-4") 15 false)
          empty_database) = Some [].
Proof.
  split; [|split].
  - eexists. split; [reflexivity|]. split; reflexivity.
  - reflexivity.
  - reflexivity.
Qed.

(** C2, an instance: a latency probe that times out leaves exactly one
    record in an empty database. *)
Lemma probes_add_one_log_record_witness :
  exists log,
    Database.rows
      (persist
         (testModelLatency (example_runtime [])
            (example_world (FetchAborted (js "The user aborted a request.")))
            (example_api "https://api.openai.com") (js "gpt-4") 1 false)
         empty_database)
    = <[RequestLog.id log := log]> ∅
    /\ RequestLog.error log = Some (js "The user aborted a request.").
Proof.
  destruct (probes_add_one_log_record (example_runtime [])
              (example_world (FetchAborted (js "The user aborted a request.")))
              (example_api "https://api.openai.com") (js "gpt-4") 1 false
              streaming_request accept_chunk) as [_ Hchat].
  rewrite bool_decide_eq_false_2 in Hchat by (vm_compute; discriminate).
  destruct Hchat as [(log & Hlog & _ & Hdb) _].
  exists log. split.
  - apply (Hdb empty_database); [reflexivity | apply lookup_empty].
  - vm_compute in Hlog. injection Hlog as <-. reflexivity.
Defined.

(** ** Function-calling support *)

Lemma gt_zero_length rt (v : jsval) :
  gt_zero rt (opt_get v (js "length")) = true <-> length_positive rt v.
Proof.
  destruct v as [| |b|n|s|elems|fields]; simpl; try (split; [discriminate | tauto]).
  - destruct s; simpl; split; (discriminate || congruence || tauto || auto).
  - destruct elems; simpl; split; (discriminate || congruence || tauto || auto).
  - reflexivity.
Qed.

Lemma hasToolCalls_calls_tool rt (choice : jsval) :
  hasToolCalls rt choice = true <-> calls_tool rt (opt_get choice (js "message")).
Proof.
  unfold hasToolCalls, calls_tool. rewrite orb_true_iff, gt_zero_length. reflexivity.
Qed.

Lemma hasToolCalls_false rt (choice : jsval) :
  hasToolCalls rt choice = false <-> ~ calls_tool rt (opt_get choice (js "message")).
Proof.
  rewrite <- hasToolCalls_calls_tool. destruct (hasToolCalls rt choice); split; congruence.
Qed.

(** C6, as amended: [testModelToolSupport] classifies [supported] only on a
    2xx response whose JSON body's first choice carries tool calls (a
    [tool_calls] of positive length, for an array a non-empty one, or a
    truthy legacy [function_call]); a 2xx response whose body parses to a
    value other than [null] is [supported] or [unsupported] by that test;
    a non-2xx response, a failed or aborted request, and a 2xx response
    whose body cannot be read or parsed, or is [null], are [error]. *)
Theorem tool_support_classification (rt : Builtins) (w : World.t) (api : ApiConfig.t)
    (modelId : jsstring) (timeoutSeconds : Z) :
  getEndpoint api chat <> [] ->
  exists r,
    Outcome.completion (testModelToolSupport rt w api modelId timeoutSeconds) = Normal r
    /\ (ToolTestResult.status r = st_supported ->
        exists response data,
          World.fetched w = FetchResponse response
          /\ Response.ok response = true
          /\ Response_json rt response = Normal data
          /\ calls_tool rt (first_choice_message data))
    /\ (forall response data,
          World.fetched w = FetchResponse response ->
          Response.ok response = true ->
          Response_json rt response = Normal data ->
          nullish data = false ->
          (calls_tool rt (first_choice_message data)
           /\ ToolTestResult.status r = st_supported)
          \/ (~ calls_tool rt (first_choice_message data)
              /\ ToolTestResult.status r = st_unsupported))
    /\ (forall response,
          World.fetched w = FetchResponse response ->
          Response.ok response = false ->
          ToolTestResult.status r = st_error)
    /\ ((forall response, World.fetched w <> FetchResponse response) ->
        ToolTestResult.status r = st_error)
    /\ (forall response,
          World.fetched w = FetchResponse response ->
          Response.ok response = true ->
          (exists e, Response_json rt response = Throw e)
          \/ Response_json rt response = Normal VNull ->
          ToolTestResult.status r = st_error).
Proof.
  intros Hurl. unfold testModelToolSupport.
  rewrite bool_decide_eq_false_2 by assumption.
  probe_unfold.
  destruct (World.fetched w) as [response | e | text] eqn:Hfetch; simpl.
  - destruct (Response.ok response) eqn:Hok; simpl.
    + destruct (Response_json rt response) as [data|e] eqn:Hread; simpl.
      * unfold get_strict. destruct (nullish data) eqn:Hnull; simpl.
        -- eexists. split; [reflexivity|]. simpl.
           split; [discriminate|]. split; [|split; [|split]]; try reflexivity.
           intros response' data' Hf' Hok' Hj' Hn'. simplify_eq; congruence.
        -- eexists. split; [reflexivity|]. simpl.
           fold (first_choice_message data).
           destruct (hasToolCalls rt (opt_get_0 (get data (js "choices")))) eqn:Hcalls.
           ++ apply hasToolCalls_calls_tool in Hcalls.
              split; [intros _; exists response, data; auto|].
              split; [intros response' data' Hf' Hok' Hj' Hn'; simplify_eq;
                     replace data' with data by congruence; left; auto|].
              split; [intros response' Hf' Hok'; simplify_eq; congruence|].
              split; [intros Hno; destruct (Hno response); reflexivity|].
              intros response' Hf' Hok' [[e He]|Hn]; simplify_eq; [congruence|].
              replace data with VNull in Hnull by congruence. discriminate.
           ++ apply hasToolCalls_false in Hcalls.
              split; [discriminate|].
              split; [intros response' data' Hf' Hok' Hj' Hn'; simplify_eq;
                     replace data' with data by congruence; right; auto|].
              split; [intros response' Hf' Hok'; simplify_eq; congruence|].
              split; [intros Hno; destruct (Hno response); reflexivity|].
              intros response' Hf' Hok' [[e He]|Hn]; simplify_eq; [congruence|].
              replace data with VNull in Hnull by congruence. discriminate.
      * eexists. split; [reflexivity|]. simpl.
        split; [discriminate|]. split; [|split; [|split]]; try reflexivity.
        intros response' data' Hf' Hok' Hj' Hn'. simplify_eq; congruence.
    + destruct (Response_text response) eqn:Hread; simpl;
        (eexists; split; [reflexivity|]; simpl;
         split; [discriminate|]; split; [|split; [|split]]; try reflexivity;
         intros response' data' Hf' Hok' Hj' Hn'; simplify_eq; congruence).
  - eexists. split; [reflexivity|]. simpl.
    split; [discriminate|]. split; [|split; [|split]]; try reflexivity.
    intros response' data' Hf'. simplify_eq.
  - eexists. split; [reflexivity|]. simpl.
    split; [discriminate|]. split; [|split; [|split]]; try reflexivity.
    intros response' data' Hf'. simplify_eq.
Qed.

(** C6, counterexample: a 2xx response whose body is an HTML page, with no
    tool call and no function call in it, is classified [error], not
    [unsupported]. *)
Lemma html_page_is_classified_error :
  exists r,
    Outcome.completion
      (testModelToolSupport (example_runtime [])
         (example_world (FetchResponse (response_200 "<html>It works!</html>")))
         (example_api "https://api.example.com") (js "gpt-4") 20) = Normal r
    /\ ToolTestResult.status r = st_error
    /\ ToolTestResult.status r <> st_unsupported.
Proof.
  eexists. split; [vm_compute; reflexivity|].
  split; [reflexivity | discriminate].
Qed.

Lemma tool_support_classification_witness :
  (exists r,
      Outcome.completion
        (testModelToolSupport (example_runtime [(tool_call_reply_text, tool_call_reply)])
           (example_world (FetchResponse (response_of 200 "OK" [tool_call_reply_text])))
           (example_api "https://api.example.com") (js "gpt-4") 20) = Normal r
      /\ ToolTestResult.status r = st_supported)
  /\ exists r,
      Outcome.completion
        (testModelToolSupport (example_runtime [(text_reply_text, text_reply)])
           (example_world (FetchResponse (response_of 200 "OK" [text_reply_text])))
           (example_api "https://api.example.com") (js "gpt-4") 20) = Normal r
      /\ ToolTestResult.status r = st_unsupported.
Proof.
  split.
  - destruct (tool_support_classification
                (example_runtime [(tool_call_reply_text, tool_call_reply)])
                (example_world (FetchResponse (response_of 200 "OK" [tool_call_reply_text])))
                (example_api "https://api.example.com") (js "gpt-4") 20)
      as (r & Hr & _ & Hjson & _).
    + vm_compute. discriminate.
    + exists r. split; [exact Hr|].
      destruct (Hjson (response_of 200 "OK" [tool_call_reply_text]) tool_call_reply
                  eq_refl eq_refl eq_refl eq_refl) as [[_ Hs] | [Hno _]]; [exact Hs|].
      exfalso. apply Hno. left. simpl. discriminate.
  - destruct (tool_support_classification
                (example_runtime [(text_reply_text, text_reply)])
                (example_world (FetchResponse (response_of 200 "OK" [text_reply_text])))
                (example_api "https://api.example.com") (js "gpt-4") 20)
      as (r & Hr & _ & Hjson & _).
    + vm_compute. discriminate.
    + exists r. split; [exact Hr|].
      destruct (Hjson (response_of 200 "OK" [text_reply_text]) text_reply
                  eq_refl eq_refl eq_refl eq_refl) as [[Hyes _] | [_ Hs]]; [|exact Hs].
      exfalso. destruct Hyes as [Hlen | Hfc]; [exact Hlen | discriminate].
Defined.

(** ** The chat exchange *)

(** The read loop of a streaming exchange neither touches the log object
    nor calls [saveLog]; a line never throws. *)
Lemma stream_line_keeps rt onChunk fullText line s :
  exists fullText' s',
    stream_line rt onChunk fullText line s = (Normal fullText', s')
    /\ Probe.log s' = Probe.log s
    /\ Probe.saveLog_calls s' = Probe.saveLog_calls s.
Proof.
  unfold stream_line.
  destruct (startsWith line (js "data: ") && negb (bool_decide (line = js "data: [DONE]")));
    [|unfold ret; eauto].
  unfold try_catch, bind, lift, ret.
  destruct (JSON_parse rt _) as [json|e]; [|eauto].
  destruct (get_strict rt json (js "choices")) as [choices|e]; [|eauto].
  destruct (truthy _); [|eauto].
  unfold deliver.
  match goal with |- context [onChunk ?a ?b] => destruct (onChunk a b) end; [|simpl; eauto].
  destruct (ToString rt _); simpl; eauto.
Qed.

Lemma stream_lines_keeps rt onChunk lines : forall fullText s,
  exists fullText' s',
    stream_lines rt onChunk fullText lines s = (Normal fullText', s')
    /\ Probe.log s' = Probe.log s
    /\ Probe.saveLog_calls s' = Probe.saveLog_calls s.
Proof.
  induction lines as [|line lines IH]; intros fullText s; simpl.
  - unfold ret. eauto.
  - unfold bind.
    destruct (stream_line_keeps rt onChunk fullText line s) as (ft & s1 & -> & Hlog & Hcalls).
    destruct (IH ft s1) as (ft' & s2 & -> & Hlog' & Hcalls').
    exists ft', s2. split; [reflexivity|]. split; congruence.
Qed.

Lemma read_stream_keeps rt onChunk failure chunks : forall fullText rawStream s,
  Probe.log (read_stream rt onChunk fullText rawStream chunks failure s).2 = Probe.log s
  /\ Probe.saveLog_calls (read_stream rt onChunk fullText rawStream chunks failure s).2
     = Probe.saveLog_calls s
  /\ match (read_stream rt onChunk fullText rawStream chunks failure s).1 with
     | Normal read => read.2 = rawStream ++ concat chunks /\ failure = None
     | Throw e => failure = Some e
     end.
Proof.
  induction chunks as [|chunkValue chunks IH]; intros fullText rawStream s; simpl.
  - destruct failure; simpl; rewrite ?app_nil_r; auto.
  - unfold bind.
    destruct (stream_lines_keeps rt onChunk (split 10 chunkValue) fullText s)
      as (ft & s1 & -> & Hlog & Hcalls).
    destruct (IH ft (rawStream ++ chunkValue) s1) as (Hlog' & Hcalls' & Hread).
    rewrite Hlog', Hcalls', Hlog, Hcalls. split; [reflexivity|]. split; [reflexivity|].
    destruct (read_stream _ _ _ _ _ _ _).1; [|assumption].
    rewrite <- app_assoc in Hread. assumption.
Qed.

Lemma appended_text_app rt onChunk (fragments fragments' : list jsval) : forall delivered,
  appended_text rt onChunk delivered (fragments ++ fragments')
  = appended_text rt onChunk delivered fragments
    ++ appended_text rt onChunk (delivered ++ fragments) fragments'.
Proof.
  induction fragments as [|content fragments IH]; intros delivered; simpl.
  - rewrite app_nil_r. reflexivity.
  - rewrite IH, <- !app_assoc. reflexivity.
Qed.

(** A line hands its content fragment, if it has one, to the callback, and
    the text grows by what the fragment adds. *)
Lemma stream_line_fragment rt onChunk fullText line s :
  (stream_line rt onChunk fullText line s).1
  = Normal (fullText
            ++ appended_text rt onChunk (Probe.delivered s) (option_list (line_content rt line)))
  /\ Probe.delivered (stream_line rt onChunk fullText line s).2
     = Probe.delivered s ++ option_list (line_content rt line).
Proof.
  unfold stream_line, line_content.
  destruct (startsWith line (js "data: ") && negb (bool_decide (line = js "data: [DONE]")));
    [|simpl; rewrite !app_nil_r; auto].
  unfold try_catch, bind, lift, ret.
  destruct (JSON_parse rt _) as [json|e]; [|simpl; rewrite !app_nil_r; auto].
  unfold get_strict.
  destruct (nullish json); [simpl; rewrite !app_nil_r; auto|].
  unfold or_empty_string.
  destruct (truthy (opt_get _ _)) eqn:Htruthy; [|simpl; rewrite !app_nil_r; auto].
  rewrite Htruthy. unfold deliver. simpl.
  match goal with |- context [onChunk ?a ?b] => destruct (onChunk a b) end; simpl;
    [destruct (ToString rt _); simpl|]; rewrite ?app_nil_r; auto.
Qed.

Lemma stream_lines_fragments rt onChunk lines : forall fullText s,
  (stream_lines rt onChunk fullText lines s).1
  = Normal (fullText
            ++ appended_text rt onChunk (Probe.delivered s) (omap (line_content rt) lines))
  /\ Probe.delivered (stream_lines rt onChunk fullText lines s).2
     = Probe.delivered s ++ omap (line_content rt) lines.
Proof.
  induction lines as [|line lines IH]; intros fullText s; simpl.
  - rewrite !app_nil_r. auto.
  - unfold bind.
    destruct (stream_line_fragment rt onChunk fullText line s) as [Htext Hdelivered].
    destruct (stream_line rt onChunk fullText line s) as [[ft|e] s1]; simpl in *;
      [|discriminate].
    injection Htext as ->.
    destruct (IH (fullText
                  ++ appended_text rt onChunk (Probe.delivered s)
                       (option_list (line_content rt line))) s1) as [Htext' Hdelivered'].
    rewrite Htext', Hdelivered', Hdelivered.
    destruct (line_content rt line) as [content|]; simpl;
      rewrite <- ?app_assoc, ?app_nil_r; auto.
Qed.

(** The read loop hands every content fragment of the body to the
    callback, in order, and generates the text they add up to. *)
Lemma read_stream_fragments rt onChunk failure chunks : forall fullText rawStream s,
  (read_stream rt onChunk fullText rawStream chunks failure s).1
  = match failure with
    | Some e => Throw e
    | None =>
        Normal (fullText ++ appended_text rt onChunk (Probe.delivered s)
                              (content_fragments rt chunks),
                rawStream ++ concat chunks)
    end
  /\ Probe.delivered (read_stream rt onChunk fullText rawStream chunks failure s).2
     = Probe.delivered s ++ content_fragments rt chunks.
Proof.
  unfold content_fragments.
  induction chunks as [|chunkValue chunks IH]; intros fullText rawStream s; simpl.
  - destruct failure; simpl; rewrite !app_nil_r; auto.
  - unfold bind.
    destruct (stream_lines_fragments rt onChunk (split 10 chunkValue) fullText s)
      as [Htext Hdelivered].
    destruct (stream_lines rt onChunk fullText (split 10 chunkValue) s) as [[ft|e] s1];
      simpl in *; [|discriminate].
    injection Htext as ->.
    destruct (IH (fullText
                  ++ appended_text rt onChunk (Probe.delivered s)
                       (omap (line_content rt) (split 10 chunkValue)))
                (rawStream ++ chunkValue) s1) as [Htext' Hdelivered'].
    rewrite Htext', Hdelivered', Hdelivered, omap_app, appended_text_app, <- !app_assoc.
    auto.
Qed.

(** C8, as amended: a [sendChatMessage] call that returns has called
    [saveLog] exactly once, and the logged response body is, for a streaming
    request, the summary object [{ stream_length, generated_text }], where
    [stream_length] is the length of the raw event-stream text that the call
    returns and [generated_text] is the text that the content fragments of
    the body add up to, and for a non-streaming request the parsed JSON
    value; a call that fails on a non-2xx response logs the text of the error
    body. *)
Theorem sendChatMessage_logged_body (rt : Builtins) (w : World.t) (api : ApiConfig.t)
    (requestBody : list (jsstring * jsval))
    (onChunk : list jsval -> jsval -> Completion unit) :
  (forall result,
      Outcome.completion (sendChatMessage rt w api requestBody onChunk) = Normal result ->
      exists log response,
        Outcome.log (sendChatMessage rt w api requestBody onChunk) = Some log
        /\ Outcome.saveLog_calls (sendChatMessage rt w api requestBody onChunk) = 1%nat
        /\ World.fetched w = FetchResponse response
        /\ if truthy (get (VObj (obj_spread requestBody (default [] (ApiConfig.customParams api))))
                         (js "stream"))
           then exists body,
                  Response.body response = Some body
                  /\ SendMessageResult.responseBody result = concat (Body.chunks body)
                  /\ RequestLog.responseBody log
                     = VObj [(js "stream_length",
                              VNum (Z.of_nat (length (SendMessageResult.responseBody result))));
                             (js "generated_text",
                              VStr (appended_text rt onChunk []
                                      (content_fragments rt (Body.chunks body))))]
           else exists data,
                  Response_json rt response = Normal data
                  /\ RequestLog.responseBody log = data
                  /\ SendMessageResult.responseBody result = JSON_stringify_pretty rt data)
  /\ (forall response text,
        getEndpoint api chat <> [] ->
        World.fetched w = FetchResponse response ->
        Response.ok response = false ->
        Response_text response = Normal text ->
        exists log,
          Outcome.log (sendChatMessage rt w api requestBody onChunk) = Some log
          /\ RequestLog.responseBody log = VStr text).
Proof.
  split.
  - intros result. unfold sendChatMessage. case_bool_decide as Hurl; [discriminate|].
    unfold Outcome.log, Outcome.saveLog_calls. simpl. probe_unfold.
    destruct (World.fetched w) as [response | e | text]; simpl; try discriminate.
    destruct (Response.ok response); simpl.
    + destruct (truthy _); simpl.
      * destruct (Response.body response) as [body|] eqn:Hbody; simpl; [|discriminate].
        match goal with |- context [read_stream rt onChunk ?ft ?rs ?cs ?f ?s] =>
          pose proof (read_stream_keeps rt onChunk f cs ft rs s) as (Hlog & Hcalls & _);
          pose proof (read_stream_fragments rt onChunk f cs ft rs s) as [Hread _];
          destruct (read_stream rt onChunk ft rs cs f s) as [[[fullText rawStream]|e] s']
        end; simpl in *; [|discriminate].
        destruct (Body.failure body); [discriminate|].
        injection Hread as -> ->. intros [= <-]. simpl.
        eexists _, response. split; [reflexivity|]. rewrite Hcalls.
        split; [reflexivity|]. split; [reflexivity|].
        exists body. split; [exact Hbody|]. split; reflexivity.
      * destruct (Response_json rt response) as [data|e] eqn:Hdata; simpl; [|discriminate].
        unfold get_strict. destruct (nullish data); simpl; [discriminate|].
        unfold deliver. simpl.
        match goal with |- context [onChunk ?a ?b] => destruct (onChunk a b) end;
          simpl; [|discriminate].
        intros [= <-]. eexists _, response. split; [reflexivity|]. simpl.
        split; [reflexivity|]. split; [reflexivity|].
        exists data. split; [assumption|]. split; reflexivity.
    + destruct (Response_text response); simpl; discriminate.
  - intros response text Hurl Hfetch Hok Htext. unfold sendChatMessage.
    rewrite bool_decide_eq_false_2 by assumption.
    unfold Outcome.log. simpl. eexists. split; [reflexivity|].
    probe_unfold. rewrite Hfetch. simpl. rewrite Hok. simpl. rewrite Htext. simpl.
    case_bool_decide; reflexivity.
Qed.

(** C8, counterexample: a streaming exchange returns the raw event-stream
    text to its caller, but the record it logs holds the summary object (the
    length of that text and the generated text), not the text itself. *)
Lemma streaming_log_holds_summary :
  exists result log,
    Outcome.completion
      (sendChatMessage (example_runtime [(delta_text, delta_json)])
         (example_world (FetchResponse (response_of 200 "OK" [sse_chunk])))
         (example_api "https://api.example.com") streaming_request accept_chunk)
    = Normal result
    /\ SendMessageResult.responseBody result = sse_chunk
    /\ Outcome.log
         (sendChatMessage (example_runtime [(delta_text, delta_json)])
            (example_world (FetchResponse (response_of 200 "OK" [sse_chunk])))
            (example_api "https://api.example.com") streaming_request accept_chunk)
       = Some log
    /\ RequestLog.responseBody log
       = VObj [(js "stream_length", VNum 60); (js "generated_text", VStr (js "Hi"))]
    /\ RequestLog.responseBody log <> VStr sse_chunk.
Proof.
  eexists _, _. split; [vm_compute; reflexivity|].
  split; [reflexivity|]. split; [vm_compute; reflexivity|].
  split; [reflexivity | discriminate].
Qed.

Lemma sendChatMessage_logged_body_witness :
  exists log,
    Outcome.log
      (sendChatMessage (example_runtime [(delta_text, delta_json)])
         (example_world (FetchResponse (response_of 200 "OK" [sse_chunk])))
         (example_api "https://api.example.com") streaming_request accept_chunk)
    = Some log
    /\ RequestLog.responseBody log
       = VObj [(js "stream_length", VNum (Z.of_nat (length sse_chunk)));
               (js "generated_text", VStr (js "Hi"))].
Proof.
  destruct (sendChatMessage_logged_body (example_runtime [(delta_text, delta_json)])
              (example_world (FetchResponse (response_of 200 "OK" [sse_chunk])))
              (example_api "https://api.example.com") streaming_request accept_chunk)
    as [Hreturns _].
  destruct (Hreturns {| SendMessageResult.actualBody := js "{}";
                        SendMessageResult.responseBody := sse_chunk |})
    as (log & response & Hlog & _ & Hfetch & Hbody).
  - vm_compute. reflexivity.
  - exists log. split; [exact Hlog|].
    change (truthy _) with true in Hbody.
    destruct Hbody as (body & Hresponse & _ & Hsummary).
    injection Hfetch as <-. injection Hresponse as <-.
    rewrite Hsummary. vm_compute. reflexivity.
Defined.

(** ** Aggregation of rounds *)

Lemma sumLatency_from (rounds : list RoundResult) : forall sum,
  foldl (fun sum r => sum + Round.latency r) sum rounds = sum + total_latency rounds.
Proof.
  unfold total_latency.
  induction rounds as [|r rounds IH]; intros sum; [simpl; lia|].
  rewrite fmap_cons. simpl. rewrite IH. lia.
Qed.

Lemma sumLatency_total (rounds : list RoundResult) :
  Dashboard.sumLatency rounds = total_latency rounds.
Proof. unfold Dashboard.sumLatency. rewrite sumLatency_from. lia. Qed.

Lemma successCount_from (mode : TestMode) (rounds : list RoundResult) : forall count,
  foldl (fun successCount r =>
           let successCount :=
             if bool_decide (mode = mode_latency) && bool_decide (Round.status r = st_success)
             then successCount + 1 else successCount in
           if bool_decide (mode = mode_tool) && bool_decide (Round.status r = st_supported)
           then successCount + 1 else successCount) count rounds
  = count + successes mode rounds.
Proof.
  unfold successes.
  induction rounds as [|r rounds IH]; intros count; simpl; [lia|].
  rewrite IH, filter_cons.
  destruct mode; simpl;
    destruct (bool_decide (Round.status r = _)) eqn:Hstatus; simpl;
    case_decide; simpl in *; try congruence; lia.
Qed.

Lemma successCount_successes (mode : TestMode) (rounds : list RoundResult) :
  Dashboard.successCount mode rounds = successes mode rounds.
Proof. unfold Dashboard.successCount. rewrite successCount_from. lia. Qed.

Lemma existsb_error (rounds : list RoundResult) :
  existsb (fun r => bool_decide (Round.status r = st_error)) rounds
  = bool_decide (Exists (fun r => Round.status r = st_error) rounds).
Proof.
  induction rounds as [|r rounds IH].
  - symmetry. apply bool_decide_eq_false_2. rewrite Exists_nil. tauto.
  - cbn [existsb]. rewrite IH.
    repeat case_bool_decide; simpl; try reflexivity;
      exfalso; rewrite Exists_cons in *; tauto.
Qed.

Lemma Math_round_div_nearest (total n : Z) :
  0 < n -> nearest_integer (Math_round_div total n) total n.
Proof.
  intros Hn. unfold nearest_integer, Math_round_div.
  pose proof (Z.div_mod (2 * total + n) (2 * n) ltac:(lia)) as Hdiv.
  pose proof (Z.mod_pos_bound (2 * total + n) (2 * n) ltac:(lia)) as Hmod.
  set (q := (2 * total + n) / (2 * n)) in *.
  set (r := (2 * total + n) mod (2 * n)) in *.
  lia.
Qed.

Lemma aggregate_status (settings : GlobalSettings.t) (mode : TestMode)
    (modelRuns : list RoundResult) (result : RoundResult) :
  Aggregate.newStatus (Dashboard.aggregate settings mode modelRuns result)
  = overall_status mode modelRuns.
Proof.
  unfold Dashboard.aggregate, overall_status. simpl.
  rewrite successCount_successes, existsb_error.
  destruct mode; simpl; [reflexivity|].
  destruct (0 <? successes mode_tool modelRuns) eqn:Hpos; simpl.
  - destruct (successes mode_tool modelRuns =? 0) eqn:Hzero; [lia | reflexivity].
  - assert (successes mode_tool modelRuns = 0) as -> by (unfold successes in *; lia).
    reflexivity.
Qed.

Lemma fold_rounds_snoc rt settings mode modelId rounds result d :
  Dashboard.fold_rounds rt settings mode modelId (rounds ++ [result]) d
  = match Dashboard.fold_rounds rt settings mode modelId rounds d with
    | Normal d' => Dashboard.complete_round rt settings mode modelId result d'
    | Throw e => Throw e
    end.
Proof. unfold Dashboard.fold_rounds. rewrite foldl_snoc. reflexivity. Qed.

Lemma fold_rounds_cons rt settings mode modelId result rounds d :
  Dashboard.fold_rounds rt settings mode modelId (result :: rounds) d
  = match Dashboard.complete_round rt settings mode modelId result d with
    | Normal d' => Dashboard.fold_rounds rt settings mode modelId rounds d'
    | Throw e => Throw e
    end.
Proof.
  unfold Dashboard.fold_rounds. simpl.
  destruct (Dashboard.complete_round rt settings mode modelId result d) as [d'|e];
    [reflexivity|].
  induction rounds as [|r rounds IH]; [reflexivity | exact IH].
Qed.

(** A round is recorded under a key that the session results have stored,
    or that names nothing they inherit. *)
Lemma complete_round_recorded rt settings mode modelId result d :
  is_Some (Dashboard.sessionResults d !! modelId) \/ modelId ∉ Object_prototype_members ->
  Dashboard.complete_round rt settings mode modelId result d
  = Normal (Dashboard.record_round settings mode modelId
              (default [] (Dashboard.sessionResults d !! modelId)) result d).
Proof.
  unfold Dashboard.complete_round, Dashboard.session_runs.
  intros [[runs ->] | Hown]; [reflexivity|].
  destruct (Dashboard.sessionResults d !! modelId); [reflexivity|].
  rewrite bool_decide_eq_false_2 by assumption. reflexivity.
Qed.

(** Under a key that they have not stored but inherit, the round throws
    before anything is written. *)
Lemma complete_round_inherited rt settings mode modelId result d :
  Dashboard.sessionResults d !! modelId = None ->
  modelId ∈ Object_prototype_members ->
  Dashboard.complete_round rt settings mode modelId result d
  = Throw (TypeError_not_a_function rt (js "sessionResults[modelId].push")).
Proof.
  intros Hnone Hin. unfold Dashboard.complete_round, Dashboard.session_runs.
  rewrite Hnone, bool_decide_eq_true_2 by assumption. reflexivity.
Qed.

Lemma fold_rounds_recorded rt settings mode modelId rounds : forall d,
  is_Some (Dashboard.sessionResults d !! modelId) \/ modelId ∉ Object_prototype_members ->
  exists d',
    Dashboard.fold_rounds rt settings mode modelId rounds d = Normal d'
    /\ default [] (Dashboard.sessionResults d' !! modelId)
       = default [] (Dashboard.sessionResults d !! modelId) ++ rounds.
Proof.
  induction rounds as [|result rounds IH]; intros d Hd.
  - exists d. rewrite app_nil_r. split; reflexivity.
  - rewrite fold_rounds_cons, complete_round_recorded by assumption.
    destruct (IH (Dashboard.record_round settings mode modelId
                    (default [] (Dashboard.sessionResults d !! modelId)) result d))
      as (d' & Hfold & Hruns).
    { left. simpl. rewrite lookup_insert_eq. eauto. }
    exists d'. split; [exact Hfold|].
    rewrite Hruns. simpl. rewrite lookup_insert_eq. simpl. rewrite <- app_assoc. reflexivity.
Qed.

Lemma record_round_entry settings mode modelId earlier result d :
  Dashboard.entry mode modelId (Dashboard.record_round settings mode modelId earlier result d)
  = Some (let a := Dashboard.aggregate settings mode (earlier ++ [result]) result in
          Round.override (Aggregate.avgLatency a) (Aggregate.newStatus a)
            (Aggregate.message a) result).
Proof.
  unfold Dashboard.entry, Dashboard.record_round.
  destruct mode; simpl; apply lookup_insert_eq.
Qed.

(** The rounds of a model folded from fresh session results: under an id
    that names nothing inherited they are all recorded, and the entry of the
    model is the aggregate of them all, over the fields of the last one. *)
Lemma fold_rounds_entry rt settings mode modelId earlier result queue testResults toolTestResults :
  modelId ∉ Object_prototype_members ->
  exists d,
    Dashboard.fold_rounds rt settings mode modelId (earlier ++ [result])
      (Dashboard.fresh queue testResults toolTestResults) = Normal d
    /\ Dashboard.entry mode modelId d
       = Some (let a := Dashboard.aggregate settings mode (earlier ++ [result]) result in
               Round.override (Aggregate.avgLatency a) (Aggregate.newStatus a)
                 (Aggregate.message a) result).
Proof.
  intros Hown. rewrite fold_rounds_snoc.
  destruct (fold_rounds_recorded rt settings mode modelId earlier
              (Dashboard.fresh queue testResults toolTestResults)) as (d & -> & Hruns);
    [right; exact Hown|].
  rewrite complete_round_recorded by (right; exact Hown).
  eexists. split; [reflexivity|].
  rewrite record_round_entry, Hruns. simpl. rewrite lookup_empty. reflexivity.
Qed.

(** Under an id that names an inherited member, the first round throws. *)
Lemma fold_rounds_inherited rt settings mode modelId earlier result queue testResults toolTestResults :
  modelId ∈ Object_prototype_members ->
  Dashboard.fold_rounds rt settings mode modelId (earlier ++ [result])
    (Dashboard.fresh queue testResults toolTestResults)
  = Throw (TypeError_not_a_function rt (js "sessionResults[modelId].push")).
Proof.
  intros Hin.
  destruct (earlier ++ [result]) as [|first rounds] eqn:Hrounds;
    [destruct earlier; discriminate|].
  rewrite fold_rounds_cons, complete_round_inherited; [reflexivity | | exact Hin].
  simpl. apply lookup_empty.
Qed.

Lemma override_latency l s m r : Round.latency (Round.override l s m r) = l.
Proof. destruct r; reflexivity. Qed.

Lemma override_status l s m r : Round.status (Round.override l s m r) = s.
Proof. destruct r; reflexivity. Qed.

Lemma override_message l s m r : Round.message (Round.override l s m r) = Some m.
Proof. destruct r; reflexivity. Qed.

(** C4: for any non-empty sequence of rounds of one task, the aggregation
    logic computes the average latency, which is the integer nearest to the
    sum of the latencies of the rounds so far divided by their number, and
    the overall status: in latency mode [success] if some round succeeded,
    else [error]; in tool mode [supported] if some round was supported, else
    [error] if some round's status is [error], else [unsupported]. Whenever
    the rounds were folded from fresh session results, the table entry of the
    task carries that latency and that status. The rounds are folded for
    every model id but the names that the session results inherit, under
    which the first round throws before it is recorded. *)
Theorem aggregate_average_and_status (rt : Builtins) (settings : GlobalSettings.t)
    (mode : TestMode) (modelId : jsstring) (earlier : list RoundResult) (result : RoundResult)
    (queue : list jsstring) (testResults toolTestResults : gmap jsstring RoundResult) :
  let rounds := earlier ++ [result] in
  let a := Dashboard.aggregate settings mode rounds result in
  let folded :=
    Dashboard.fold_rounds rt settings mode modelId rounds
      (Dashboard.fresh queue testResults toolTestResults) in
  nearest_integer (Aggregate.avgLatency a) (total_latency rounds) (Z.of_nat (length rounds))
  /\ Aggregate.successCount a = successes mode rounds
  /\ Aggregate.newStatus a = overall_status mode rounds
  /\ (forall d,
        folded = Normal d ->
        exists entry,
          Dashboard.entry mode modelId d = Some entry
          /\ Round.latency entry = Aggregate.avgLatency a
          /\ Round.status entry = Aggregate.newStatus a)
  /\ (modelId ∉ Object_prototype_members -> exists d, folded = Normal d)
  /\ (modelId ∈ Object_prototype_members ->
      folded = Throw (TypeError_not_a_function rt (js "sessionResults[modelId].push"))).
Proof.
  cbv zeta. split; [|split; [|split; [|split; [|split]]]].
  - simpl. rewrite sumLatency_total. apply Math_round_div_nearest.
    rewrite length_app. simpl. lia.
  - simpl. apply successCount_successes.
  - apply aggregate_status.
  - intros d Hfold.
    destruct (decide (modelId ∈ Object_prototype_members)) as [Hin|Hown].
    { rewrite fold_rounds_inherited in Hfold by exact Hin. discriminate. }
    destruct (fold_rounds_entry rt settings mode modelId earlier result queue
                testResults toolTestResults Hown) as (d' & Hfold' & Hentry).
    rewrite Hfold in Hfold'. injection Hfold' as <-.
    eexists. split; [exact Hentry|].
    cbv zeta. rewrite override_latency, override_status. split; reflexivity.
  - intros Hown.
    destruct (fold_rounds_entry rt settings mode modelId earlier result queue
                testResults toolTestResults Hown) as (d & Hfold & _).
    eauto.
  - apply fold_rounds_inherited.
Qed.

Lemma aggregate_average_and_status_witness :
  exists d entry,
    Dashboard.fold_rounds (example_runtime []) (example_settings 2 2) mode_latency (js "gpt-4")
      ([round_ok] ++ [round_failed]) (Dashboard.fresh [js "gpt-4"; js "gpt-4"] ∅ ∅) = Normal d
    /\ Dashboard.entry mode_latency (js "gpt-4") d = Some entry
    /\ nearest_integer (Round.latency entry) 241 2
    /\ Round.status entry = st_success.
Proof.
  destruct (aggregate_average_and_status (example_runtime []) (example_settings 2 2)
              mode_latency (js "gpt-4") [round_ok] round_failed [js "gpt-4"; js "gpt-4"] ∅ ∅)
    as (Hlatency & _ & Hstatus & Hentry & Hfolded & _).
  destruct Hfolded as [d Hfold]; [apply (bool_decide_unpack _); vm_compute; exact I|].
  destruct (Hentry d Hfold) as (entry & Hlookup & Hentry_latency & Hentry_status).
  exists d, entry. split; [exact Hfold|]. split; [exact Hlookup|].
  rewrite Hentry_latency, Hentry_status. split; [exact Hlatency | exact Hstatus].
Defined.

Lemma total_latency_permutation (rounds rounds' : list RoundResult) :
  rounds ≡ₚ rounds' -> total_latency rounds = total_latency rounds'.
Proof.
  unfold total_latency. induction 1; rewrite ?fmap_cons; simpl; lia.
Qed.

Lemma successes_permutation (mode : TestMode) (rounds rounds' : list RoundResult) :
  rounds ≡ₚ rounds' -> successes mode rounds = successes mode rounds'.
Proof. intros Hperm. unfold successes. rewrite Hperm. reflexivity. Qed.

Lemma overall_status_permutation (mode : TestMode) (rounds rounds' : list RoundResult) :
  rounds ≡ₚ rounds' -> overall_status mode rounds = overall_status mode rounds'.
Proof.
  intros Hperm. unfold overall_status.
  rewrite (successes_permutation mode _ _ Hperm).
  destruct mode; [reflexivity|].
  destruct (0 <? _); [reflexivity|].
  rewrite (bool_decide_ext _ (Exists (fun r => Round.status r = st_error) rounds'));
    [reflexivity|].
  rewrite !Exists_exists. split; intros (r & Hin & Hr); exists r; split; try assumption.
  - rewrite <- Hperm. assumption.
  - rewrite Hperm. assumption.
Qed.

(** Rounds that were folded from fresh session results belong to a model
    whose id names nothing inherited, and left the entry of the model. *)
Lemma fold_rounds_folded rt settings mode modelId earlier result queue testResults
    toolTestResults d :
  Dashboard.fold_rounds rt settings mode modelId (earlier ++ [result])
    (Dashboard.fresh queue testResults toolTestResults) = Normal d ->
  Dashboard.entry mode modelId d
  = Some (let a := Dashboard.aggregate settings mode (earlier ++ [result]) result in
          Round.override (Aggregate.avgLatency a) (Aggregate.newStatus a)
            (Aggregate.message a) result).
Proof.
  intros Hfold.
  destruct (decide (modelId ∈ Object_prototype_members)) as [Hin|Hown].
  { rewrite fold_rounds_inherited in Hfold by exact Hin. discriminate. }
  destruct (fold_rounds_entry rt settings mode modelId earlier result queue
              testResults toolTestResults Hown) as (d' & Hfold' & Hentry).
  rewrite Hfold in Hfold'. injection Hfold' as <-. exact Hentry.
Qed.

(** C9, as amended: folding the rounds of a task from fresh session results
    gives the same table entry whatever earlier runs left behind. A
    permutation of the rounds leaves the average latency, the success count
    and the status as they are; the aggregate changes in its message only,
    and only when the message of the last round does. The table entry is the
    result of the last round with its latency, status and message replaced by
    those of the aggregate: under a permutation it takes its other fields
    from the new last round, and it is the same entry when the last round is
    the same. The rounds are folded for every model id that names nothing
    inherited. *)
Theorem aggregation_replay_and_order (rt : Builtins) (settings : GlobalSettings.t)
    (mode : TestMode) (modelId : jsstring) (earlier earlier' : list RoundResult)
    (result result' : RoundResult) (queue queue' : list jsstring)
    (testResults toolTestResults testResults' toolTestResults' : gmap jsstring RoundResult) :
  earlier ++ [result] ≡ₚ earlier' ++ [result'] ->
  let a := Dashboard.aggregate settings mode (earlier ++ [result]) result in
  let a' := Dashboard.aggregate settings mode (earlier' ++ [result']) result' in
  (modelId ∉ Object_prototype_members ->
   exists d d',
     Dashboard.fold_rounds rt settings mode modelId (earlier ++ [result])
       (Dashboard.fresh queue testResults toolTestResults) = Normal d
     /\ Dashboard.fold_rounds rt settings mode modelId (earlier' ++ [result'])
          (Dashboard.fresh queue testResults toolTestResults) = Normal d')
  /\ (forall d d0,
        Dashboard.fold_rounds rt settings mode modelId (earlier ++ [result])
          (Dashboard.fresh queue testResults toolTestResults) = Normal d ->
        Dashboard.fold_rounds rt settings mode modelId (earlier ++ [result])
          (Dashboard.fresh queue' testResults' toolTestResults') = Normal d0 ->
        is_Some (Dashboard.entry mode modelId d)
        /\ Dashboard.entry mode modelId d = Dashboard.entry mode modelId d0)
  /\ Aggregate.avgLatency a = Aggregate.avgLatency a'
  /\ Aggregate.successCount a = Aggregate.successCount a'
  /\ Aggregate.newStatus a = Aggregate.newStatus a'
  /\ (Round.message result = Round.message result' -> a = a')
  /\ (forall d d',
        Dashboard.fold_rounds rt settings mode modelId (earlier ++ [result])
          (Dashboard.fresh queue testResults toolTestResults) = Normal d ->
        Dashboard.fold_rounds rt settings mode modelId (earlier' ++ [result'])
          (Dashboard.fresh queue testResults toolTestResults) = Normal d' ->
        exists entry entry',
          Dashboard.entry mode modelId d = Some entry
          /\ Dashboard.entry mode modelId d' = Some entry'
          /\ Round.latency entry' = Round.latency entry
          /\ Round.status entry' = Round.status entry
          /\ entry' = Round.override (Round.latency entry) (Round.status entry)
                        (Aggregate.message a') result'
          /\ (result = result' -> entry' = entry)).
Proof.
  intros Hperm. cbv zeta.
  assert (Havg : Aggregate.avgLatency (Dashboard.aggregate settings mode (earlier ++ [result]) result)
                 = Aggregate.avgLatency
                     (Dashboard.aggregate settings mode (earlier' ++ [result']) result')).
  { simpl. rewrite !sumLatency_total, (total_latency_permutation _ _ Hperm).
    rewrite (Permutation_length Hperm). reflexivity. }
  assert (Hcount : Aggregate.successCount
                     (Dashboard.aggregate settings mode (earlier ++ [result]) result)
                   = Aggregate.successCount
                       (Dashboard.aggregate settings mode (earlier' ++ [result']) result')).
  { simpl. rewrite !successCount_successes. apply successes_permutation, Hperm. }
  assert (Hstatus : Aggregate.newStatus
                      (Dashboard.aggregate settings mode (earlier ++ [result]) result)
                    = Aggregate.newStatus
                        (Dashboard.aggregate settings mode (earlier' ++ [result']) result')).
  { rewrite !aggregate_status. apply overall_status_permutation, Hperm. }
  assert (Hmessage : Round.message result = Round.message result' ->
                     Dashboard.aggregate settings mode (earlier ++ [result]) result
                     = Dashboard.aggregate settings mode (earlier' ++ [result']) result').
  { intros Hmessage.
    destruct (Dashboard.aggregate settings mode (earlier ++ [result]) result)
      as [avg count status message] eqn:Ha.
    destruct (Dashboard.aggregate settings mode (earlier' ++ [result']) result')
      as [avg' count' status' message'] eqn:Ha'.
    simpl in Havg, Hcount, Hstatus. subst avg' count' status'. f_equal.
    apply (f_equal Aggregate.message) in Ha, Ha'. simpl in Ha, Ha'.
    rewrite <- Ha, <- Ha'.
    rewrite !sumLatency_total, !successCount_successes, (total_latency_permutation _ _ Hperm),
      (successes_permutation mode _ _ Hperm), (Permutation_length Hperm), Hmessage.
    reflexivity. }
  split; [|split; [|split; [exact Havg|split; [exact Hcount|split; [exact Hstatus|split;
    [exact Hmessage|]]]]]].
  - intros Hown.
    destruct (fold_rounds_entry rt settings mode modelId earlier result queue
                testResults toolTestResults Hown) as (d & Hfold & _).
    destruct (fold_rounds_entry rt settings mode modelId earlier' result' queue
                testResults toolTestResults Hown) as (d' & Hfold' & _).
    eauto.
  - intros d d0 Hfold Hfold0.
    rewrite (fold_rounds_folded _ _ _ _ _ _ _ _ _ _ Hfold),
      (fold_rounds_folded _ _ _ _ _ _ _ _ _ _ Hfold0).
    split; [eauto | reflexivity].
  - intros d d' Hfold Hfold'.
    rewrite (fold_rounds_folded _ _ _ _ _ _ _ _ _ _ Hfold),
      (fold_rounds_folded _ _ _ _ _ _ _ _ _ _ Hfold').
    eexists _, _. split; [reflexivity|]. split; [reflexivity|]. cbv zeta.
    rewrite !override_latency, !override_status.
    split; [symmetry; exact Havg|]. split; [symmetry; exact Hstatus|].
    split; [rewrite Havg, Hstatus; reflexivity|].
    intros <-. rewrite (Hmessage eq_refl). reflexivity.
Qed.

(** C9, counterexample: two rounds that failed alike, one after the other.
    In either order the aggregate is the same, message included, but the
    entries of the table differ: each carries the time stamp of the round
    that came last. *)
Lemma last_round_fields_follow_order :
  exists d d' entry entry',
    [round_refused 1700000000001] ++ [round_refused 1700000000005]
    ≡ₚ [round_refused 1700000000005] ++ [round_refused 1700000000001]
    /\ Dashboard.fold_rounds (example_runtime []) (example_settings 2 2) mode_latency
         (js "gpt-4") ([round_refused 1700000000001] ++ [round_refused 1700000000005])
         (Dashboard.fresh [js "gpt-4"; js "gpt-4"] ∅ ∅) = Normal d
    /\ Dashboard.fold_rounds (example_runtime []) (example_settings 2 2) mode_latency
         (js "gpt-4") ([round_refused 1700000000005] ++ [round_refused 1700000000001])
         (Dashboard.fresh [js "gpt-4"; js "gpt-4"] ∅ ∅) = Normal d'
    /\ Dashboard.entry mode_latency (js "gpt-4") d = Some entry
    /\ Dashboard.entry mode_latency (js "gpt-4") d' = Some entry'
    /\ Round.message entry = Round.message entry'
    /\ entry <> entry'.
Proof.
  eexists _, _, _, _. split; [apply perm_swap|].
  split; [vm_compute; reflexivity|]. split; [vm_compute; reflexivity|].
  split; [vm_compute; reflexivity|]. split; [vm_compute; reflexivity|].
  split; [reflexivity | discriminate].
Qed.

Lemma aggregation_replay_and_order_witness :
  Aggregate.avgLatency
    (Dashboard.aggregate (example_settings 2 2) mode_latency ([round_ok] ++ [round_failed])
       round_failed)
  = Aggregate.avgLatency
      (Dashboard.aggregate (example_settings 2 2) mode_latency ([round_failed] ++ [round_ok])
         round_ok)
  /\ Aggregate.newStatus
       (Dashboard.aggregate (example_settings 2 2) mode_latency ([round_ok] ++ [round_failed])
          round_failed)
     = Aggregate.newStatus
         (Dashboard.aggregate (example_settings 2 2) mode_latency ([round_failed] ++ [round_ok])
            round_ok)
  /\ exists d d',
      Dashboard.fold_rounds (example_runtime []) (example_settings 2 2) mode_latency
        (js "gpt-4") ([round_ok] ++ [round_failed])
        (Dashboard.fresh [js "gpt-4"; js "gpt-4"] ∅ ∅) = Normal d
      /\ Dashboard.fold_rounds (example_runtime []) (example_settings 2 2) mode_latency
           (js "gpt-4") ([round_failed] ++ [round_ok])
           (Dashboard.fresh [js "gpt-4"; js "gpt-4"] ∅ ∅) = Normal d'
      /\ Round.latency <$> Dashboard.entry mode_latency (js "gpt-4") d
         = Round.latency <$> Dashboard.entry mode_latency (js "gpt-4") d'.
Proof.
  destruct (aggregation_replay_and_order (example_runtime []) (example_settings 2 2)
              mode_latency (js "gpt-4")
              [round_ok] [round_failed] round_failed round_ok
              [js "gpt-4"; js "gpt-4"] [] ∅ ∅ ∅ ∅)
    as (Hfolded & _ & Havg & _ & Hstatus & _ & Hentries).
  - apply perm_swap.
  - split; [exact Havg|]. split; [exact Hstatus|].
    destruct Hfolded as (d & d' & Hfold & Hfold');
      [apply (bool_decide_unpack _); vm_compute; exact I|].
    exists d, d'. split; [exact Hfold|]. split; [exact Hfold'|].
    destruct (Hentries d d' Hfold Hfold') as (entry & entry' & -> & -> & Hlatency & _).
    simpl. rewrite Hlatency. reflexivity.
Defined.

(** ** The worker pool *)

Section PoolProperties.
Context {Task Result Client : Type}.
Context (usable : Task -> bool).
Context (probe : Task -> World.t -> Completion Result).
Context (record : Task -> Result -> Client -> Completion Client).
(** the tasks whose results are recorded without an exception *)
Context (sound : Task -> Prop).
Hypothesis probe_returns : forall task w, exists result, probe task w = Normal result.
Hypothesis record_returns : forall task result client,
  sound task -> exists client', record task result client = Normal client'.

Lemma next_task_some queue task rest :
  next_task usable queue = (Some task, rest) ->
  List.filter usable queue = task :: List.filter usable rest.
Proof.
  induction queue as [|t queue IH]; simpl; [discriminate|].
  destruct (usable t) eqn:Hu.
  - intros [= -> ->]. reflexivity.
  - exact IH.
Qed.

Lemma next_task_none queue rest :
  next_task usable queue = (None, rest) -> rest = [] /\ List.filter usable queue = [].
Proof.
  induction queue as [|t queue IH]; simpl.
  - intros [= <-]. auto.
  - destruct (usable t) eqn:Hu; [discriminate | exact IH].
Qed.

Lemma omap_awaited_insert (workers : list (Worker Task)) i old new :
  workers !! i = Some old ->
  omap awaited (<[i := new]> workers) ++ option_list (awaited old)
  ≡ₚ omap awaited workers ++ option_list (awaited new).
Proof.
  intros Hi.
  rewrite <- (take_drop_middle workers i old Hi) at 2.
  rewrite insert_take_drop by (eapply lookup_lt_Some; eassumption).
  rewrite !omap_app. simpl.
  destruct (awaited old), (awaited new); simpl; solve_Permutation.
Qed.

Lemma lookup_insert_inv (workers : list (Worker Task)) i j new x :
  <[i := new]> workers !! j = Some x ->
  (j = i /\ x = new) \/ (j <> i /\ workers !! j = Some x).
Proof.
  intros Hj. destruct (decide (i = j)) as [->|Hne].
  - left. split; [reflexivity|].
    assert (j < length workers)%nat as Hlt.
    { apply lookup_lt_Some in Hj. rewrite length_insert in Hj. exact Hj. }
    rewrite list_lookup_insert_eq in Hj by assumption. congruence.
  - right. rewrite list_lookup_insert_ne in Hj by assumption. auto.
Qed.

(** Worker [i], which held [old], runs on from the loop head. *)
Lemma enter_invariant init (p : Pool.t Task Result Client) i old :
  Pool.workers p !! i = Some old ->
  (Pool.handed p).*2 ++ List.filter usable (Pool.queue p) = List.filter usable init ->
  (Pool.results p).*1 ++ in_flight p ≡ₚ (Pool.handed p).*2 ++ option_list (awaited old) ->
  (forall j worker, j <> i -> Pool.workers p !! j = Some worker ->
     (worker = Finished -> Pool.queue p = []) /\ (forall e, worker <> Rejected e)) ->
  pool_invariant usable init (enter usable i p).
Proof.
  intros Hi Hqueue Hflight Hothers. unfold enter.
  destruct (next_task usable (Pool.queue p)) as [[task|] rest] eqn:Hnext.
  - pose proof (next_task_some _ _ _ Hnext) as Hfilter.
    split; [|split; [|split]]; simpl.
    + rewrite fmap_app. simpl. rewrite <- app_assoc. simpl.
      rewrite <- Hfilter. exact Hqueue.
    + unfold in_flight. simpl. rewrite fmap_app. simpl.
      apply (Permutation_app_inv_r (option_list (awaited old))).
      rewrite <- !app_assoc.
      rewrite (omap_awaited_insert _ _ _ _ Hi). simpl.
      rewrite (app_assoc (Pool.results p).*1).
      rewrite Hflight. solve_Permutation.
    + intros Hin. apply list_elem_of_lookup in Hin as [j Hj].
      apply lookup_insert_inv in Hj as [[_ Heq] | [Hne Hj]]; [discriminate|].
      destruct (Hothers j Finished Hne Hj) as [Hempty _].
      rewrite (Hempty eq_refl) in Hnext. discriminate.
    + intros e Hin. apply list_elem_of_lookup in Hin as [j Hj].
      apply lookup_insert_inv in Hj as [[_ Heq] | [Hne Hj]]; [discriminate|].
      destruct (Hothers j (Rejected e) Hne Hj) as [_ Hno]. exact (Hno e eq_refl).
  - apply next_task_none in Hnext as [-> Hfilter].
    split; [|split; [|split]]; simpl.
    + rewrite <- Hqueue, Hfilter. reflexivity.
    + unfold in_flight. simpl.
      apply (Permutation_app_inv_r (option_list (awaited old))).
      rewrite <- !app_assoc.
      rewrite (omap_awaited_insert _ _ _ _ Hi). simpl.
      rewrite app_nil_r. exact Hflight.
    + reflexivity.
    + intros e Hin. apply list_elem_of_lookup in Hin as [j Hj].
      apply lookup_insert_inv in Hj as [[_ Heq] | [Hne Hj]]; [discriminate|].
      destruct (Hothers j (Rejected e) Hne Hj) as [_ Hno]. exact (Hno e eq_refl).
Qed.

Lemma enter_workers_length (p : Pool.t Task Result Client) i :
  length (Pool.workers (enter usable i p)) = length (Pool.workers p).
Proof.
  unfold enter. destruct (next_task usable (Pool.queue p)) as [[task|] rest];
    simpl; apply length_insert.
Qed.

Lemma enter_results (p : Pool.t Task Result Client) i :
  Pool.results (enter usable i p) = Pool.results p.
Proof.
  unfold enter. destruct (next_task usable (Pool.queue p)) as [[task|] rest]; reflexivity.
Qed.

Lemma invariant_others init (p : Pool.t Task Result Client) j worker :
  pool_invariant usable init p ->
  Pool.workers p !! j = Some worker ->
  (worker = Finished -> Pool.queue p = []) /\ (forall e, worker <> Rejected e).
Proof.
  intros (_ & _ & Hfinished & Hrejected) Hj. split.
  - intros ->. apply Hfinished. eapply list_elem_of_lookup_2, Hj.
  - intros e ->. apply (Hrejected e). eapply list_elem_of_lookup_2, Hj.
Qed.

Lemma spawn_invariant init (p : Pool.t Task Result Client) :
  pool_invariant usable init p -> pool_invariant usable init (spawn usable p).
Proof.
  intros Hinv. pose proof Hinv as (Hqueue & Hflight & _ & _).
  unfold spawn. apply (enter_invariant init _ _ Finished); simpl.
  - rewrite lookup_app_r by lia. rewrite Nat.sub_diag. reflexivity.
  - exact Hqueue.
  - unfold in_flight. simpl. rewrite omap_app. simpl. rewrite !app_nil_r. exact Hflight.
  - intros j worker Hne Hj.
    assert (j < length (Pool.workers p))%nat as Hlt.
    { apply lookup_lt_Some in Hj. rewrite length_app in Hj. simpl in Hj. lia. }
    rewrite lookup_app_l in Hj by assumption.
    exact (invariant_others init p j worker Hinv Hj).
Qed.

Lemma spawn_workers_length (p : Pool.t Task Result Client) :
  length (Pool.workers (spawn usable p)) = S (length (Pool.workers p)).
Proof. unfold spawn. rewrite enter_workers_length. simpl. rewrite length_app. simpl. lia. Qed.

Lemma spawn_results (p : Pool.t Task Result Client) : Pool.results (spawn usable p) = Pool.results p.
Proof. unfold spawn. rewrite enter_results. reflexivity. Qed.

Lemma start_invariant W init (client : Client) :
  pool_invariant usable init (start (Result:=Result) usable W init client)
  /\ length (Pool.workers (start (Result:=Result) usable W init client)) = W
  /\ Pool.results (start (Result:=Result) usable W init client) = [].
Proof.
  unfold start. induction W as [|W (IH & Hlength & Hresults)]; simpl.
  - split; [|auto]. split; [|split; [|split]]; simpl.
    + reflexivity.
    + reflexivity.
    + intros Hin. apply elem_of_nil in Hin. contradiction.
    + intros e Hin. apply elem_of_nil in Hin. contradiction.
  - split; [apply spawn_invariant, IH|].
    rewrite spawn_workers_length, spawn_results. auto.
Qed.

(** A task whose probe is awaited came from the queue. *)
Lemma awaited_init init (p : Pool.t Task Result Client) i task :
  pool_invariant usable init p ->
  Pool.workers p !! i = Some (Awaiting task) ->
  task ∈ init.
Proof.
  intros (Hqueue & Hflight & _ & _) Hi.
  assert (Hin : task ∈ (Pool.handed p).*2).
  { rewrite <- Hflight. apply elem_of_app. right. unfold in_flight.
    apply list_elem_of_omap. exists (Awaiting task).
    split; [eapply list_elem_of_lookup_2, Hi | reflexivity]. }
  assert (Hfiltered : task ∈ List.filter usable init).
  { rewrite <- Hqueue. apply elem_of_app. left. exact Hin. }
  apply list_elem_of_In, filter_In in Hfiltered as [Hinit _].
  apply list_elem_of_In, Hinit.
Qed.

Lemma settle_invariant init (p p' : Pool.t Task Result Client) i w :
  (forall task, task ∈ init -> sound task) ->
  pool_invariant usable init p ->
  settle usable probe record i w p = Some p' ->
  pool_invariant usable init p'
  /\ length (Pool.results p') = S (length (Pool.results p))
  /\ length (Pool.workers p') = length (Pool.workers p).
Proof.
  intros Hsound Hinv. pose proof Hinv as (Hqueue & Hflight & _ & _).
  unfold settle. destruct (Pool.workers p !! i) as [[task| |e]|] eqn:Hi; try discriminate.
  destruct (probe_returns task w) as [result ->].
  destruct (record_returns task result (Pool.client p)) as [client ->];
    [eapply Hsound, awaited_init; eassumption|].
  intros [= <-].
  split; [|split].
  - apply (enter_invariant init _ _ (Awaiting task)); simpl.
    + exact Hi.
    + exact Hqueue.
    + unfold in_flight in *. simpl. rewrite fmap_app. simpl.
      rewrite <- Hflight. solve_Permutation.
    + intros j worker _ Hj. exact (invariant_others init p j worker Hinv Hj).
  - rewrite enter_results. simpl. rewrite length_app. simpl. lia.
  - rewrite enter_workers_length. reflexivity.
Qed.

Lemma exec_invariant init schedule : forall (p p' : Pool.t Task Result Client),
  (forall task, task ∈ init -> sound task) ->
  pool_invariant usable init p ->
  exec usable probe record schedule p = Some p' ->
  pool_invariant usable init p'
  /\ length (Pool.results p') = (length (Pool.results p) + length schedule)%nat
  /\ length (Pool.workers p') = length (Pool.workers p).
Proof.
  induction schedule as [|[i w] schedule IH]; intros p p' Hsound Hinv; simpl.
  - intros [= <-]. split; [assumption|]. split; lia.
  - destruct (settle usable probe record i w p) as [p1|] eqn:Hsettle; [|discriminate].
    destruct (settle_invariant init p p1 i w Hsound Hinv Hsettle)
      as (Hinv1 & Hresults & Hworkers).
    intros Hexec. destruct (IH p1 p' Hsound Hinv1 Hexec) as (Hinv' & Hresults' & Hworkers').
    split; [assumption|]. split; lia.
Qed.

(** Without rejected workers, the run has resolved when nothing is in
    flight. *)
Lemma resolved_in_flight (workers : list (Worker Task)) :
  (forall e, Rejected e ∉ workers) ->
  forallb is_finished workers = true <-> omap awaited workers = [].
Proof.
  induction workers as [|worker workers IH]; intros Hno; simpl; [tauto|].
  assert (Hno' : forall e, Rejected e ∉ workers).
  { intros e Hin. apply (Hno e). apply elem_of_cons. auto. }
  specialize (IH Hno').
  destruct worker as [task| |e]; simpl.
  - split; discriminate.
  - exact IH.
  - exfalso. apply (Hno e). apply elem_of_cons. auto.
Qed.

Lemma invariant_lengths init (p : Pool.t Task Result Client) :
  pool_invariant usable init p ->
  (length (Pool.results p) + length (in_flight p)
   + length (List.filter usable (Pool.queue p)))%nat
  = length (List.filter usable init).
Proof.
  intros (Hqueue & Hflight & _ & _).
  apply (f_equal length) in Hqueue. apply Permutation_length in Hflight.
  rewrite !length_app, !length_fmap in *. lia.
Qed.

(** The run of a pool of [W >= 1] workers over the queue [init]. *)
Lemma pool_run W init client schedule (p : Pool.t Task Result Client) :
  (forall task, task ∈ init -> sound task) ->
  (1 <= W)%nat ->
  exec usable probe record schedule (start usable W init client) = Some p ->
  length (Pool.results p) = length schedule
  /\ (Pool.handed p).*2 `prefix_of` List.filter usable init
  /\ (Pool.results p).*1 ++ in_flight p ≡ₚ (Pool.handed p).*2
  /\ (resolved p = true <-> length schedule = length (List.filter usable init))
  /\ (resolved p = true ->
      (Pool.handed p).*2 = List.filter usable init
      /\ (Pool.results p).*1 ≡ₚ List.filter usable init)
  /\ (resolved p = false ->
      exists i task, Pool.workers p !! i = Some (Awaiting task)
                     /\ forall w, is_Some (settle usable probe record i w p)).
Proof.
  intros Hsound HW Hexec.
  destruct (start_invariant W init client) as (Hinv0 & Hlength0 & Hresults0).
  destruct (exec_invariant init schedule _ p Hsound Hinv0 Hexec)
    as (Hinv & Hresults & Hworkers).
  rewrite Hresults0 in Hresults. simpl in Hresults. rewrite Hlength0 in Hworkers.
  pose proof (invariant_lengths init p Hinv) as Hlengths.
  pose proof Hinv as (Hqueue & Hflight & Hfinished & Hrejected).
  pose proof (resolved_in_flight (Pool.workers p) Hrejected) as Hresolved.
  fold (resolved p) in Hresolved. fold (in_flight p) in Hresolved.
  assert (Hdone : resolved p = true -> Pool.queue p = []).
  { intros Hres. apply Hfinished.
    destruct (Pool.workers p) as [|worker workers] eqn:Hws; [simpl in Hworkers; lia|].
    unfold resolved in Hres. rewrite Hws in Hres. simpl in Hres.
    apply andb_true_iff in Hres as [Hw _].
    destruct worker; try discriminate. apply elem_of_cons. auto. }
  split; [exact Hresults|]. split; [|split; [exact Hflight|split; [|split]]].
  - exists (List.filter usable (Pool.queue p)). symmetry. exact Hqueue.
  - split.
    + intros Hres. pose proof (Hdone Hres) as Hempty.
      apply Hresolved in Hres. rewrite Hres, Hempty in Hlengths. simpl in Hlengths. lia.
    + intros Hall. apply Hresolved.
      destruct (in_flight p); [reflexivity | simpl in Hlengths; lia].
  - intros Hres. pose proof (Hdone Hres) as Hempty.
    apply Hresolved in Hres. rewrite Hempty in Hqueue. simpl in Hqueue.
    rewrite app_nil_r in Hqueue. rewrite Hres, app_nil_r in Hflight.
    split; [exact Hqueue|]. rewrite Hflight, Hqueue. reflexivity.
  - intros Hres.
    assert (Hflying : in_flight p <> []).
    { intros Hnone. apply Hresolved in Hnone. congruence. }
    unfold in_flight in Hflying.
    destruct (omap awaited (Pool.workers p)) as [|task rest] eqn:Homap; [congruence|].
    assert (Hin : task ∈ omap awaited (Pool.workers p)).
    { rewrite Homap. apply elem_of_cons. auto. }
    apply list_elem_of_omap in Hin as (worker & Hin & Hawaited).
    destruct worker as [task'| |e]; simpl in Hawaited; try discriminate.
    injection Hawaited as ->.
    apply list_elem_of_lookup in Hin as [i Hi].
    exists i, task. split; [exact Hi|].
    intros w. unfold settle. rewrite Hi.
    destruct (probe_returns task w) as [result ->].
    destruct (record_returns task result (Pool.client p)) as [client' ->];
      [eapply Hsound, awaited_init; eassumption | eauto].
Qed.

(** The client state is what the recorded results left, in their order. *)
Lemma exec_client schedule (client0 : Client) : forall (p p' : Pool.t Task Result Client),
  Pool.client p = recorded record client0 (Pool.results p) ->
  exec usable probe record schedule p = Some p' ->
  Pool.client p' = recorded record client0 (Pool.results p').
Proof.
  assert (Henter : forall i (p : Pool.t Task Result Client),
             Pool.client (enter usable i p) = Pool.client p).
  { intros i p. unfold enter.
    destruct (next_task usable (Pool.queue p)) as [[task|] rest]; reflexivity. }
  induction schedule as [|[i w] schedule IH]; intros p p' Hclient; simpl.
  - intros [= <-]. exact Hclient.
  - unfold settle. destruct (Pool.workers p !! i) as [[task| |e]|]; try discriminate.
    destruct (probe task w) as [result|e];
      [destruct (record task result (Pool.client p)) as [client|e] eqn:Hrecord|]; apply IH.
    + rewrite Henter, enter_results. simpl. unfold recorded in *.
      rewrite foldl_snoc, <- Hclient. simpl. rewrite Hrecord. reflexivity.
    + simpl. exact Hclient.
    + simpl. exact Hclient.
Qed.

Lemma start_client W init (client : Client) :
  Pool.client (start (Result:=Result) usable W init client) = client.
Proof.
  unfold start. induction W as [|W IH]; simpl; [reflexivity|].
  unfold spawn, enter. simpl.
  destruct (next_task usable _) as [[task|] rest]; simpl; exact IH.
Qed.

Lemma run_client W init (client : Client) schedule (p : Pool.t Task Result Client) :
  exec usable probe record schedule (start usable W init client) = Some p ->
  Pool.client p = recorded record client (Pool.results p).
Proof.
  apply exec_client. rewrite start_client.
  replace (Pool.results (start usable W init client)) with (@nil (Task * Result));
    [reflexivity|].
  unfold start. induction W as [|W IH]; simpl; [reflexivity|].
  rewrite spawn_results. exact IH.
Qed.

(** A rejected worker stays rejected: the run never resolves. *)
Lemma settle_rejected (p p' : Pool.t Task Result Client) i w j e :
  settle usable probe record i w p = Some p' ->
  Pool.workers p !! j = Some (Rejected e) ->
  Pool.workers p' !! j = Some (Rejected e).
Proof.
  unfold settle. destruct (Pool.workers p !! i) as [[task| |e']|] eqn:Hi; try discriminate.
  intros Hsettle Hj.
  assert (Hne : i <> j) by (intros ->; congruence).
  assert (Henter : forall q : Pool.t Task Result Client,
             Pool.workers q !! j = Some (Rejected e) ->
             Pool.workers (enter usable i q) !! j = Some (Rejected e)).
  { intros q Hq. unfold enter.
    destruct (next_task usable (Pool.queue q)) as [[t|] rest]; simpl;
      rewrite list_lookup_insert_ne by exact Hne; exact Hq. }
  destruct (probe task w) as [result|e''];
    [destruct (record task result (Pool.client p)) as [client|e'']|];
    injection Hsettle as <-.
  - apply Henter. exact Hj.
  - simpl. rewrite list_lookup_insert_ne by exact Hne. exact Hj.
  - simpl. rewrite list_lookup_insert_ne by exact Hne. exact Hj.
Qed.

Lemma exec_rejected schedule : forall (p p' : Pool.t Task Result Client) j e,
  exec usable probe record schedule p = Some p' ->
  Pool.workers p !! j = Some (Rejected e) ->
  Pool.workers p' !! j = Some (Rejected e).
Proof.
  induction schedule as [|[i w] schedule IH]; intros p p' j e; simpl.
  - intros [= <-] Hj. exact Hj.
  - destruct (settle usable probe record i w p) as [p1|] eqn:Hsettle; [|discriminate].
    intros Hexec Hj. eapply IH; [exact Hexec|]. eapply settle_rejected; eassumption.
Qed.

Lemma rejected_not_resolved (p : Pool.t Task Result Client) j e :
  Pool.workers p !! j = Some (Rejected e) ->
  resolved p = false /\ rejected p = true.
Proof.
  intros Hj. unfold resolved, rejected. split.
  - apply not_true_is_false. intros Hall.
    rewrite forallb_forall in Hall.
    specialize (Hall (Rejected e)). simpl in Hall.
    discriminate Hall. apply list_elem_of_In. eapply list_elem_of_lookup_2, Hj.
  - apply existsb_exists. exists (Rejected e). split; [|reflexivity].
    apply list_elem_of_In. eapply list_elem_of_lookup_2, Hj.
Qed.
End PoolProperties.

Lemma filter_all_usable {Task} (usable : Task -> bool) (tasks : list Task) :
  (forall task, task ∈ tasks -> usable task = true) -> List.filter usable tasks = tasks.
Proof.
  induction tasks as [|task tasks IH]; intros Hall; simpl; [reflexivity|].
  rewrite (Hall task) by (apply elem_of_cons; auto).
  f_equal. apply IH. intros t Hin. apply Hall. apply elem_of_cons. auto.
Qed.

Lemma BulkTestView_probe_returns rt baseUrl globalSettings task w :
  exists result, BulkTestView.probe rt baseUrl globalSettings task w = Normal result.
Proof.
  unfold BulkTestView.probe.
  destruct (testModelLatency_returns rt w (BulkTestView.tempApi baseUrl task.1) task.2
              (GlobalSettings.testTimeout globalSettings) false) as (r & Hr & _).
  eauto.
Qed.

Lemma BulkTestView_record_returns (task : jsstring * jsstring) (result : TestResult.t)
    (b : BulkTestView.t) :
  True -> exists b', BulkTestView.record task result b = Normal b'.
Proof. intros _. unfold BulkTestView.record. eauto. Qed.

Lemma BulkTestView_recorded (results : list ((jsstring * jsstring) * TestResult.t))
    (b : BulkTestView.t) :
  recorded BulkTestView.record b results
  = foldl (fun c tr => BulkTestView.store_result tr.1 tr.2 c) b results.
Proof. reflexivity. Qed.

Lemma Dashboard_probe_returns rt api settings mode modelId w :
  exists result, Dashboard.probe rt api settings mode modelId w = Normal result.
Proof.
  unfold Dashboard.probe. destruct mode.
  - destruct (testModelLatency_returns rt w api modelId (GlobalSettings.testTimeout settings)
                (Dashboard.useStream settings)) as (r & -> & _). eauto.
  - destruct (testModelToolSupport_returns rt w api modelId
                (GlobalSettings.testTimeout settings)) as (r & -> & _). eauto.
Qed.

Lemma Dashboard_record_returns rt settings mode modelId result d :
  modelId ∉ Object_prototype_members ->
  exists d', Dashboard.complete_round rt settings mode modelId result d = Normal d'.
Proof. intros Hown. rewrite complete_round_recorded by (right; exact Hown). eauto. Qed.

Lemma BulkTestView_completed (results : list ((jsstring * jsstring) * TestResult.t)) :
  forall b,
    BulkTestView.completed (foldl (fun c tr => BulkTestView.store_result tr.1 tr.2 c) b results)
    = BulkTestView.completed b + Z.of_nat (length results).
Proof.
  induction results as [|tr results IH]; intros b; simpl; [lia|].
  rewrite IH. simpl. lia.
Qed.

(** The rounds recorded, of models whose ids name nothing inherited. *)
Lemma Dashboard_recorded rt settings mode (results : list (jsstring * RoundResult)) :
  forall d,
    Forall (fun tr => tr.1 ∉ Object_prototype_members) results ->
    recorded (Dashboard.complete_round rt settings mode) d results
    = foldl (fun c tr =>
               Dashboard.record_round settings mode tr.1
                 (default [] (Dashboard.sessionResults c !! tr.1)) tr.2 c) d results.
Proof.
  unfold recorded.
  induction results as [|tr results IH]; intros d Hown; simpl; [reflexivity|].
  apply Forall_cons in Hown as [Hfirst Hown].
  rewrite complete_round_recorded by (right; exact Hfirst).
  apply IH, Hown.
Qed.

Lemma Dashboard_completedCount settings mode (results : list (jsstring * RoundResult)) :
  forall d,
    Dashboard.completedCount
      (foldl (fun c tr =>
                Dashboard.record_round settings mode tr.1
                  (default [] (Dashboard.sessionResults c !! tr.1)) tr.2 c) d results)
    = Dashboard.completedCount d + Z.of_nat (length results).
Proof.
  induction results as [|tr results IH]; intros d; simpl; [lia|].
  rewrite IH. simpl. lia.
Qed.

(** The results recorded by a pool are those of tasks of its queue. *)
Lemma results_of_queue {Task Result Client} (usable : Task -> bool) (init : list Task)
    (p : Pool.t Task Result Client) (P : Task -> Prop) :
  (Pool.handed p).*2 `prefix_of` List.filter usable init ->
  (Pool.results p).*1 ++ in_flight p ≡ₚ (Pool.handed p).*2 ->
  (forall task, task ∈ init -> P task) ->
  Forall (fun tr => P tr.1) (Pool.results p).
Proof.
  intros [rest Hprefix] Hflight HP. apply Forall_forall. intros tr Hin.
  apply HP.
  assert (Hhanded : tr.1 ∈ (Pool.handed p).*2).
  { rewrite <- Hflight. apply elem_of_app. left. apply list_elem_of_fmap. eauto. }
  assert (Hfiltered : tr.1 ∈ List.filter usable init).
  { rewrite Hprefix. apply elem_of_app. left. exact Hhanded. }
  apply list_elem_of_In, filter_In in Hfiltered as [Hinit _].
  apply list_elem_of_In, Hinit.
Qed.

(** C5, as amended: a run of [W >= 1] workers over a queue of [N] tasks
    records one result per settled probe, hands the tasks out in queue order,
    each entry to one worker, and resolves exactly when [N] probes have
    settled, with the [N] results recorded and counted; until then some probe
    is in flight and the run can go on. This holds for every queue of the
    key-by-model runner, and for the queues of the per-model runner in which
    no model id is the empty string or names a member that the session
    results inherit. *)
Theorem worker_pool_completes (rt : Builtins) :
  (forall baseUrl globalSettings keys targetModels W schedule p,
      (1 <= W)%nat ->
      exec BulkTestView.usable (BulkTestView.probe rt baseUrl globalSettings)
        BulkTestView.record schedule
        (start BulkTestView.usable W (BulkTestView.make_tasks keys targetModels)
           (BulkTestView.initial keys (length (BulkTestView.make_tasks keys targetModels))))
      = Some p ->
      complete_run (BulkTestView.make_tasks keys targetModels) schedule p
        (BulkTestView.completed (Pool.client p))
      /\ (resolved p = false ->
          exists i task,
            Pool.workers p !! i = Some (Awaiting task)
            /\ forall w, is_Some (settle BulkTestView.usable
                                    (BulkTestView.probe rt baseUrl globalSettings)
                                    BulkTestView.record i w p)))
  /\ (forall api settings mode queue testResults toolTestResults W schedule p,
        (forall modelId, modelId ∈ queue ->
                         modelId <> [] /\ modelId ∉ Object_prototype_members) ->
        (1 <= W)%nat ->
        exec Dashboard.usable (Dashboard.probe rt api settings mode)
          (Dashboard.complete_round rt settings mode) schedule
          (start Dashboard.usable W queue (Dashboard.fresh queue testResults toolTestResults))
        = Some p ->
        complete_run queue schedule p (Dashboard.completedCount (Pool.client p))
        /\ (resolved p = false ->
            exists i modelId,
              Pool.workers p !! i = Some (Awaiting modelId)
              /\ forall w, is_Some (settle Dashboard.usable
                                      (Dashboard.probe rt api settings mode)
                                      (Dashboard.complete_round rt settings mode) i w p))).
Proof.
  split.
  - intros baseUrl globalSettings keys targetModels W schedule p HW Hexec.
    set (tasks := BulkTestView.make_tasks keys targetModels) in *.
    destruct (pool_run BulkTestView.usable (BulkTestView.probe rt baseUrl globalSettings)
                BulkTestView.record (fun _ => True)
                (BulkTestView_probe_returns rt baseUrl globalSettings)
                BulkTestView_record_returns
                W tasks _ schedule p (fun _ _ => I) HW Hexec)
      as (Hresults & Hprefix & Hflight & Hresolved & Hdone & Hprogress).
    rewrite (filter_all_usable BulkTestView.usable tasks) in * by reflexivity.
    split; [|exact Hprogress].
    split; [exact Hresults|]. split; [|auto].
    rewrite (run_client _ _ _ _ _ _ _ _ Hexec).
    rewrite BulkTestView_recorded, BulkTestView_completed, Hresults. simpl. lia.
  - intros api settings mode queue testResults toolTestResults W schedule p Hids HW Hexec.
    destruct (pool_run Dashboard.usable (Dashboard.probe rt api settings mode)
                (Dashboard.complete_round rt settings mode)
                (fun modelId => modelId ∉ Object_prototype_members)
                (Dashboard_probe_returns rt api settings mode)
                (Dashboard_record_returns rt settings mode)
                W queue _ schedule p (fun modelId Hin => proj2 (Hids modelId Hin)) HW Hexec)
      as (Hresults & Hprefix & Hflight & Hresolved & Hdone & Hprogress).
    pose proof (results_of_queue Dashboard.usable queue p
                  (fun modelId => modelId ∉ Object_prototype_members) Hprefix Hflight
                  (fun modelId Hin => proj2 (Hids modelId Hin))) as Hown.
    rewrite (filter_all_usable Dashboard.usable queue) in *.
    2, 3, 4: (intros modelId Hin; unfold Dashboard.usable;
              rewrite bool_decide_eq_false_2 by (apply Hids, Hin); reflexivity).
    split; [|exact Hprogress].
    split; [exact Hresults|]. split; [|auto].
    rewrite (run_client _ _ _ _ _ _ _ _ Hexec).
    rewrite Dashboard_recorded, Dashboard_completedCount, Hresults by exact Hown.
    simpl. lia.
Qed.

(** [runTests] and [handleStart] start such a pool, with between one and
    [N] workers, whenever they start a run with a concurrency of at least
    one. *)
Lemma worker_count_bounds testConcurrency tasks W :
  1 <= testConcurrency -> (1 <= tasks)%nat ->
  worker_count testConcurrency tasks = Some W -> (1 <= W <= tasks)%nat.
Proof.
  intros Hc Hn. unfold worker_count.
  destruct (0 <=? testConcurrency) eqn:Hpos; [|lia].
  intros [= <-]. lia.
Qed.

Lemma make_tasks_length keys targetModels :
  keys <> [] -> targetModels <> [] ->
  (1 <= length (BulkTestView.make_tasks keys targetModels))%nat.
Proof.
  destruct keys as [|key keys]; [congruence|].
  destruct targetModels as [|model targetModels]; [congruence|].
  intros _ _. simpl. lia.
Qed.

Lemma handleStart_starts_pool baseUrl globalSettings keysInput targetModels p :
  1 <= GlobalSettings.testConcurrency globalSettings ->
  BulkTestView.handleStart baseUrl globalSettings keysInput targetModels = Some p ->
  exists W,
    (1 <= W <= length (BulkTestView.make_tasks (BulkTestView.parse_keys keysInput) targetModels))%nat
    /\ p = start BulkTestView.usable W
             (BulkTestView.make_tasks (BulkTestView.parse_keys keysInput) targetModels)
             (BulkTestView.initial (BulkTestView.parse_keys keysInput)
                (length (BulkTestView.make_tasks (BulkTestView.parse_keys keysInput)
                           targetModels))).
Proof.
  intros Hc. unfold BulkTestView.handleStart.
  repeat (case_bool_decide; [discriminate|]).
  destruct (worker_count _ _) as [W|] eqn:HW; [|discriminate].
  intros [= <-]. exists W. split; [|reflexivity].
  eapply worker_count_bounds; [exact Hc | | exact HW].
  apply make_tasks_length; assumption.
Qed.

Lemma runTests_starts_pool settings selectedModels testResults toolTestResults p :
  1 <= GlobalSettings.testConcurrency settings ->
  Dashboard.make_queue settings selectedModels <> [] ->
  Dashboard.runTests settings selectedModels testResults toolTestResults = Some p ->
  exists W,
    (1 <= W <= length (Dashboard.make_queue settings selectedModels))%nat
    /\ p = start Dashboard.usable W (Dashboard.make_queue settings selectedModels)
             (Dashboard.fresh (Dashboard.make_queue settings selectedModels)
                testResults toolTestResults).
Proof.
  intros Hc Hqueue. unfold Dashboard.runTests.
  case_bool_decide; [discriminate|].
  destruct (worker_count _ _) as [W|] eqn:HW; [|discriminate].
  intros [= <-]. exists W. split; [|reflexivity].
  eapply worker_count_bounds; [exact Hc | | exact HW].
  destruct (Dashboard.make_queue settings selectedModels); [congruence | simpl; lia].
Qed.

(** C5, counterexample: the per-model runner, started with one worker on a
    queue that holds one task whose model id is the empty string, resolves
    at once with no result recorded and nothing counted. *)
Lemma empty_model_id_is_skipped :
  exists p,
    Dashboard.make_queue (example_settings 1 1) [[]] = [[]]
    /\ Dashboard.runTests (example_settings 1 1) [[]] ∅ ∅ = Some p
    /\ length (Pool.workers p) = 1%nat
    /\ resolved p = true
    /\ Pool.results p = []
    /\ Dashboard.completedCount (Pool.client p) = 0.
Proof.
  eexists. split; [reflexivity|]. split; [reflexivity|]. repeat split.
Qed.

Lemma worker_pool_completes_witness :
  (exists p,
      exec BulkTestView.usable
        (BulkTestView.probe (example_runtime []) (js "https://api.example.com")
           (example_settings 1 1))
        BulkTestView.record
        [(0%nat, example_world (FetchFailure failed_to_fetch))]
        (start BulkTestView.usable 1 (BulkTestView.make_tasks [js "sk-1"] [js "gpt-4"])
           (BulkTestView.initial [js "sk-1"]
              (length (BulkTestView.make_tasks [js "sk-1"] [js "gpt-4"]))))
      = Some p
      /\ resolved p = true
      /\ (Pool.handed p).*2 = [(js "sk-1", js "gpt-4")]
      /\ BulkTestView.completed (Pool.client p) = 1)
  /\ exists p,
      exec Dashboard.usable
        (Dashboard.probe (example_runtime []) (example_api "https://api.example.com")
           (example_settings 2 2) mode_latency)
        (Dashboard.complete_round (example_runtime []) (example_settings 2 2) mode_latency)
        [(1%nat, example_world (FetchFailure failed_to_fetch));
         (0%nat, example_world (FetchAborted (js "The user aborted a request.")))]
        (start Dashboard.usable 2 [js "gpt-4"; js "gpt-4"]
           (Dashboard.fresh [js "gpt-4"; js "gpt-4"] ∅ ∅))
      = Some p
      /\ resolved p = true
      /\ (Pool.handed p).*2 = [js "gpt-4"; js "gpt-4"]
      /\ Dashboard.completedCount (Pool.client p) = 2.
Proof.
  destruct (worker_pool_completes (example_runtime [])) as [Hbulk Hdashboard].
  split.
  - match goal with |- exists p, ?run = Some p /\ _ =>
      destruct run as [p|] eqn:Hexec; [|vm_compute in Hexec; discriminate]
    end.
    exists p. split; [reflexivity|].
    destruct (Hbulk _ _ _ _ _ _ p (le_n 1) Hexec)
      as [(_ & Hcount & _ & _ & Hresolved & Hdone) _].
    assert (Hres : resolved p = true) by (apply Hresolved; reflexivity).
    split; [exact Hres|]. split; [apply (Hdone Hres) | exact Hcount].
  - match goal with |- exists p, ?run = Some p /\ _ =>
      destruct run as [p|] eqn:Hexec; [|vm_compute in Hexec; discriminate]
    end.
    exists p. split; [reflexivity|].
    assert (Hids : forall modelId : jsstring,
               modelId ∈ [js "gpt-4"; js "gpt-4"] ->
               modelId <> [] /\ modelId ∉ Object_prototype_members).
    { intros modelId Hin. apply list_elem_of_In in Hin. simpl in Hin.
      destruct Hin as [<- | [<- | []]];
        (split; [discriminate | apply (bool_decide_unpack _); vm_compute; exact I]). }
    destruct (Hdashboard _ _ _ _ _ _ _ _ p Hids (le_S 1 1 (le_n 1)) Hexec)
      as [(_ & Hcount & _ & _ & Hresolved & Hdone) _].
    assert (Hres : resolved p = true) by (apply Hresolved; reflexivity).
    split; [exact Hres|]. split; [apply (Hdone Hres) | exact Hcount].
Defined.

Lemma record_round_session_other settings mode modelId modelId' earlier result d :
  modelId <> modelId' ->
  Dashboard.sessionResults (Dashboard.record_round settings mode modelId' earlier result d)
    !! modelId
  = Dashboard.sessionResults d !! modelId.
Proof. intros Hne. simpl. apply lookup_insert_ne. congruence. Qed.

Lemma record_round_entry_other settings mode modelId modelId' earlier result d :
  modelId <> modelId' ->
  Dashboard.entry mode modelId (Dashboard.record_round settings mode modelId' earlier result d)
  = Dashboard.entry mode modelId d.
Proof.
  intros Hne. unfold Dashboard.entry, Dashboard.record_round.
  destruct mode; simpl; apply lookup_insert_ne; congruence.
Qed.

Lemma run_session settings mode modelId (results : list (jsstring * RoundResult)) : forall d,
  default [] (Dashboard.sessionResults
                (foldl (fun c tr =>
                          Dashboard.record_round settings mode tr.1
                            (default [] (Dashboard.sessionResults c !! tr.1)) tr.2 c) d results)
              !! modelId)
  = default [] (Dashboard.sessionResults d !! modelId)
    ++ (filter (fun tr => tr.1 = modelId) results).*2.
Proof.
  induction results as [|[modelId' result] results IH] using rev_ind; intros d.
  - simpl. rewrite app_nil_r. reflexivity.
  - rewrite foldl_snoc, filter_app, fmap_app, filter_cons, filter_nil. simpl.
    destruct (decide (modelId' = modelId)) as [->|Hne].
    + rewrite lookup_insert_eq. simpl. rewrite IH, app_assoc. reflexivity.
    + rewrite lookup_insert_ne by assumption. simpl. rewrite app_nil_r. apply IH.
Qed.

(** In a run over several models, whose rounds complete in any interleaving,
    the entry of a model is the aggregate of its own rounds. *)
Lemma run_entry settings mode modelId (results : list (jsstring * RoundResult))
    earlier result queue testResults toolTestResults :
  (filter (fun tr => tr.1 = modelId) results).*2 = earlier ++ [result] ->
  Dashboard.entry mode modelId
    (foldl (fun c tr =>
              Dashboard.record_round settings mode tr.1
                (default [] (Dashboard.sessionResults c !! tr.1)) tr.2 c)
       (Dashboard.fresh queue testResults toolTestResults) results)
  = Some (let a := Dashboard.aggregate settings mode (earlier ++ [result]) result in
          Round.override (Aggregate.avgLatency a) (Aggregate.newStatus a)
            (Aggregate.message a) result).
Proof.
  revert earlier result.
  induction results as [|[modelId' result'] results IH] using rev_ind; intros earlier result.
  - simpl. intros Hnil. destruct earlier; discriminate.
  - rewrite foldl_snoc, filter_app, fmap_app, filter_cons, filter_nil. simpl.
    destruct (decide (modelId' = modelId)) as [->|Hne]; simpl.
    + intros Hrounds. apply app_inj_tail in Hrounds as [Hearlier ->].
      rewrite record_round_entry. rewrite run_session. simpl.
      rewrite lookup_empty. simpl. rewrite Hearlier. reflexivity.
    + rewrite app_nil_r. intros Hrounds.
      rewrite record_round_entry_other by congruence. apply IH, Hrounds.
Qed.

(** After any schedule of the per-model runner over models whose ids name
    nothing inherited, the entry of a model is the aggregate of the rounds
    recorded for it, in the order of their completion. *)
Lemma pool_entry rt api settings mode queue testResults toolTestResults W schedule p
    modelId earlier result :
  (forall modelId, modelId ∈ queue -> modelId ∉ Object_prototype_members) ->
  (1 <= W)%nat ->
  exec Dashboard.usable (Dashboard.probe rt api settings mode)
    (Dashboard.complete_round rt settings mode) schedule
    (start Dashboard.usable W queue (Dashboard.fresh queue testResults toolTestResults))
  = Some p ->
  (filter (fun tr => tr.1 = modelId) (Pool.results p)).*2 = earlier ++ [result] ->
  Dashboard.entry mode modelId (Pool.client p)
  = Some (let a := Dashboard.aggregate settings mode (earlier ++ [result]) result in
          Round.override (Aggregate.avgLatency a) (Aggregate.newStatus a)
            (Aggregate.message a) result).
Proof.
  intros Hids HW Hexec Hrounds.
  destruct (pool_run Dashboard.usable (Dashboard.probe rt api settings mode)
              (Dashboard.complete_round rt settings mode)
              (fun modelId => modelId ∉ Object_prototype_members)
              (Dashboard_probe_returns rt api settings mode)
              (Dashboard_record_returns rt settings mode)
              W queue _ schedule p Hids HW Hexec)
    as (_ & Hprefix & Hflight & _).
  rewrite (run_client _ _ _ _ _ _ _ _ Hexec).
  rewrite Dashboard_recorded
    by exact (results_of_queue Dashboard.usable queue p _ Hprefix Hflight Hids).
  apply run_entry, Hrounds.
Qed.

(** The session results never store a key that they inherit. *)
Lemma recorded_not_inherited rt settings mode (results : list (jsstring * RoundResult)) :
  forall d,
    (forall k, k ∈ Object_prototype_members -> Dashboard.sessionResults d !! k = None) ->
    forall k, k ∈ Object_prototype_members ->
      Dashboard.sessionResults
        (recorded (Dashboard.complete_round rt settings mode) d results) !! k = None.
Proof.
  unfold recorded.
  induction results as [|[modelId result] results IH]; intros d Hd; simpl; [exact Hd|].
  destruct (decide (modelId ∈ Object_prototype_members)) as [Hin|Hown].
  - rewrite complete_round_inherited by auto. apply IH, Hd.
  - rewrite complete_round_recorded by (right; exact Hown). apply IH.
    intros k Hk. simpl. rewrite lookup_insert_ne by (intros ->; contradiction).
    apply Hd, Hk.
Qed.

(** A model whose id names a member that the session results inherit (a
    model called [constructor], say) breaks the run of the per-model runner:
    when its probe settles, whatever it found, the worker throws a TypeError
    at the [push]. The round is not recorded, counted or entered in the
    table, the worker takes no further task, and [Promise.all] is rejected:
    whatever settles afterwards, the run never resolves. *)
Theorem inherited_model_id_rejects_run (rt : Builtins) (api : ApiConfig.t)
    (settings : GlobalSettings.t) (mode : TestMode) (queue : list jsstring)
    (testResults toolTestResults : gmap jsstring RoundResult) (W : nat)
    (schedule : list (nat * World.t)) (p : Pool.t jsstring RoundResult Dashboard.t)
    (i : nat) (modelId : jsstring) (w : World.t) :
  exec Dashboard.usable (Dashboard.probe rt api settings mode)
    (Dashboard.complete_round rt settings mode) schedule
    (start Dashboard.usable W queue (Dashboard.fresh queue testResults toolTestResults))
  = Some p ->
  Pool.workers p !! i = Some (Awaiting modelId) ->
  modelId ∈ Object_prototype_members ->
  exists p',
    settle Dashboard.usable (Dashboard.probe rt api settings mode)
      (Dashboard.complete_round rt settings mode) i w p = Some p'
    /\ Pool.workers p' !! i
       = Some (Rejected (TypeError_not_a_function rt (js "sessionResults[modelId].push")))
    /\ Pool.client p' = Pool.client p
    /\ Pool.results p' = Pool.results p
    /\ Pool.queue p' = Pool.queue p
    /\ forall schedule' p'',
        exec Dashboard.usable (Dashboard.probe rt api settings mode)
          (Dashboard.complete_round rt settings mode) schedule' p' = Some p'' ->
        resolved p'' = false /\ rejected p'' = true.
Proof.
  intros Hexec Hi Hin.
  assert (Hnone : Dashboard.sessionResults (Pool.client p) !! modelId = None).
  { rewrite (run_client _ _ _ _ _ _ _ _ Hexec).
    apply recorded_not_inherited; [|exact Hin].
    intros k _. apply lookup_empty. }
  unfold settle. rewrite Hi.
  destruct (Dashboard_probe_returns rt api settings mode modelId w) as [result ->].
  rewrite complete_round_inherited by assumption.
  eexists. split; [reflexivity|].
  assert (Hrejected :
            Pool.workers
              (reject i (TypeError_not_a_function rt (js "sessionResults[modelId].push")) p)
            !! i
            = Some (Rejected (TypeError_not_a_function rt (js "sessionResults[modelId].push")))).
  { simpl. apply list_lookup_insert_eq. eapply lookup_lt_Some, Hi. }
  split; [exact Hrejected|]. repeat split.
  - eapply rejected_not_resolved, exec_rejected; eassumption.
  - eapply rejected_not_resolved, exec_rejected; eassumption.
Qed.

Lemma inherited_model_id_rejects_run_witness :
  exists p',
    settle Dashboard.usable
      (Dashboard.probe (example_runtime []) (example_api "https://api.example.com")
         (example_settings 1 1) mode_latency)
      (Dashboard.complete_round (example_runtime []) (example_settings 1 1) mode_latency)
      0 (example_world (FetchResponse (response_200 "{}")))
      (start Dashboard.usable 1 [js "constructor"]
         (Dashboard.fresh [js "constructor"] ∅ ∅)) = Some p'
    /\ Pool.results p' = []
    /\ resolved p' = false
    /\ rejected p' = true.
Proof.
  destruct (inherited_model_id_rejects_run (example_runtime [])
              (example_api "https://api.example.com") (example_settings 1 1) mode_latency
              [js "constructor"] ∅ ∅ 1 []
              (start Dashboard.usable 1 [js "constructor"]
                 (Dashboard.fresh [js "constructor"] ∅ ∅))
              0 (js "constructor") (example_world (FetchResponse (response_200 "{}"))))
    as (p' & Hsettle & _ & _ & Hresults & _ & Hnever).
  - reflexivity.
  - reflexivity.
  - apply (bool_decide_unpack _). vm_compute. exact I.
  - exists p'. split; [exact Hsettle|]. split; [exact Hresults|].
    apply (Hnever [] p'). reflexivity.
Defined.

(** ** The audit log: queries, statistics and clearing *)

Lemma getLogs_cursor_collecting limit offset (visited : list RequestLog.t) :
  forall results skippedCount,
    getLogs_cursor limit offset results true skippedCount visited
    = results ++ take (Z.to_nat (Z.max 1 (limit - Z.of_nat (length results)))) visited.
Proof.
  induction visited as [|value visited IH]; intros results skippedCount; simpl.
  - rewrite take_nil, app_nil_r. reflexivity.
  - rewrite length_app. simpl.
    destruct (Z.ltb_spec (Z.of_nat (length results + 1)) limit) as [Hlt | Hge].
    + rewrite IH, length_app. simpl. rewrite <- app_assoc. f_equal. simpl.
      replace (Z.to_nat (Z.max 1 (limit - Z.of_nat (length results))))
        with (S (Z.to_nat (Z.max 1 (limit - Z.of_nat (length results + 1))))) by lia.
      reflexivity.
    + replace (Z.to_nat (Z.max 1 (limit - Z.of_nat (length results)))) with 1%nat by lia.
      simpl. rewrite take_0. reflexivity.
Qed.

Lemma getLogs_cursor_skipping limit offset (visited : list RequestLog.t) :
  forall results skippedCount,
    getLogs_cursor limit offset results false skippedCount visited
    = results ++ take (Z.to_nat (Z.max 1 (limit - Z.of_nat (length results))))
                   (drop (Z.to_nat (offset - skippedCount)) visited).
Proof.
  induction visited as [|value visited IH]; intros results skippedCount; simpl.
  - rewrite drop_nil, take_nil, app_nil_r. reflexivity.
  - destruct (Z.ltb_spec skippedCount offset) as [Hlt | Hge].
    + rewrite IH.
      replace (Z.to_nat (offset - skippedCount))
        with (S (Z.to_nat (offset - (skippedCount + 1)))) by lia.
      reflexivity.
    + replace (Z.to_nat (offset - skippedCount)) with 0%nat by lia.
      rewrite drop_0.
      pose proof (getLogs_cursor_collecting limit offset (value :: visited) results skippedCount)
        as Hcollect.
      simpl in Hcollect. exact Hcollect.
Qed.

(** The cursor loop of [getLogs]: of the records that the cursor visits,
    the first [offset] are skipped and the next [limit] are collected, but
    at least one if one is left. *)
Theorem getLogs_cursor_window (limit offset : Z) (visited : list RequestLog.t) :
  getLogs_cursor limit offset [] false 0 visited
  = take (Z.to_nat (Z.max 1 limit)) (drop (Z.to_nat offset) visited).
Proof.
  rewrite getLogs_cursor_skipping. simpl.
  rewrite Z.sub_0_r, Z.sub_0_r. reflexivity.
Qed.

Lemma key_lt_irrefl (a : jsstring) : key_lt a a = false.
Proof.
  induction a as [|x a IH]; simpl; [reflexivity|].
  rewrite N.ltb_irrefl, N.eqb_refl, IH. reflexivity.
Qed.

Lemma key_lt_total (a : jsstring) : forall b, key_lt a b = false \/ key_lt b a = false.
Proof.
  induction a as [|x a IH]; intros [|y b]; simpl; auto.
  destruct (N.ltb_spec x y), (N.ltb_spec y x), (N.eqb_spec x y), (N.eqb_spec y x);
    simpl; try lia; auto.
Qed.

Lemma key_ge_trans (a : jsstring) : forall b c,
  key_lt a b = false -> key_lt b c = false -> key_lt a c = false.
Proof.
  induction a as [|x a IH]; intros [|y b] [|z c]; simpl; auto; try discriminate.
  destruct (N.ltb_spec x y), (N.ltb_spec y z), (N.ltb_spec x z),
    (N.eqb_spec x y), (N.eqb_spec y z), (N.eqb_spec x z);
    simpl; try lia; try discriminate; eauto.
Qed.

#[local] Instance cursor_prev_total : Total cursor_prev.
Proof.
  intros a b. unfold cursor_prev.
  destruct (Z.lt_trichotomy (RequestLog.timestamp a) (RequestLog.timestamp b))
    as [Hlt | [Heq | Hgt]]; [right; left; lia | | left; left; lia].
  destruct (key_lt_total (RequestLog.id a) (RequestLog.id b));
    [left | right]; right; split; auto.
Qed.

#[local] Instance cursor_prev_trans : Transitive cursor_prev.
Proof.
  intros a b c [Hab | [Hab Hkab]] [Hbc | [Hbc Hkbc]]; unfold cursor_prev;
    [left; lia | left; lia | left; lia |].
  right. split; [lia|]. eapply key_ge_trans; eassumption.
Qed.

Lemma getLogs_visited limit offset db records :
  getLogs limit offset db = Some records ->
  Database.opens db = true
  /\ records = take (Z.to_nat (Z.max 1 limit))
                 (drop (Z.to_nat offset)
                    (merge_sort cursor_prev (map_to_list (Database.rows db)).*2)).
Proof.
  unfold getLogs. destruct (Database.opens db); [|discriminate].
  intros [= <-]. auto.
Qed.

Lemma visited_length (db : Database.t) :
  length (merge_sort cursor_prev (map_to_list (Database.rows db)).*2)
  = size (Database.rows db).
Proof.
  rewrite (Permutation_length (merge_sort_Permutation cursor_prev _)).
  rewrite length_fmap, length_map_to_list. reflexivity.
Qed.

(** [getLogs] returns the latest records first: a record never comes
    before one with a later timestamp. *)
Theorem getLogs_latest_first (limit offset : Z) (db : Database.t)
    (records : list RequestLog.t) (i j : nat) (a b : RequestLog.t) :
  getLogs limit offset db = Some records ->
  records !! i = Some a ->
  records !! j = Some b ->
  (i < j)%nat ->
  RequestLog.timestamp b <= RequestLog.timestamp a.
Proof.
  intros Hlogs Hi Hj Hlt.
  apply getLogs_visited in Hlogs as [_ ->].
  set (visited := merge_sort cursor_prev (map_to_list (Database.rows db)).*2) in *.
  assert (Hsorted : StronglySorted cursor_prev visited)
    by apply (StronglySorted_merge_sort cursor_prev).
  rewrite <- (take_drop (Z.to_nat offset) visited) in Hsorted.
  apply StronglySorted_app_1_r in Hsorted.
  rewrite <- (take_drop (Z.to_nat (Z.max 1 limit)) (drop (Z.to_nat offset) visited)) in Hsorted.
  apply StronglySorted_app_1_l in Hsorted.
  revert Hsorted Hi Hj.
  generalize (take (Z.to_nat (Z.max 1 limit)) (drop (Z.to_nat offset) visited)).
  intros l Hsorted Hi Hj.
  apply list_elem_of_split_length in Hi as (l1 & l2 & -> & ->).
  rewrite lookup_app_r in Hj by lia.
  destruct (j - length l1)%nat as [|j'] eqn:Hj'; [lia|]. simpl in Hj.
  apply StronglySorted_app_1_r in Hsorted.
  apply StronglySorted_inv in Hsorted as [_ Hall].
  rewrite Forall_forall in Hall.
  assert (Hab : cursor_prev a b).
  { apply Hall. eapply list_elem_of_lookup_2. eassumption. }
  destruct Hab as [? | [? _]]; lia.
Qed.

Lemma getLogs_latest_first_witness :
  exists records a b,
    getLogs 2 0 sample_database = Some records
    /\ records !! 0%nat = Some a /\ records !! 1%nat = Some b
    /\ RequestLog.timestamp b <= RequestLog.timestamp a.
Proof.
  eexists _, _, _. split; [vm_compute; reflexivity|].
  split; [reflexivity|]. split; [reflexivity|].
  apply (getLogs_latest_first 2 0 sample_database
           [log_at "c" 1700000000300 0 15; log_at "b" 1700000000200 500 80] 0 1);
    [vm_compute; reflexivity | reflexivity | reflexivity | lia].
Defined.

(** [getLogs] returns [min (max 1 limit) (n - offset)] of the [n] stored
    records, each of them a stored record: a limit of zero or less still
    yields one record when the offset leaves one. *)
Theorem getLogs_size (limit offset : Z) (db : Database.t) (records : list RequestLog.t) :
  getLogs limit offset db = Some records ->
  length records
  = Nat.min (Z.to_nat (Z.max 1 limit)) (size (Database.rows db) - Z.to_nat offset)
  /\ (forall r, r ∈ records -> exists k, Database.rows db !! k = Some r)
  /\ (limit <= 0 -> (Z.to_nat offset < size (Database.rows db))%nat -> length records = 1%nat).
Proof.
  intros Hlogs. apply getLogs_visited in Hlogs as [_ ->].
  assert (Hlen : length (take (Z.to_nat (Z.max 1 limit))
                           (drop (Z.to_nat offset)
                              (merge_sort cursor_prev (map_to_list (Database.rows db)).*2)))
                 = Nat.min (Z.to_nat (Z.max 1 limit))
                     (size (Database.rows db) - Z.to_nat offset)).
  { rewrite length_take, length_drop, visited_length. reflexivity. }
  split; [exact Hlen|]. split.
  - intros r Hr.
    apply (subseteq_take (Z.to_nat (Z.max 1 limit))) in Hr.
    apply (subseteq_drop (Z.to_nat offset)) in Hr.
    rewrite merge_sort_Permutation in Hr.
    apply list_elem_of_fmap in Hr as ([k r'] & -> & Hr).
    exists k. apply elem_of_map_to_list. exact Hr.
  - intros Hlimit Hoffset. rewrite Hlen. lia.
Qed.

Lemma getLogs_size_witness :
  exists records, getLogs 0 0 sample_database = Some records /\ length records = 1%nat.
Proof.
  exists [log_at "c" 1700000000300 0 15]. split; [vm_compute; reflexivity|].
  apply (getLogs_size 0 0 sample_database [log_at "c" 1700000000300 0 15]);
    [vm_compute; reflexivity | lia | vm_compute; lia].
Defined.

(** Pages of [getLogs] follow one another: a page of [limit] records and
    the page of [limit'] records at the offset after it make up the page of
    [limit + limit'] records. *)
Theorem getLogs_pages (limit limit' offset : Z) (db : Database.t)
    (page page' : list RequestLog.t) :
  1 <= limit -> 1 <= limit' -> 0 <= offset ->
  getLogs limit offset db = Some page ->
  getLogs limit' (offset + limit) db = Some page' ->
  getLogs (limit + limit') offset db = Some (page ++ page').
Proof.
  intros Hlimit Hlimit' Hoffset Hpage Hpage'.
  apply getLogs_visited in Hpage as [Hopen ->].
  apply getLogs_visited in Hpage' as [_ ->].
  unfold getLogs. rewrite Hopen. f_equal.
  replace (Z.to_nat (Z.max 1 (limit + limit')))
    with (Z.to_nat (Z.max 1 limit) + Z.to_nat (Z.max 1 limit'))%nat by lia.
  rewrite <- take_take_drop, drop_drop.
  replace (Z.to_nat (offset + limit)) with (Z.to_nat offset + Z.to_nat (Z.max 1 limit))%nat by lia.
  reflexivity.
Qed.

Lemma getLogs_pages_witness :
  getLogs (1 + 2) 0 sample_database
  = Some ([log_at "c" 1700000000300 0 15]
          ++ [log_at "b" 1700000000200 500 80; log_at "a" 1700000000100 200 120]).
Proof.
  apply getLogs_pages; [lia | lia | lia | vm_compute; reflexivity | vm_compute; reflexivity].
Defined.

(** [saveLog] only ever adds: a stored record is neither changed nor
    removed by any call of a probe, and a call adds at most one record. *)
Theorem audit_log_append_only {A} (o : Outcome.t A) (db : Database.t) :
  (forall k r, Database.rows db !! k = Some r -> Database.rows (persist o db) !! k = Some r)
  /\ (size (Database.rows (persist o db)) <= S (size (Database.rows db)))%nat.
Proof.
  assert (Hsave : forall log db',
             Database.rows (saveLog log db') = Database.rows db'
             \/ (Database.rows db' !! RequestLog.id log = None
                 /\ Database.rows (saveLog log db')
                    = <[RequestLog.id log := log]> (Database.rows db'))).
  { intros log db'. unfold saveLog, store_add.
    destruct (Database.opens db'); [|auto].
    destruct (Database.rows db' !! RequestLog.id log) eqn:Hrow; auto. }
  unfold persist. destruct (Outcome.final o) as [s|]; [|split; [auto | lia]].
  generalize (Probe.saveLog_calls s) as n. intros n.
  assert (Hiter : Database.rows (Nat.iter n (saveLog (Probe.log s)) db) = Database.rows db
                  \/ (Database.rows db !! RequestLog.id (Probe.log s) = None
                      /\ Database.rows (Nat.iter n (saveLog (Probe.log s)) db)
                         = <[RequestLog.id (Probe.log s) := Probe.log s]> (Database.rows db))).
  { induction n as [|n IH]; [auto|].
    change (Nat.iter (S n) (saveLog (Probe.log s)) db)
      with (saveLog (Probe.log s) (Nat.iter n (saveLog (Probe.log s)) db)).
    destruct (Hsave (Probe.log s) (Nat.iter n (saveLog (Probe.log s)) db))
      as [Hsame | [Hfresh Hadd]].
    - rewrite Hsame. exact IH.
    - destruct IH as [IH | [Hnone IH]].
      + right. rewrite IH in Hfresh, Hadd. auto.
      + rewrite IH, lookup_insert_eq in Hfresh. discriminate. }
  destruct Hiter as [-> | [Hnone ->]].
  - split; [auto | lia].
  - split.
    + intros k r Hrow. rewrite lookup_insert_ne; [assumption|]. congruence.
    + rewrite map_size_insert_None by assumption. lia.
Qed.

Lemma count_log_from (logs : list RequestLog.t) : forall success error totalLatency,
  foldl count_log (success, error, totalLatency) logs
  = (success + (foldl count_log (0, 0, 0) logs).1.1,
     error + (foldl count_log (0, 0, 0) logs).1.2,
     totalLatency + (foldl count_log (0, 0, 0) logs).2).
Proof.
  induction logs as [|l logs IH]; intros success error totalLatency; simpl.
  - f_equal; [f_equal|]; lia.
  - destruct ((200 <=? RequestLog.status l) && (RequestLog.status l <? 300));
      rewrite IH; symmetry; rewrite IH; simpl; f_equal; [f_equal| |f_equal|]; lia.
Qed.

Lemma count_log_counts (logs : list RequestLog.t) :
  (foldl count_log (0, 0, 0) logs).1.1 + (foldl count_log (0, 0, 0) logs).1.2
  = Z.of_nat (length logs)
  /\ 0 <= (foldl count_log (0, 0, 0) logs).1.1
  /\ 0 <= (foldl count_log (0, 0, 0) logs).1.2.
Proof.
  induction logs as [|l logs (IH & Hs & He)]; simpl; [lia|].
  destruct ((200 <=? RequestLog.status l) && (RequestLog.status l <? 300));
    rewrite count_log_from; simpl; lia.
Qed.

Lemma count_log_latency (logs : list RequestLog.t) (lo hi : Z) :
  Forall (fun l => lo <= RequestLog.latency l <= hi) logs ->
  Z.of_nat (length logs) * lo <= (foldl count_log (0, 0, 0) logs).2
  <= Z.of_nat (length logs) * hi.
Proof.
  induction 1 as [|l logs Hl Hlogs IH]; simpl; [lia|].
  destruct ((200 <=? RequestLog.status l) && (RequestLog.status l <? 300));
    rewrite count_log_from; simpl; lia.
Qed.

Lemma getLogsStats_logs db stats :
  getLogsStats db = Some stats ->
  exists logs,
    getLogs 500 0 db = Some logs
    /\ stats = if bool_decide (length logs = 0%nat) then
                 {| LogsStats.total := 0; LogsStats.success := 0; LogsStats.error := 0;
                    LogsStats.avgLatency := 0 |}
               else
                 {| LogsStats.total := Z.of_nat (length logs);
                    LogsStats.success := (foldl count_log (0, 0, 0) logs).1.1;
                    LogsStats.error := (foldl count_log (0, 0, 0) logs).1.2;
                    LogsStats.avgLatency :=
                      Math_round_div (foldl count_log (0, 0, 0) logs).2
                        (Z.of_nat (length logs)) |}.
Proof.
  unfold getLogsStats. destruct (getLogs 500 0 db) as [logs|]; [|discriminate].
  intros Hstats. exists logs. split; [reflexivity|].
  case_bool_decide; [congruence|].
  destruct (foldl count_log (0, 0, 0) logs) as [[success error] totalLatency].
  simpl. congruence.
Qed.

(** The statistics of [getLogsStats] cover the latest 500 records at most,
    and every record counted is either a success or an error. *)
Theorem getLogsStats_counts (db : Database.t) (stats : LogsStats.t) :
  getLogsStats db = Some stats ->
  LogsStats.total stats = Z.of_nat (Nat.min 500 (size (Database.rows db)))
  /\ LogsStats.total stats = LogsStats.success stats + LogsStats.error stats
  /\ 0 <= LogsStats.success stats
  /\ 0 <= LogsStats.error stats.
Proof.
  intros Hstats. apply getLogsStats_logs in Hstats as (logs & Hlogs & ->).
  apply getLogs_size in Hlogs as (Hlen & _ & _).
  change (Z.to_nat (Z.max 1 500)) with 500%nat in Hlen.
  change (Z.to_nat 0) with 0%nat in Hlen. rewrite Nat.sub_0_r in Hlen.
  pose proof (count_log_counts logs) as (Hsum & Hs & He).
  rewrite <- Hlen. clear Hlen.
  case_bool_decide as Hempty.
  - rewrite Hempty. simpl. lia.
  - cbn [LogsStats.total LogsStats.success LogsStats.error]. lia.
Qed.

Lemma getLogsStats_counts_witness :
  exists stats,
    getLogsStats sample_database = Some stats
    /\ LogsStats.total stats = LogsStats.success stats + LogsStats.error stats.
Proof.
  eexists. split; [vm_compute; reflexivity|].
  apply (getLogsStats_counts sample_database). vm_compute. reflexivity.
Defined.

(** The average latency of [getLogsStats] lies between the least and the
    greatest latency stored. *)
Theorem getLogsStats_avgLatency_bounds (db : Database.t) (stats : LogsStats.t) (lo hi : Z) :
  getLogsStats db = Some stats ->
  Database.rows db <> ∅ ->
  (forall k r, Database.rows db !! k = Some r -> lo <= RequestLog.latency r <= hi) ->
  lo <= LogsStats.avgLatency stats <= hi.
Proof.
  intros Hstats Hrows Hbounds.
  apply getLogsStats_logs in Hstats as (logs & Hlogs & ->).
  pose proof (getLogs_size _ _ _ _ Hlogs) as (Hlen & Hstored & _).
  change (Z.to_nat (Z.max 1 500)) with 500%nat in Hlen.
  change (Z.to_nat 0) with 0%nat in Hlen. rewrite Nat.sub_0_r in Hlen.
  assert (Hsize : size (Database.rows db) <> 0%nat).
  { intros Hzero. apply Hrows. apply map_size_empty_inv. exact Hzero. }
  rewrite bool_decide_eq_false_2 by lia. simpl.
  assert (Hall : Forall (fun l => lo <= RequestLog.latency l <= hi) logs).
  { apply Forall_forall. intros r Hr. destruct (Hstored r Hr) as [k Hk]. eauto. }
  apply count_log_latency in Hall.
  unfold Math_round_div.
  set (n := Z.of_nat (length logs)) in *.
  set (total := (foldl count_log (0, 0, 0) logs).2) in *.
  assert (0 < n) by lia.
  split.
  - apply Z.div_le_lower_bound; nia.
  - apply Z.lt_succ_r. apply Z.div_lt_upper_bound; nia.
Qed.

Lemma getLogsStats_avgLatency_bounds_witness :
  exists stats,
    getLogsStats sample_database = Some stats
    /\ 15 <= LogsStats.avgLatency stats <= 120.
Proof.
  eexists. split; [vm_compute; reflexivity|].
  apply (getLogsStats_avgLatency_bounds sample_database).
  - vm_compute. reflexivity.
  - vm_compute. discriminate.
  - intros k r Hrow. apply elem_of_map_to_list in Hrow.
    assert (Hall : Forall (fun kr : jsstring * RequestLog.t =>
                             15 <= RequestLog.latency kr.2 <= 120)
                     (map_to_list (Database.rows sample_database))).
    { apply (bool_decide_unpack _). vm_compute. exact I. }
    rewrite Forall_forall in Hall. exact (Hall (k, r) Hrow).
Defined.

(** [clearLogs] leaves an empty log: every query returns no record, the
    statistics are all zero, and any record can be saved again, also one
    whose id was stored before. *)
Theorem clearLogs_empties (db db' : Database.t) :
  clearLogs db = Some db' ->
  (forall limit offset, getLogs limit offset db' = Some [])
  /\ getLogsStats db'
     = Some {| LogsStats.total := 0; LogsStats.success := 0; LogsStats.error := 0;
               LogsStats.avgLatency := 0 |}
  /\ (forall log, Database.rows (saveLog log db') !! RequestLog.id log = Some log).
Proof.
  unfold clearLogs. destruct (Database.opens db); [|discriminate].
  intros [= <-].
  assert (Hlogs : forall limit offset,
             getLogs limit offset {| Database.opens := true; Database.rows := ∅ |} = Some []).
  { intros limit offset. unfold getLogs. simpl.
    rewrite map_to_list_empty.
    change (merge_sort cursor_prev (([] : list (jsstring * RequestLog.t)).*2))
      with ([] : list RequestLog.t).
    rewrite drop_nil, take_nil. reflexivity. }
  split; [exact Hlogs|]. split.
  - unfold getLogsStats. rewrite Hlogs. reflexivity.
  - intros log. unfold saveLog, store_add. simpl.
    rewrite lookup_empty. simpl. apply lookup_insert_eq.
Qed.

Lemma clearLogs_empties_witness :
  exists db', clearLogs sample_database = Some db' /\ getLogs 200 0 db' = Some [].
Proof.
  eexists. split; [reflexivity|].
  apply (clearLogs_empties sample_database). reflexivity.
Defined.

(** ** The probe executor: requests, custom entries, results *)

#[local] Arguments slice_0 : simpl never.

Lemma obj_replace_lookup {A} (k k' : jsstring) (v : A) (fields : list (jsstring * A)) :
  is_Some (assoc k' fields) ->
  assoc k (obj_replace k' v fields) = if bool_decide (k' = k) then Some v else assoc k fields.
Proof.
  induction fields as [|[k0 v0] fields IH]; simpl.
  - intros [? ?]. discriminate.
  - destruct (bool_decide (k0 = k')) eqn:Hk0; simpl.
    + intros _. apply bool_decide_eq_true in Hk0 as ->. case_bool_decide; reflexivity.
    + intros Hsome. rewrite IH by exact Hsome. apply bool_decide_eq_false in Hk0.
      repeat case_bool_decide; congruence.
Qed.

Lemma obj_add_lookup {A} (k k' : jsstring) (v : A) (fields : list (jsstring * A)) :
  assoc k' fields = None ->
  assoc k (obj_add k' v fields) = if bool_decide (k' = k) then Some v else assoc k fields.
Proof.
  induction fields as [|[k0 v0] fields IH]; simpl.
  - intros _. case_bool_decide; reflexivity.
  - destruct (bool_decide (k0 = k')) eqn:Hk0; [discriminate|].
    apply bool_decide_eq_false in Hk0. intros Hnone.
    destruct (array_index k') as [n|]; [destruct (array_index k0) as [n0|];
      [destruct (n <? n0)%N|]|]; simpl; rewrite ?IH by exact Hnone;
      repeat case_bool_decide; congruence.
Qed.

Lemma obj_set_lookup {A} (k k' : jsstring) (v : A) (fields : list (jsstring * A)) :
  assoc k (obj_set k' v fields) = if bool_decide (k' = k) then Some v else assoc k fields.
Proof.
  unfold obj_set. destruct (assoc k' fields) as [v'|] eqn:Hk'.
  - apply obj_replace_lookup. rewrite Hk'. eauto.
  - apply obj_add_lookup, Hk'.
Qed.

(** A spread lists array indices first, whatever the order they came in. *)
Example obj_spread_orders_keys :
  obj_spread [(js "model", 1); (js "stream", 2)]
    [(js "b", 3); (js "10", 4); (js "2", 5); (js "model", 6)]
  = [(js "2", 5); (js "10", 4); (js "model", 6); (js "stream", 2); (js "b", 3)].
Proof. reflexivity. Qed.

(** In [{...a, ...b}] the last binding of a key in [b] wins; a key that [b]
    does not bind keeps its value of [a]. *)
Lemma obj_spread_lookup {A} (k : jsstring) (a b : list (jsstring * A)) :
  assoc k (obj_spread a b)
  = match assoc k (rev b) with Some v => Some v | None => assoc k a end.
Proof.
  unfold obj_spread. induction b as [|[k' v] b IH] using rev_ind; [reflexivity|].
  rewrite foldl_snoc, rev_unit. simpl. rewrite obj_set_lookup, IH.
  case_bool_decide; reflexivity.
Qed.

(** The read loop of a streaming exchange issues no request and reads no
    clock; what it hands to [onChunk] is truthy. *)
Lemma stream_line_delivers rt onChunk fullText line s :
  let s' := (stream_line rt onChunk fullText line s).2 in
  Probe.requests s' = Probe.requests s
  /\ Probe.perf_reads s' = Probe.perf_reads s
  /\ exists new, Probe.delivered s' = Probe.delivered s ++ new
                 /\ Forall (fun content => truthy content = true) new.
Proof.
  assert (Hnone : exists new : list jsval,
             Probe.delivered s = Probe.delivered s ++ new
             /\ Forall (fun content => truthy content = true) new).
  { exists []. rewrite app_nil_r. auto. }
  unfold stream_line.
  destruct (startsWith line (js "data: ") && negb (bool_decide (line = js "data: [DONE]")));
    [|simpl; auto].
  unfold try_catch, bind, lift, ret.
  destruct (JSON_parse rt _) as [json|e]; [|simpl; auto].
  destruct (get_strict rt json (js "choices")) as [choices|e]; [|simpl; auto].
  destruct (truthy _) eqn:Htruthy; [|simpl; auto].
  unfold deliver.
  match goal with |- context [onChunk ?a ?b] => destruct (onChunk a b) end;
    [destruct (ToString rt _)|]; simpl;
    (split; [reflexivity|]; split; [reflexivity|]; eexists [_]; split; [reflexivity|];
     constructor; [exact Htruthy | constructor]).
Qed.

Lemma stream_lines_delivers rt onChunk lines : forall fullText s,
  let s' := (stream_lines rt onChunk fullText lines s).2 in
  Probe.requests s' = Probe.requests s
  /\ Probe.perf_reads s' = Probe.perf_reads s
  /\ exists new, Probe.delivered s' = Probe.delivered s ++ new
                 /\ Forall (fun content => truthy content = true) new.
Proof.
  induction lines as [|line lines IH]; intros fullText s; simpl.
  - split; [reflexivity|]. split; [reflexivity|]. exists []. rewrite app_nil_r. auto.
  - unfold bind.
    destruct (stream_line_keeps rt onChunk fullText line s) as (ft & s1 & Hline & _).
    pose proof (stream_line_delivers rt onChunk fullText line s) as Hs1.
    rewrite Hline in Hs1 |- *. simpl in Hs1.
    destruct Hs1 as (Hreq & Hperf & new & Hnew & Htruthy).
    destruct (IH ft s1) as (Hreq' & Hperf' & new' & Hnew' & Htruthy').
    split; [congruence|]. split; [congruence|].
    exists (new ++ new'). split.
    + rewrite Hnew', Hnew, app_assoc. reflexivity.
    + apply Forall_app. auto.
Qed.

Lemma read_stream_delivers rt onChunk failure chunks : forall fullText rawStream s,
  let s' := (read_stream rt onChunk fullText rawStream chunks failure s).2 in
  Probe.requests s' = Probe.requests s
  /\ Probe.perf_reads s' = Probe.perf_reads s
  /\ exists new, Probe.delivered s' = Probe.delivered s ++ new
                 /\ Forall (fun content => truthy content = true) new.
Proof.
  induction chunks as [|chunkValue chunks IH]; intros fullText rawStream s; simpl.
  - destruct failure; simpl;
      (split; [reflexivity|]; split; [reflexivity|]; exists []; rewrite app_nil_r; auto).
  - unfold bind.
    destruct (stream_lines_keeps rt onChunk (split 10 chunkValue) fullText s)
      as (ft & s1 & Hlines & _).
    pose proof (stream_lines_delivers rt onChunk (split 10 chunkValue) fullText s) as Hs1.
    rewrite Hlines in Hs1 |- *. simpl in Hs1.
    destruct Hs1 as (Hreq & Hperf & new & Hnew & Htruthy).
    destruct (IH ft (rawStream ++ chunkValue) s1) as (Hreq' & Hperf' & new' & Hnew' & Htruthy').
    split; [congruence|]. split; [congruence|].
    exists (new ++ new'). split.
    + rewrite Hnew', Hnew, app_assoc. reflexivity.
    + apply Forall_app. auto.
Qed.

Lemma fetchModels_frame rt w api :
  models_disabled api = false ->
  getEndpoint api models <> [] ->
  frame_of (fetchModels rt w api)
    (createLogEntry w api log_models (getEndpoint api models) (js "GET") VUndefined VUndefined)
    {| HttpRequest.method := js "GET"; HttpRequest.url := getEndpoint api models;
       HttpRequest.headers := request_headers api; HttpRequest.body := None;
       HttpRequest.deadline := Some 10000 |}.
Proof.
  intros Hon Hurl. unfold frame_of, fetchModels. rewrite Hon.
  rewrite bool_decide_eq_false_2 by assumption.
  unfold Outcome.log, Outcome.requests. simpl.
  eexists. split; [reflexivity|].
  probe_unfold.
  destruct (World.fetched w) as [response | e | text]; simpl.
  - destruct (Response.ok response); simpl.
    + destruct (Response_json rt response) as [data|e]; simpl.
      * destruct data; simpl; try (case_bool_decide; simpl); frame_done.
        match goal with |- context [default VUndefined ?o] => destruct o as [[]|] end;
          simpl; frame_done.
      * case_bool_decide; simpl; frame_done.
    + destruct (Response_text response); simpl; try case_bool_decide; simpl; frame_done.
  - case_bool_decide; simpl; frame_done.
  - frame_done.
Qed.

Lemma testModelLatency_frame rt w api modelId timeoutSeconds stream :
  getEndpoint api chat <> [] ->
  let requestBody :=
    VObj (obj_spread (testModelLatency_fields modelId stream)
            (default [] (ApiConfig.customParams api))) in
  frame_of (testModelLatency rt w api modelId timeoutSeconds stream)
    (createLogEntry w api log_test (getEndpoint api chat) (js "POST") (VStr modelId) requestBody)
    {| HttpRequest.method := js "POST"; HttpRequest.url := getEndpoint api chat;
       HttpRequest.headers := request_headers api;
       HttpRequest.body := Some (JSON_stringify rt requestBody);
       HttpRequest.deadline := Some (timeoutSeconds * 1000) |}.
Proof.
  intros Hurl. unfold frame_of, testModelLatency, testModelLatency_fields.
  rewrite bool_decide_eq_false_2 by assumption.
  unfold Outcome.log, Outcome.requests. simpl.
  eexists. split; [reflexivity|].
  probe_unfold.
  destruct (World.fetched w) as [response | e | text]; simpl; frame_done.
  destruct (Response.ok response); simpl.
  - destruct stream; simpl.
    + unfold drain. destruct (Response_text response); simpl; frame_done.
    + destruct (Response_json rt response); simpl; frame_done.
  - destruct (Response_text response); simpl; frame_done.
Qed.

Lemma testModelToolSupport_frame rt w api modelId timeoutSeconds :
  getEndpoint api chat <> [] ->
  let requestBody :=
    VObj (obj_spread (testModelToolSupport_fields modelId)
            (default [] (ApiConfig.customParams api))) in
  frame_of (testModelToolSupport rt w api modelId timeoutSeconds)
    (createLogEntry w api log_tool_check (getEndpoint api chat) (js "POST") (VStr modelId)
       requestBody)
    {| HttpRequest.method := js "POST"; HttpRequest.url := getEndpoint api chat;
       HttpRequest.headers := request_headers api;
       HttpRequest.body := Some (JSON_stringify rt requestBody);
       HttpRequest.deadline := Some (timeoutSeconds * 1000) |}.
Proof.
  intros Hurl. unfold frame_of, testModelToolSupport, testModelToolSupport_fields.
  rewrite bool_decide_eq_false_2 by assumption.
  unfold Outcome.log, Outcome.requests. simpl.
  eexists. split; [reflexivity|].
  probe_unfold.
  destruct (World.fetched w) as [response | e | text]; simpl; frame_done.
  destruct (Response.ok response); simpl.
  - destruct (Response_json rt response) as [data|e]; simpl; frame_done.
    unfold get_strict. destruct (nullish data); simpl; frame_done.
  - destruct (Response_text response); simpl; frame_done.
Qed.

Lemma sendChatMessage_frame rt w api requestBody onChunk :
  getEndpoint api chat <> [] ->
  let finalBody := VObj (obj_spread requestBody (default [] (ApiConfig.customParams api))) in
  frame_of (sendChatMessage rt w api requestBody onChunk)
    (createLogEntry w api log_chat (getEndpoint api chat) (js "POST")
       (get (VObj requestBody) (js "model")) finalBody)
    {| HttpRequest.method := js "POST"; HttpRequest.url := getEndpoint api chat;
       HttpRequest.headers := request_headers api;
       HttpRequest.body := Some (JSON_stringify rt finalBody);
       HttpRequest.deadline := None |}.
Proof.
  intros Hurl. unfold frame_of, sendChatMessage.
  rewrite bool_decide_eq_false_2 by assumption.
  unfold Outcome.log, Outcome.requests. simpl.
  eexists. split; [reflexivity|].
  probe_unfold.
  destruct (World.fetched w) as [response | e | text]; simpl;
    try (try case_bool_decide; simpl; frame_done; fail).
  destruct (Response.ok response); simpl.
  - destruct (truthy _); simpl.
    + destruct (Response.body response) as [body|]; simpl;
        [|try case_bool_decide; simpl; frame_done].
      match goal with |- context [read_stream rt onChunk ?ft ?rs ?cs ?f ?s] =>
        pose proof (read_stream_keeps rt onChunk f cs ft rs s) as (Hlog & _ & _);
        pose proof (read_stream_delivers rt onChunk f cs ft rs s) as (Hreq & _ & _);
        destruct (read_stream rt onChunk ft rs cs f s) as [[read|e] s']
      end; simpl in *; rewrite ?Hlog, ?Hreq; simpl;
        try case_bool_decide; simpl; frame_done.
    + destruct (Response_json rt response) as [data|e]; simpl;
        [|try case_bool_decide; simpl; frame_done].
      unfold get_strict. destruct (nullish data); simpl;
        [try case_bool_decide; simpl; frame_done|].
      unfold deliver. simpl.
      match goal with |- context [onChunk ?a ?b] => destruct (onChunk a b) end; simpl;
        try case_bool_decide; simpl; frame_done.
  - destruct (Response_text response); simpl; try case_bool_decide; simpl; frame_done.
Qed.

Lemma frame_issues_one {A} rt api (o : Outcome.t A) created request :
  frame_of o created request ->
  HttpRequest.headers request = request_headers api ->
  log_describes rt created request ->
  issues_one_request rt api (HttpRequest.url request) o.
Proof.
  intros (log & Hlog & Hsame & Hreq) Hheaders (Hmethod & Hurl & Hbody).
  destruct Hsame as (_ & _ & _ & _ & _ & _ & Hm & Hu & Hb).
  exists log, request. unfold log_describes. rewrite Hm, Hu, Hb. auto 10.
Qed.

(** An operation that has an endpoint issues exactly one request (it never
    retries): to the endpoint that [getEndpoint] resolves, with the headers of
    the configuration; the log records the method, the URL and the request
    body of that request. An operation that its configuration guard stops
    issues none. *)
Theorem probes_issue_one_request (rt : Builtins) (w : World.t) (api : ApiConfig.t)
    (modelId : jsstring) (timeoutSeconds : Z) (stream : bool)
    (requestBody : list (jsstring * jsval))
    (onChunk : list jsval -> jsval -> Completion unit) :
  (if models_disabled api || bool_decide (getEndpoint api models = [])
   then Outcome.requests (fetchModels rt w api) = []
   else issues_one_request rt api (getEndpoint api models) (fetchModels rt w api))
  /\ (if bool_decide (getEndpoint api chat = [])
      then Outcome.requests (testModelLatency rt w api modelId timeoutSeconds stream) = []
           /\ Outcome.requests (testModelToolSupport rt w api modelId timeoutSeconds) = []
           /\ Outcome.requests (sendChatMessage rt w api requestBody onChunk) = []
      else issues_one_request rt api (getEndpoint api chat)
             (testModelLatency rt w api modelId timeoutSeconds stream)
           /\ issues_one_request rt api (getEndpoint api chat)
                (testModelToolSupport rt w api modelId timeoutSeconds)
           /\ issues_one_request rt api (getEndpoint api chat)
                (sendChatMessage rt w api requestBody onChunk)).
Proof.
  split.
  - destruct (models_disabled api) eqn:Hon; simpl.
    + unfold fetchModels. rewrite Hon. reflexivity.
    + case_bool_decide as Hurl.
      * unfold fetchModels. rewrite Hon, bool_decide_eq_true_2 by assumption. reflexivity.
      * apply (frame_issues_one rt api _ _ _ (fetchModels_frame rt w api Hon Hurl));
          [reflexivity | repeat split; reflexivity].
  - case_bool_decide as Hurl.
    + unfold testModelLatency, testModelToolSupport, sendChatMessage.
      rewrite !bool_decide_eq_true_2 by assumption. auto.
    + split; [|split].
      * apply (frame_issues_one rt api _ _ _
                 (testModelLatency_frame rt w api modelId timeoutSeconds stream Hurl));
          [reflexivity | repeat split; reflexivity].
      * apply (frame_issues_one rt api _ _ _
                 (testModelToolSupport_frame rt w api modelId timeoutSeconds Hurl));
          [reflexivity | repeat split; reflexivity].
      * apply (frame_issues_one rt api _ _ _
                 (sendChatMessage_frame rt w api requestBody onChunk Hurl));
          [reflexivity | repeat split; reflexivity].
Qed.

Lemma probes_issue_one_request_witness :
  issues_one_request (example_runtime []) (example_api "https://api.example.com")
    (js "https://api.example.com/v1/models")
    (fetchModels (example_runtime []) (example_world (FetchFailure failed_to_fetch))
       (example_api "https://api.example.com")).
Proof.
  pose proof (probes_issue_one_request (example_runtime [])
                (example_world (FetchFailure failed_to_fetch))
                (example_api "https://api.example.com") [] 15 false [] accept_chunk)
    as [Hmodels _].
  assert (Hconfigured :
            models_disabled (example_api "https://api.example.com")
            || bool_decide (getEndpoint (example_api "https://api.example.com") models = [])
            = false) by (vm_compute; reflexivity).
  rewrite Hconfigured in Hmodels.
  assert (Hurl : getEndpoint (example_api "https://api.example.com") models
                 = js "https://api.example.com/v1/models") by (vm_compute; reflexivity).
  rewrite Hurl in Hmodels at 1. exact Hmodels.
Defined.

(** The headers of every request: [Authorization] carries the API key as a
    bearer token and [Content-Type] announces JSON, unless the custom headers
    bind the same name, letter for letter; a custom header is always sent,
    with the value of its last binding. *)
Theorem custom_headers_take_precedence (api : ApiConfig.t) (name : jsstring) :
  assoc name (request_headers api)
  = match assoc name (rev (default [] (ApiConfig.customHeaders api))) with
    | Some value => Some value
    | None =>
        if bool_decide (name = js "Authorization")
        then Some (js "Bearer " ++ ApiConfig.apiKey api)
        else if bool_decide (name = js "Content-Type") then Some (js "application/json")
             else None
    end.
Proof.
  unfold request_headers. rewrite obj_spread_lookup.
  destruct (assoc name (rev _)); [reflexivity|].
  simpl. repeat case_bool_decide; congruence.
Qed.

(** The custom parameters of the configuration are merged into the request
    body of every chat request and take precedence: a key they bind has their
    value in the body, any other key has the value that the operation (for
    [sendChatMessage]: its caller) gave it. *)
Theorem custom_params_take_precedence (rt : Builtins) (w : World.t) (api : ApiConfig.t)
    (modelId : jsstring) (timeoutSeconds : Z) (stream : bool)
    (requestBody : list (jsstring * jsval))
    (onChunk : list jsval -> jsval -> Completion unit) (key : jsstring) :
  getEndpoint api chat <> [] ->
  exists latency_log tool_log chat_log,
    Outcome.log (testModelLatency rt w api modelId timeoutSeconds stream) = Some latency_log
    /\ Outcome.log (testModelToolSupport rt w api modelId timeoutSeconds) = Some tool_log
    /\ Outcome.log (sendChatMessage rt w api requestBody onChunk) = Some chat_log
    /\ match assoc key (rev (default [] (ApiConfig.customParams api))) with
       | Some value =>
           get (RequestLog.requestBody latency_log) key = value
           /\ get (RequestLog.requestBody tool_log) key = value
           /\ get (RequestLog.requestBody chat_log) key = value
       | None =>
           get (RequestLog.requestBody latency_log) key
           = get (VObj (testModelLatency_fields modelId stream)) key
           /\ get (RequestLog.requestBody tool_log) key
              = get (VObj (testModelToolSupport_fields modelId)) key
           /\ get (RequestLog.requestBody chat_log) key = get (VObj requestBody) key
       end.
Proof.
  intros Hurl.
  destruct (testModelLatency_frame rt w api modelId timeoutSeconds stream Hurl)
    as (latency_log & Hlatency & (_ & _ & _ & _ & _ & _ & _ & _ & Hlb) & _).
  destruct (testModelToolSupport_frame rt w api modelId timeoutSeconds Hurl)
    as (tool_log & Htool & (_ & _ & _ & _ & _ & _ & _ & _ & Htb) & _).
  destruct (sendChatMessage_frame rt w api requestBody onChunk Hurl)
    as (chat_log & Hchat & (_ & _ & _ & _ & _ & _ & _ & _ & Hcb) & _).
  exists latency_log, tool_log, chat_log.
  split; [assumption|]. split; [assumption|]. split; [assumption|].
  rewrite Hlb, Htb, Hcb. cbn [createLogEntry RequestLog.requestBody get].
  rewrite !obj_spread_lookup.
  destruct (assoc key (rev _)); auto.
Qed.

Lemma custom_params_take_precedence_witness :
  exists latency_log,
    Outcome.log (testModelLatency (example_runtime [])
                   (example_world (FetchFailure failed_to_fetch)) customised_api
                   (js "gpt-4") 15 false) = Some latency_log
    /\ get (RequestLog.requestBody latency_log) (js "max_tokens") = VNum 16.
Proof.
  destruct (custom_params_take_precedence (example_runtime [])
              (example_world (FetchFailure failed_to_fetch)) customised_api
              (js "gpt-4") 15 false [] accept_chunk (js "max_tokens"))
    as (latency_log & tool_log & chat_log & Hlatency & _ & _ & Hkey).
  - vm_compute. discriminate.
  - exists latency_log. split; [exact Hlatency|].
    vm_compute in Hkey. destruct Hkey as [Hvalue _]. exact Hvalue.
Defined.

(** The log record of a call identifies the call: its id and timestamp are
    those drawn when the call began, its type is the kind of the operation,
    and its API and model are those of the call. The executor never rewrites
    these fields. *)
Theorem log_identifies_call (rt : Builtins) (w : World.t) (api : ApiConfig.t)
    (modelId : jsstring) (timeoutSeconds : Z) (stream : bool)
    (requestBody : list (jsstring * jsval))
    (onChunk : list jsval -> jsval -> Completion unit) (log : RequestLog.t) :
  let identifies (type : LogType) (model : jsval) :=
    RequestLog.id log = World.randomUUID w
    /\ RequestLog.timestamp log = World.Date_now w 0
    /\ RequestLog.type log = type
    /\ RequestLog.apiId log = ApiConfig.id api
    /\ RequestLog.apiName log = ApiConfig.name api
    /\ RequestLog.model log = model in
  (Outcome.log (fetchModels rt w api) = Some log -> identifies log_models VUndefined)
  /\ (Outcome.log (testModelLatency rt w api modelId timeoutSeconds stream) = Some log ->
      identifies log_test (VStr modelId))
  /\ (Outcome.log (testModelToolSupport rt w api modelId timeoutSeconds) = Some log ->
      identifies log_tool_check (VStr modelId))
  /\ (Outcome.log (sendChatMessage rt w api requestBody onChunk) = Some log ->
      identifies log_chat (get (VObj requestBody) (js "model"))).
Proof.
  assert (Hsame : forall created,
             same_request log created ->
             RequestLog.id log = RequestLog.id created
             /\ RequestLog.timestamp log = RequestLog.timestamp created
             /\ RequestLog.type log = RequestLog.type created
             /\ RequestLog.apiId log = RequestLog.apiId created
             /\ RequestLog.apiName log = RequestLog.apiName created
             /\ RequestLog.model log = RequestLog.model created).
  { intros created (? & ? & ? & ? & ? & ? & _). auto 10. }
  cbv zeta. split; [|split; [|split]]; intros Hlog.
  - destruct (models_disabled api) eqn:Hon;
      [unfold fetchModels in Hlog; rewrite Hon in Hlog; discriminate|].
    destruct (decide (getEndpoint api models = [])) as [Hurl | Hurl];
      [unfold fetchModels in Hlog;
       rewrite Hon, bool_decide_eq_true_2 in Hlog by assumption; discriminate|].
    destruct (fetchModels_frame rt w api Hon Hurl) as (log' & Hlog' & Hframe & _).
    rewrite Hlog in Hlog'. injection Hlog' as <-. exact (Hsame _ Hframe).
  - destruct (decide (getEndpoint api chat = [])) as [Hurl | Hurl];
      [unfold testModelLatency in Hlog;
       rewrite bool_decide_eq_true_2 in Hlog by assumption; discriminate|].
    destruct (testModelLatency_frame rt w api modelId timeoutSeconds stream Hurl)
      as (log' & Hlog' & Hframe & _).
    rewrite Hlog in Hlog'. injection Hlog' as <-. exact (Hsame _ Hframe).
  - destruct (decide (getEndpoint api chat = [])) as [Hurl | Hurl];
      [unfold testModelToolSupport in Hlog;
       rewrite bool_decide_eq_true_2 in Hlog by assumption; discriminate|].
    destruct (testModelToolSupport_frame rt w api modelId timeoutSeconds Hurl)
      as (log' & Hlog' & Hframe & _).
    rewrite Hlog in Hlog'. injection Hlog' as <-. exact (Hsame _ Hframe).
  - destruct (decide (getEndpoint api chat = [])) as [Hurl | Hurl];
      [unfold sendChatMessage in Hlog;
       rewrite bool_decide_eq_true_2 in Hlog by assumption; discriminate|].
    destruct (sendChatMessage_frame rt w api requestBody onChunk Hurl)
      as (log' & Hlog' & Hframe & _).
    rewrite Hlog in Hlog'. injection Hlog' as <-. exact (Hsame _ Hframe).
Qed.

(** What [fetchModels] accepts: a 2xx response whose JSON value is an
    array, or has an array as its [data], yields the elements of that array;
    any other JSON value but [null] makes it throw the format error. Either
    way the log holds the status and the parsed body, and the format error is
    recorded as the error of a log with a 2xx status. *)
Theorem fetchModels_accepted_shapes (rt : Builtins) (w : World.t) (api : ApiConfig.t)
    (response : Response.t) (data : jsval) :
  models_disabled api = false ->
  getEndpoint api models <> [] ->
  World.fetched w = FetchResponse response ->
  Response.ok response = true ->
  Response_json rt response = Normal data ->
  nullish data = false ->
  Outcome.completion (fetchModels rt w api)
  = match data, get data (js "data") with
    | VArr elems, _ => Normal elems
    | _, VArr elems => Normal elems
    | _, _ => Throw (Error MSG_BAD_FORMAT)
    end
  /\ exists log,
      Outcome.log (fetchModels rt w api) = Some log
      /\ RequestLog.status log = Response.status response
      /\ RequestLog.responseBody log = data
      /\ RequestLog.error log
         = match Outcome.completion (fetchModels rt w api) with
           | Normal _ => None
           | Throw e => Some (JsError.message e)
           end.
Proof.
  intros Hon Hurl Hfetch Hok Hjson Hdata. unfold fetchModels. rewrite Hon.
  rewrite bool_decide_eq_false_2 by assumption.
  unfold Outcome.log. simpl. probe_unfold.
  rewrite Hfetch. simpl. rewrite Hok. simpl. rewrite Hjson. simpl.
  unfold get_strict. rewrite Hdata.
  destruct data as [| |b|n|s|elems|fields]; simpl in *; try discriminate;
    try (destruct (default VUndefined (assoc (js "data") fields)); simpl);
    try case_bool_decide; simpl;
    (split; [reflexivity|]; eexists; split; [reflexivity|]; repeat split; reflexivity).
Qed.

Lemma fetchModels_accepted_shapes_witness :
  Outcome.completion
    (fetchModels (example_runtime [(models_reply_text, models_reply)])
       (example_world (FetchResponse (response_of 200 "OK" [models_reply_text])))
       (example_api "https://api.openai.com"))
  = Normal [gpt_4_model].
Proof.
  apply (fetchModels_accepted_shapes (example_runtime [(models_reply_text, models_reply)])
           (example_world (FetchResponse (response_of 200 "OK" [models_reply_text])))
           (example_api "https://api.openai.com")
           (response_of 200 "OK" [models_reply_text]) models_reply);
    try reflexivity; vm_compute; try reflexivity; discriminate.
Defined.

(** A response outside 2xx makes [fetchModels] throw an error that names
    the status and the status text, followed by a detail: the message of the
    provider's JSON error, as a string, when the body parses and carries a
    truthy [error.message] that has a string; in every other case the first
    200 code units of the body. The log keeps the whole body; its error is
    the message thrown. *)
Theorem fetchModels_http_error (rt : Builtins) (w : World.t) (api : ApiConfig.t)
    (response : Response.t) (errorText : jsstring) :
  models_disabled api = false ->
  getEndpoint api models <> [] ->
  World.fetched w = FetchResponse response ->
  Response.ok response = false ->
  Response_text response = Normal errorText ->
  let detail :=
    match JSON_parse rt errorText with
    | Normal errorJson =>
        let message := get (get errorJson (js "error")) (js "message") in
        if truthy message then
          match ToString rt message with
          | Normal text => text
          | Throw _ => take 200 errorText
          end
        else take 200 errorText
    | Throw _ => take 200 errorText
    end in
  let thrown :=
    js "HTTP " ++ Number_toString (Response.status response) ++ js " "
    ++ Response.statusText response ++ js ": " ++ detail in
  Outcome.completion (fetchModels rt w api) = Throw (Error thrown)
  /\ exists log,
      Outcome.log (fetchModels rt w api) = Some log
      /\ RequestLog.status log = Response.status response
      /\ RequestLog.responseBody log = VStr errorText
      /\ RequestLog.error log = Some thrown.
Proof.
  intros Hon Hurl Hfetch Hok Htext. cbv zeta.
  assert (Hmessage :
            fetchModels_error_message rt response errorText
            = js "HTTP " ++ Number_toString (Response.status response) ++ js " "
              ++ Response.statusText response ++ js ": "
              ++ match JSON_parse rt errorText with
                 | Normal errorJson =>
                     if truthy (get (get errorJson (js "error")) (js "message")) then
                       match ToString rt (get (get errorJson (js "error")) (js "message")) with
                       | Normal text => text
                       | Throw _ => take 200 errorText
                       end
                     else take 200 errorText
                 | Throw _ => take 200 errorText
                 end).
  { unfold fetchModels_error_message, slice_0.
    assert (Hfallback :
              (js "HTTP " ++ Number_toString (Response.status response) ++ js " "
               ++ Response.statusText response) ++ js ": " ++ take 200 errorText
              = js "HTTP " ++ Number_toString (Response.status response) ++ js " "
                ++ Response.statusText response ++ js ": " ++ take 200 errorText).
    { rewrite <- !app_assoc. reflexivity. }
    destruct (JSON_parse rt errorText) as [errorJson|e] eqn:Hparse; [|exact Hfallback].
    unfold get_strict. destruct (nullish errorJson) eqn:Hnull.
    { destruct errorJson; try discriminate; exact Hfallback. }
    destruct (truthy (get errorJson (js "error"))) eqn:Herror; simpl.
    - destruct (truthy (get (get errorJson (js "error")) (js "message"))); [|exact Hfallback].
      destruct (ToString rt _) as [message|e]; [|exact Hfallback].
      rewrite <- !app_assoc. reflexivity.
    - assert (Hnone : truthy (get (get errorJson (js "error")) (js "message")) = false).
      { destruct (get errorJson (js "error")) as [| |flag|num|text|elems|fields];
          try reflexivity; discriminate. }
      rewrite Hnone. exact Hfallback. }
  unfold fetchModels. rewrite Hon.
  rewrite bool_decide_eq_false_2 by assumption.
  unfold Outcome.log. simpl. probe_unfold.
  rewrite Hfetch. simpl. rewrite Hok. simpl. rewrite Htext. simpl.
  rewrite Hmessage. split; [reflexivity|].
  eexists. split; [reflexivity|]. repeat split; reflexivity.
Qed.

Lemma fetchModels_http_error_witness :
  Outcome.completion
    (fetchModels (example_runtime [])
       (example_world (FetchResponse (response_of 502 "Bad Gateway" [js "<html>"])))
       (example_api "https://api.openai.com"))
  = Throw (Error (js "HTTP 502 Bad Gateway: <html>")).
Proof.
  apply (fetchModels_http_error (example_runtime [])
           (example_world (FetchResponse (response_of 502 "Bad Gateway" [js "<html>"])))
           (example_api "https://api.openai.com")
           (response_of 502 "Bad Gateway" [js "<html>"]) (js "<html>"));
    try reflexivity.
  vm_compute. discriminate.
Defined.

(** What [testModelLatency] gives back: it never throws, and for every
    response whose body ends or fails it returns a result for the model asked
    about, with status [success] or [error]. A success has no message, a 2xx
    status code, and the latency and response body that the log records; an
    error has latency 0, a message, and no 2xx status code. *)
Theorem testModelLatency_result (rt : Builtins) (w : World.t) (api : ApiConfig.t)
    (modelId : jsstring) (timeoutSeconds : Z) (stream : bool) :
  (forall e,
      Outcome.completion (testModelLatency rt w api modelId timeoutSeconds stream) <> Throw e)
  /\ exists r,
    Outcome.completion (testModelLatency rt w api modelId timeoutSeconds stream) = Normal r
    /\ TestResult.modelId r = modelId
    /\ match TestResult.status r with
       | st_success =>
           TestResult.message r = None
           /\ (exists code, TestResult.statusCode r = Some code /\ 200 <= code <= 299)
           /\ TestResult.latency r = World.performance_now w 1 - World.performance_now w 0
           /\ RequestLog.latency
              <$> Outcome.log (testModelLatency rt w api modelId timeoutSeconds stream)
              = Some (TestResult.latency r)
           /\ RequestLog.responseBody
              <$> Outcome.log (testModelLatency rt w api modelId timeoutSeconds stream)
              = Some (TestResult.responseBody r)
       | st_error =>
           TestResult.latency r = 0
           /\ is_Some (TestResult.message r)
           /\ forall code, TestResult.statusCode r = Some code -> ~ 200 <= code <= 299
       | _ => False
       end.
Proof.
  cut (exists r,
          Outcome.completion (testModelLatency rt w api modelId timeoutSeconds stream) = Normal r
          /\ TestResult.modelId r = modelId
          /\ match TestResult.status r with
             | st_success =>
                 TestResult.message r = None
                 /\ (exists code, TestResult.statusCode r = Some code /\ 200 <= code <= 299)
                 /\ TestResult.latency r = World.performance_now w 1 - World.performance_now w 0
                 /\ RequestLog.latency
                    <$> Outcome.log (testModelLatency rt w api modelId timeoutSeconds stream)
                    = Some (TestResult.latency r)
                 /\ RequestLog.responseBody
                    <$> Outcome.log (testModelLatency rt w api modelId timeoutSeconds stream)
                    = Some (TestResult.responseBody r)
             | st_error =>
                 TestResult.latency r = 0
                 /\ is_Some (TestResult.message r)
                 /\ forall code, TestResult.statusCode r = Some code -> ~ 200 <= code <= 299
             | _ => False
             end).
  { intros (r & Hr & Hresult). split; [|eauto].
    intros e He. rewrite Hr in He. discriminate. }
  unfold testModelLatency. case_bool_decide as Hurl.
  { eexists. split; [reflexivity|]. simpl. split; [reflexivity|].
    split; [reflexivity|]. split; [eauto | discriminate]. }
  unfold Outcome.log. simpl. probe_unfold.
  destruct (World.fetched w) as [response | e | text]; simpl.
  - destruct (Response.ok response) eqn:Hok; simpl.
    + assert (Hcode : 200 <= Response.status response <= 299).
      { unfold Response.ok in Hok. lia. }
      destruct stream; simpl.
      * unfold drain. destruct (Response_text response); simpl;
          (eexists; split; [reflexivity|]; simpl; split; [reflexivity|]);
          [eauto 10 | split; [reflexivity|]; split; [eauto|]; intros code [= <-]; lia].
      * destruct (Response_json rt response); simpl;
          (eexists; split; [reflexivity|]; simpl; split; [reflexivity|]);
          [eauto 10 | split; [reflexivity|]; split; [eauto|]; intros code [= <-]; lia].
    + assert (Hcode : ~ 200 <= Response.status response <= 299).
      { unfold Response.ok in Hok. lia. }
      destruct (Response_text response); simpl;
        (eexists; split; [reflexivity|]; simpl; split; [reflexivity|];
         split; [reflexivity|]; split; [eauto|]; intros code [= <-]; lia).
  - eexists. split; [reflexivity|]. simpl. split; [reflexivity|].
    split; [reflexivity|]. split; [eauto|]. intros code [= <-]. lia.
  - eexists. split; [reflexivity|]. simpl. split; [reflexivity|].
    split; [reflexivity|]. split; [eauto|]. intros code [= <-]. lia.
Qed.

(** With [stream] on, [testModelLatency] never parses the response: every
    2xx response whose body can be read to its end is a success, whatever its
    text, and the result and the log keep at most the first 1000 code units
    of it, followed by an ellipsis if more arrived. *)
Theorem testModelLatency_stream_accepts_any_text (rt : Builtins) (w : World.t)
    (api : ApiConfig.t) (modelId : jsstring) (timeoutSeconds : Z)
    (response : Response.t) (text : jsstring) :
  getEndpoint api chat <> [] ->
  World.fetched w = FetchResponse response ->
  Response.ok response = true ->
  Response_text response = Normal text ->
  exists r content,
    Outcome.completion (testModelLatency rt w api modelId timeoutSeconds true) = Normal r
    /\ TestResult.status r = st_success
    /\ TestResult.responseBody r = VObj [(js "stream_content", VStr content)]
    /\ RequestLog.responseBody
       <$> Outcome.log (testModelLatency rt w api modelId timeoutSeconds true)
       = Some (VObj [(js "stream_content", VStr content)])
    /\ content = (if bool_decide (length text <= 1000)%nat then text
                  else take 1000 text ++ js "...")
    /\ (length content <= 1003)%nat.
Proof.
  intros Hurl Hfetch Hok Htext. unfold testModelLatency.
  rewrite bool_decide_eq_false_2 by assumption.
  unfold Outcome.log. simpl. probe_unfold.
  rewrite Hfetch. simpl. rewrite Hok. simpl. unfold drain. rewrite Htext. simpl.
  eexists _, _. split; [reflexivity|]. simpl. split; [reflexivity|].
  split; [reflexivity|]. split; [reflexivity|]. unfold slice_0.
  repeat case_bool_decide; try lia.
  - split; [reflexivity|]. rewrite length_app, length_take.
    change (length (js "...")) with 3%nat. lia.
  - rewrite app_nil_r, take_ge by lia. split; [reflexivity | lia].
Qed.

Lemma testModelLatency_stream_accepts_any_text_witness :
  exists r,
    Outcome.completion
      (testModelLatency (example_runtime [])
         (example_world (FetchResponse (response_of 200 "OK" [js "not JSON"])))
         (example_api "https://api.example.com") (js "gpt-4") 15 true) = Normal r
    /\ TestResult.status r = st_success.
Proof.
  destruct (testModelLatency_stream_accepts_any_text (example_runtime [])
              (example_world (FetchResponse (response_of 200 "OK" [js "not JSON"])))
              (example_api "https://api.example.com") (js "gpt-4") 15
              (response_of 200 "OK" [js "not JSON"]) (js "not JSON"))
    as (r & content & Hr & Hstatus & _); try reflexivity.
  - vm_compute. discriminate.
  - exists r. split; assumption.
Defined.

(** ** The chat exchange: what the callback receives *)

(** In a streaming exchange an exception of the callback never escapes:
    whatever [onChunk] does, a 2xx response whose body is read to its end
    makes [sendChatMessage] return, and every content it handed to [onChunk]
    is truthy (an empty fragment is never delivered). *)
Theorem sendChatMessage_stream_survives_callback (rt : Builtins) (w : World.t)
    (api : ApiConfig.t) (requestBody : list (jsstring * jsval))
    (onChunk : list jsval -> jsval -> Completion unit)
    (response : Response.t) (body : Body.t) :
  getEndpoint api chat <> [] ->
  World.fetched w = FetchResponse response ->
  Response.ok response = true ->
  truthy (get (VObj (obj_spread requestBody (default [] (ApiConfig.customParams api))))
            (js "stream")) = true ->
  Response.body response = Some body ->
  Body.failure body = None ->
  (exists result,
      Outcome.completion (sendChatMessage rt w api requestBody onChunk) = Normal result)
  /\ Forall (fun content => truthy content = true)
       (handed_to_onChunk (sendChatMessage rt w api requestBody onChunk)).
Proof.
  intros Hurl Hfetch Hok Hstream Hbody Hfailure. unfold sendChatMessage.
  rewrite bool_decide_eq_false_2 by assumption.
  unfold handed_to_onChunk. simpl. probe_unfold.
  rewrite Hfetch. simpl. rewrite Hok. simpl.
  simpl in Hstream. rewrite Hstream. rewrite Hbody. simpl. rewrite Hfailure.
  match goal with |- context [read_stream rt onChunk ?ft ?rs ?cs ?f ?s] =>
    pose proof (read_stream_keeps rt onChunk f cs ft rs s) as (_ & _ & Hread);
    pose proof (read_stream_delivers rt onChunk f cs ft rs s) as (_ & _ & new & Hnew & Htruthy);
    destruct (read_stream rt onChunk ft rs cs f s) as [[read|e] s']
  end; simpl in *; [|discriminate].
  split; [eauto|]. rewrite Hnew. exact Htruthy.
Qed.

Lemma sendChatMessage_stream_survives_callback_witness :
  exists result,
    Outcome.completion
      (sendChatMessage (example_runtime [(delta_text, delta_json)])
         (example_world (FetchResponse (response_of 200 "OK" [sse_chunk])))
         (example_api "https://api.example.com") streaming_request
         (fun _ _ => Throw (Error (js "callback failed"))))
    = Normal result.
Proof.
  apply (sendChatMessage_stream_survives_callback (example_runtime [(delta_text, delta_json)])
           (example_world (FetchResponse (response_of 200 "OK" [sse_chunk])))
           (example_api "https://api.example.com") streaming_request
           (fun _ _ => Throw (Error (js "callback failed")))
           (response_of 200 "OK" [sse_chunk])
           {| Body.chunks := [sse_chunk]; Body.failure := None |});
    try reflexivity.
  vm_compute. discriminate.
Defined.

(** In an exchange that does not stream, [onChunk] is called exactly once,
    with the content of the message of the first choice, or with the empty
    string when that content is missing or falsy. The call returns if the
    callback returns and throws what the callback throws; either way the log
    holds the parsed response. *)
Theorem sendChatMessage_delivers_once (rt : Builtins) (w : World.t)
    (api : ApiConfig.t) (requestBody : list (jsstring * jsval))
    (onChunk : list jsval -> jsval -> Completion unit)
    (response : Response.t) (data : jsval) :
  getEndpoint api chat <> [] ->
  World.fetched w = FetchResponse response ->
  Response.ok response = true ->
  truthy (get (VObj (obj_spread requestBody (default [] (ApiConfig.customParams api))))
            (js "stream")) = false ->
  Response_json rt response = Normal data ->
  nullish data = false ->
  let content := opt_get (first_choice_message data) (js "content") in
  let delivered := if truthy content then content else VStr [] in
  handed_to_onChunk (sendChatMessage rt w api requestBody onChunk) = [delivered]
  /\ match onChunk [] delivered with
     | Normal _ =>
         exists result,
           Outcome.completion (sendChatMessage rt w api requestBody onChunk) = Normal result
     | Throw e =>
         Outcome.completion (sendChatMessage rt w api requestBody onChunk) = Throw e
     end
  /\ RequestLog.responseBody <$> Outcome.log (sendChatMessage rt w api requestBody onChunk)
     = Some data.
Proof.
  intros Hurl Hfetch Hok Hstream Hjson Hdata. unfold sendChatMessage.
  rewrite bool_decide_eq_false_2 by assumption.
  unfold handed_to_onChunk, Outcome.log. simpl. probe_unfold.
  rewrite Hfetch. simpl. rewrite Hok. simpl.
  simpl in Hstream. rewrite Hstream. rewrite Hjson. simpl.
  unfold get_strict. rewrite Hdata. simpl. unfold deliver. simpl.
  unfold or_empty_string, first_choice_message.
  match goal with |- context [onChunk ?a ?b] => destruct (onChunk a b) end; simpl;
    try case_bool_decide; simpl; eauto.
Qed.

Lemma sendChatMessage_delivers_once_witness :
  handed_to_onChunk
    (sendChatMessage (example_runtime [(text_reply_text, text_reply)])
       (example_world (FetchResponse (response_of 200 "OK" [text_reply_text])))
       (example_api "https://api.example.com") [(js "model", VStr (js "gpt-4"))] accept_chunk)
  = [VStr (js "Sunny")].
Proof.
  apply (sendChatMessage_delivers_once (example_runtime [(text_reply_text, text_reply)])
           (example_world (FetchResponse (response_of 200 "OK" [text_reply_text])))
           (example_api "https://api.example.com") [(js "model", VStr (js "gpt-4"))]
           accept_chunk (response_of 200 "OK" [text_reply_text]) text_reply);
    try reflexivity.
  vm_compute. discriminate.
Defined.

(** For a callback that returns, the fragments add up to the concatenation
    of their strings. *)
Lemma appended_text_returning rt onChunk (fragments : list jsval) : forall delivered,
  (forall delivered content, onChunk delivered content = Normal tt) ->
  appended_text rt onChunk delivered fragments = concat (string_or_nothing rt <$> fragments).
Proof.
  induction fragments as [|content fragments IH]; intros delivered Hreturns; simpl.
  - reflexivity.
  - rewrite Hreturns, IH by exact Hreturns. unfold string_or_nothing.
    destruct (ToString rt content); reflexivity.
Qed.

(** The generated text that a streaming exchange logs is what the
    callback received: every content fragment of the body is handed to
    [onChunk], in order, and with a callback that returns, the
    [generated_text] of the log is the concatenation of the strings of the
    contents handed over. A content that has no string (its coercion throws)
    was handed over all the same, and adds nothing to the text. *)
Theorem sendChatMessage_logs_delivered_text (rt : Builtins) (w : World.t)
    (api : ApiConfig.t) (requestBody : list (jsstring * jsval))
    (onChunk : list jsval -> jsval -> Completion unit)
    (response : Response.t) (body : Body.t) :
  (forall delivered content, onChunk delivered content = Normal tt) ->
  getEndpoint api chat <> [] ->
  World.fetched w = FetchResponse response ->
  Response.ok response = true ->
  truthy (get (VObj (obj_spread requestBody (default [] (ApiConfig.customParams api))))
            (js "stream")) = true ->
  Response.body response = Some body ->
  Body.failure body = None ->
  handed_to_onChunk (sendChatMessage rt w api requestBody onChunk)
  = content_fragments rt (Body.chunks body)
  /\ exists log,
      Outcome.log (sendChatMessage rt w api requestBody onChunk) = Some log
      /\ get (RequestLog.responseBody log) (js "generated_text")
         = VStr (concat (string_or_nothing rt
                         <$> handed_to_onChunk (sendChatMessage rt w api requestBody onChunk))).
Proof.
  intros Hreturns Hurl Hfetch Hok Hstream Hbody Hfailure. unfold sendChatMessage.
  rewrite bool_decide_eq_false_2 by assumption.
  unfold handed_to_onChunk, Outcome.log. simpl. probe_unfold.
  rewrite Hfetch. simpl. rewrite Hok. simpl.
  simpl in Hstream. rewrite Hstream. rewrite Hbody. simpl. rewrite Hfailure.
  match goal with |- context [read_stream rt onChunk ?ft ?rs ?cs None ?s] =>
    pose proof (read_stream_fragments rt onChunk None cs ft rs s) as [Hread Hdelivered];
    destruct (read_stream rt onChunk ft rs cs None s) as [[[fullText rawStream]|e] s']
  end; simpl in *; [|discriminate].
  injection Hread as -> ->. rewrite Hdelivered.
  split; [reflexivity|]. eexists. split; [reflexivity|]. simpl.
  rewrite appended_text_returning by exact Hreturns. reflexivity.
Qed.

Lemma sendChatMessage_logs_delivered_text_witness :
  handed_to_onChunk
    (sendChatMessage (example_runtime [(delta_text, delta_json)])
       (example_world (FetchResponse (response_of 200 "OK" [sse_chunk])))
       (example_api "https://api.example.com") streaming_request accept_chunk)
  = content_fragments (example_runtime [(delta_text, delta_json)]) [sse_chunk]
  /\ exists log,
      Outcome.log
        (sendChatMessage (example_runtime [(delta_text, delta_json)])
           (example_world (FetchResponse (response_of 200 "OK" [sse_chunk])))
           (example_api "https://api.example.com") streaming_request accept_chunk)
      = Some log
      /\ get (RequestLog.responseBody log) (js "generated_text")
         = VStr (concat (string_or_nothing (example_runtime [(delta_text, delta_json)])
                         <$> handed_to_onChunk
                               (sendChatMessage (example_runtime [(delta_text, delta_json)])
                                  (example_world
                                     (FetchResponse (response_of 200 "OK" [sse_chunk])))
                                  (example_api "https://api.example.com") streaming_request
                                  accept_chunk))).
Proof.
  apply (sendChatMessage_logs_delivered_text (example_runtime [(delta_text, delta_json)])
           (example_world (FetchResponse (response_of 200 "OK" [sse_chunk])))
           (example_api "https://api.example.com") streaming_request accept_chunk
           (response_of 200 "OK" [sse_chunk])
           {| Body.chunks := [sse_chunk]; Body.failure := None |});
    try reflexivity.
  vm_compute. discriminate.
Defined.

(** A response outside 2xx makes [sendChatMessage] throw an error whose
    message gives the status and the status text in brackets and, on the next
    line, a detail: the provider's JSON error pretty-printed, when the body
    parses and carries a truthy [error]; in every other case the body as it
    is. Nothing is handed to [onChunk]; the log keeps the body and carries
    the thrown message as its error. *)
Theorem sendChatMessage_http_error (rt : Builtins) (w : World.t)
    (api : ApiConfig.t) (requestBody : list (jsstring * jsval))
    (onChunk : list jsval -> jsval -> Completion unit)
    (response : Response.t) (text : jsstring) :
  getEndpoint api chat <> [] ->
  World.fetched w = FetchResponse response ->
  Response.ok response = false ->
  Response_text response = Normal text ->
  let detail :=
    match JSON_parse rt text with
    | Normal json =>
        if truthy (get json (js "error")) then JSON_stringify_pretty rt (get json (js "error"))
        else text
    | Throw _ => text
    end in
  let thrown :=
    js "[" ++ Number_toString (Response.status response) ++ js " "
    ++ Response.statusText response ++ js "]" ++ [0x0A%N] ++ detail in
  Outcome.completion (sendChatMessage rt w api requestBody onChunk) = Throw (Error thrown)
  /\ handed_to_onChunk (sendChatMessage rt w api requestBody onChunk) = []
  /\ exists log,
      Outcome.log (sendChatMessage rt w api requestBody onChunk) = Some log
      /\ RequestLog.status log = Response.status response
      /\ RequestLog.responseBody log = VStr text
      /\ RequestLog.error log = Some thrown.
Proof.
  intros Hurl Hfetch Hok Htext. cbv zeta.
  assert (Hdetail :
            sendChatMessage_error_detail rt text
            = match JSON_parse rt text with
              | Normal json =>
                  if truthy (get json (js "error"))
                  then JSON_stringify_pretty rt (get json (js "error")) else text
              | Throw _ => text
              end).
  { unfold sendChatMessage_error_detail.
    destruct (JSON_parse rt text) as [json|e]; [|reflexivity].
    unfold get_strict. destruct (nullish json) eqn:Hnull; [|reflexivity].
    destruct json; try discriminate; reflexivity. }
  unfold sendChatMessage. rewrite bool_decide_eq_false_2 by assumption.
  unfold handed_to_onChunk, Outcome.log. simpl. probe_unfold.
  rewrite Hfetch. simpl. rewrite Hok. simpl. rewrite Htext. simpl.
  rewrite Hdetail.
  case_bool_decide as Hzero; simpl;
    (split; [reflexivity|]; split; [reflexivity|]; eexists; split; [reflexivity|];
     simpl; repeat split; try reflexivity; symmetry; exact Hzero).
Qed.

Lemma sendChatMessage_http_error_witness :
  Outcome.completion
    (sendChatMessage (example_runtime [])
       (example_world (FetchResponse (response_of 401 "Unauthorized" [js "denied"])))
       (example_api "https://api.example.com") streaming_request accept_chunk)
  = Throw (Error (js "[401 Unauthorized]" ++ [0x0A%N] ++ js "denied")).
Proof.
  apply (sendChatMessage_http_error (example_runtime [])
           (example_world (FetchResponse (response_of 401 "Unauthorized" [js "denied"])))
           (example_api "https://api.example.com") streaming_request accept_chunk
           (response_of 401 "Unauthorized" [js "denied"]) (js "denied"));
    try reflexivity.
  vm_compute. discriminate.
Defined.

(** ** Connectivity of a key, and the body of a chat request *)

Lemma connectivity_endpoint (baseUrl apiKey : jsstring) (skipAutoCompletion : bool) :
  getEndpoint (connectivity_api baseUrl apiKey skipAutoCompletion) models
  = trim_trailing_slash (trim baseUrl)
    ++ (if skipAutoCompletion then js "/models"
        else if endsWith (trim_trailing_slash (trim baseUrl)) (js "/v1") then js "/models"
             else js "/v1/models").
Proof.
  unfold getEndpoint, trim_trailing_slash. simpl.
  destruct skipAutoCompletion; simpl; [reflexivity|].
  destruct (endsWith _ (js "/v1")); reflexivity.
Qed.

(** [testApiKeyConnectivity] never throws and always issues one GET request
    with the key as bearer token, also for a blank base URL: the endpoint is
    the trimmed base URL followed by [/models], after [/v1] unless completion
    is skipped or the base ends with it. It reports success exactly when
    [fetchModels] returned, with the number of models; a failure has latency
    and model count 0; the message is never empty. *)
Theorem testApiKeyConnectivity_reports (rt : Builtins) (w : World.t)
    (baseUrl apiKey : jsstring) (skipAutoCompletion : bool) :
  exists r request,
    Outcome.completion (testApiKeyConnectivity rt w baseUrl apiKey skipAutoCompletion)
    = Normal r
    /\ Outcome.requests (testApiKeyConnectivity rt w baseUrl apiKey skipAutoCompletion)
       = [request]
    /\ HttpRequest.method request = js "GET"
    /\ HttpRequest.url request
       = trim_trailing_slash (trim baseUrl)
         ++ (if skipAutoCompletion then js "/models"
             else if endsWith (trim_trailing_slash (trim baseUrl)) (js "/v1") then js "/models"
                  else js "/v1/models")
    /\ assoc (js "Authorization") (HttpRequest.headers request) = Some (js "Bearer " ++ apiKey)
    /\ ConnectivityResult.message r <> []
    /\ match Outcome.completion
               (fetchModels rt (after_clock_reads 1 w)
                  (connectivity_api baseUrl apiKey skipAutoCompletion)) with
       | Normal found =>
           ConnectivityResult.success r = true
           /\ ConnectivityResult.modelCount r = Z.of_nat (length found)
           /\ ConnectivityResult.message r = js "OK"
       | Throw e =>
           ConnectivityResult.success r = false
           /\ ConnectivityResult.modelCount r = 0
           /\ ConnectivityResult.latency r = 0
       end.
Proof.
  assert (Hurl : getEndpoint (connectivity_api baseUrl apiKey skipAutoCompletion) models <> []).
  { rewrite connectivity_endpoint. intros Hnil. apply app_eq_nil in Hnil as [_ Hnil].
    destruct skipAutoCompletion; [discriminate|].
    destruct (endsWith _ _); discriminate. }
  destruct (fetchModels_frame rt (after_clock_reads 1 w)
              (connectivity_api baseUrl apiKey skipAutoCompletion) eq_refl Hurl)
    as (log & _ & _ & Hrequests).
  unfold testApiKeyConnectivity.
  unfold Outcome.requests in *. cbn [Outcome.final Outcome.completion].
  destruct (Outcome.completion (fetchModels rt _ _)) as [found|e];
    eexists _, _; (split; [reflexivity|]); (split; [exact Hrequests|]);
    cbn [HttpRequest.method HttpRequest.url HttpRequest.headers];
    (split; [reflexivity|]); (split; [apply connectivity_endpoint|]);
    (split; [reflexivity|]); cbn [ConnectivityResult.message].
  - split; [discriminate | auto].
  - split; [|auto]. case_bool_decide; [discriminate | assumption].
Qed.

(** A prepared body is sent as it is when the configuration has no custom
    parameters: the log records the model asked for, and the exchange is read
    as an event stream exactly when the chat settings say so. Custom
    parameters that do not bind [stream] leave that choice alone. *)
Theorem prepared_body_is_sent (rt : Builtins) (w : World.t) (api : ApiConfig.t)
    (modelId : jsstring) (messages : list jsval) (config : ChatConfig.t)
    (currentInput : jsstring) (onChunk : list jsval -> jsval -> Completion unit) :
  getEndpoint api chat <> [] ->
  assoc (js "stream") (rev (default [] (ApiConfig.customParams api))) = None ->
  let requestBody := prepareChatBody modelId messages config currentInput in
  truthy (get (VObj (obj_spread requestBody (default [] (ApiConfig.customParams api))))
            (js "stream")) = ChatConfig.stream config
  /\ exists log,
      Outcome.log (sendChatMessage rt w api requestBody onChunk) = Some log
      /\ RequestLog.model log = VStr modelId
      /\ (ApiConfig.customParams api = None ->
          RequestLog.requestBody log = VObj requestBody).
Proof.
  intros Hurl Hcustom requestBody. split.
  - cbn [get]. rewrite obj_spread_lookup, Hcustom. unfold requestBody, prepareChatBody.
    destruct (ChatConfig.seed config); simpl; destruct (ChatConfig.stream config); reflexivity.
  - destruct (sendChatMessage_frame rt w api requestBody onChunk Hurl)
      as (log & Hlog & (_ & _ & _ & _ & _ & Hmodel & _ & _ & Hbody) & _).
    exists log. split; [assumption|]. split.
    + rewrite Hmodel. unfold requestBody, prepareChatBody.
      destruct (ChatConfig.seed config); reflexivity.
    + intros Hnone. rewrite Hbody, Hnone. reflexivity.
Qed.

Lemma prepared_body_is_sent_witness :
  exists log,
    Outcome.log
      (sendChatMessage (example_runtime []) (example_world (FetchFailure failed_to_fetch))
         (example_api "https://api.example.com")
         (prepareChatBody (js "gpt-4") [] (example_chat_config true) (js "Hello"))
         accept_chunk) = Some log
    /\ RequestLog.model log = VStr (js "gpt-4").
Proof.
  destruct (prepared_body_is_sent (example_runtime [])
              (example_world (FetchFailure failed_to_fetch))
              (example_api "https://api.example.com") (js "gpt-4") []
              (example_chat_config true) (js "Hello") accept_chunk)
    as (_ & log & Hlog & Hmodel & _).
  - vm_compute. discriminate.
  - reflexivity.
  - exists log. split; assumption.
Defined.

(** ** The matrix of the bulk test *)

Lemma set_cell_keys key model c rows :
  MatrixRowResult.key <$> BulkTestView.set_cell key model c rows = MatrixRowResult.key <$> rows.
Proof.
  induction rows as [|row rows IH]; simpl; [reflexivity|].
  case_bool_decide; simpl; [reflexivity|]. f_equal. exact IH.
Qed.

Lemma set_cell_find key' model c rows key :
  find_row key (BulkTestView.set_cell key' model c rows)
  = if bool_decide (key' = key) then
      (fun row => {| MatrixRowResult.key := MatrixRowResult.key row;
                     MatrixRowResult.results := <[model := c]> (MatrixRowResult.results row) |})
      <$> find_row key rows
    else find_row key rows.
Proof.
  induction rows as [|row rows IH]; simpl.
  - case_bool_decide; reflexivity.
  - destruct (decide (MatrixRowResult.key row = key')) as [Hrow | Hrow].
    + rewrite (bool_decide_eq_true_2 _ Hrow). simpl.
      repeat case_bool_decide; try congruence; reflexivity.
    + rewrite (bool_decide_eq_false_2 _ Hrow). simpl. rewrite IH.
      repeat case_bool_decide; try congruence; reflexivity.
Qed.

Lemma find_row_initial key keys n :
  key ∈ keys -> is_Some (find_row key (BulkTestView.results (BulkTestView.initial keys n))).
Proof.
  unfold BulkTestView.initial. simpl.
  induction keys as [|k keys IH]; intros Hin; [inversion Hin|]. simpl.
  case_bool_decide as Hk; [eauto|].
  apply IH. apply elem_of_cons in Hin as [-> | Hin]; [congruence | assumption].
Qed.

(** The rows after the results [rs] were recorded, in that order: one row
    per key as before, and the first row of a key holds, for each of its
    models tested, the cell of a result of that task. *)
Lemma recorded_cells (rs : list ((jsstring * jsstring) * TestResult.t)) (b : BulkTestView.t) :
  let b' := foldl (fun c tr => BulkTestView.store_result tr.1 tr.2 c) b rs in
  MatrixRowResult.key <$> BulkTestView.results b' = MatrixRowResult.key <$> BulkTestView.results b
  /\ (forall key, is_Some (find_row key (BulkTestView.results b)) ->
                  is_Some (find_row key (BulkTestView.results b')))
  /\ (forall key model,
         is_Some (find_row key (BulkTestView.results b)) ->
         (key, model) ∈ rs.*1 ->
         exists row result,
           find_row key (BulkTestView.results b') = Some row
           /\ MatrixRowResult.results row !! model = Some (BulkTestView.cell result)
           /\ ((key, model), result) ∈ rs)
  /\ BulkTestView.progress b'
     = match rs with
       | [] => BulkTestView.progress b
       | _ => (BulkTestView.completed b + Z.of_nat (length rs), (BulkTestView.progress b).2)
       end.
Proof.
  induction rs as [|[[key' model'] result] rs IH] using rev_ind; cbv zeta.
  - simpl. split; [reflexivity|]. split; [auto|]. split; [|reflexivity].
    intros key model _ Hin. inversion Hin.
  - cbv zeta in IH. destruct IH as (Hkeys & Hrows & Hcells & Hprogress).
    rewrite foldl_snoc. cbn [fst snd].
    set (b' := foldl (fun c tr => BulkTestView.store_result tr.1 tr.2 c) b rs) in *.
    unfold BulkTestView.store_result at 1 2 3 4. cbn [BulkTestView.results BulkTestView.progress fst snd].
    split; [rewrite set_cell_keys; exact Hkeys|]. split; [|split].
    + intros key Hkey. rewrite set_cell_find.
      destruct (Hrows key Hkey) as [row Hrow]. rewrite Hrow.
      case_bool_decide; simpl; eauto.
    + intros key model Hkey Hin. rewrite set_cell_find.
      destruct (Hrows key Hkey) as [row Hrow].
      rewrite fmap_app in Hin. apply elem_of_app in Hin as [Hin | Hin].
      * destruct (Hcells key model Hkey Hin) as (row' & result' & Hrow' & Hcell & Hresult).
        rewrite Hrow'. case_bool_decide as Hsame; simpl.
        -- destruct (decide (model' = model)) as [-> | Hmodel].
           ++ subst key'. eexists _, result. split; [reflexivity|]. simpl.
              rewrite lookup_insert_eq. split; [reflexivity|].
              apply elem_of_app. right. apply list_elem_of_singleton. reflexivity.
           ++ eexists _, result'. split; [reflexivity|]. simpl.
              rewrite lookup_insert_ne by assumption. split; [assumption|].
              apply elem_of_app. left. assumption.
        -- eexists row', result'. split; [reflexivity|]. split; [assumption|].
           apply elem_of_app. left. assumption.
      * simpl in Hin. apply list_elem_of_singleton in Hin. injection Hin as -> ->.
        rewrite Hrow, bool_decide_eq_true_2 by reflexivity. simpl.
        eexists _, result. split; [reflexivity|]. simpl.
        rewrite lookup_insert_eq. split; [reflexivity|].
        apply elem_of_app. right. apply list_elem_of_singleton. reflexivity.
    + subst b'. rewrite BulkTestView_completed, Hprogress, length_app.
      destruct rs as [|r rs]; simpl; f_equal; lia.
Qed.

Lemma make_tasks_pairs keys targetModels key model :
  (key, model) ∈ BulkTestView.make_tasks keys targetModels
  <-> key ∈ keys /\ model ∈ targetModels.
Proof.
  unfold BulkTestView.make_tasks. rewrite list_elem_of_In, in_flat_map. split.
  - intros (k & Hk & Hin). apply list_elem_of_In in Hk, Hin.
    apply list_elem_of_fmap in Hin as (m & [= -> ->] & Hm). auto.
  - intros [Hk Hm]. exists key. split; [apply list_elem_of_In; assumption|].
    apply list_elem_of_In. apply list_elem_of_fmap. eauto.
Qed.

Lemma make_tasks_count keys targetModels :
  length (BulkTestView.make_tasks keys targetModels)
  = (length keys * length targetModels)%nat.
Proof.
  unfold BulkTestView.make_tasks. induction keys as [|key keys IH]; simpl; [reflexivity|].
  rewrite length_app, length_map, IH. reflexivity.
Qed.

(** When the bulk test has resolved, the matrix is filled: it has one row
    per key entered, in order; for every key and every target model, the
    first row of the key holds the cell of a result that a probe of that key
    and model returned; and the progress stands at all of the
    [keys x models] tasks. *)
Theorem bulk_matrix_is_filled (rt : Builtins) (baseUrl : jsstring)
    (globalSettings : GlobalSettings.t) (keys targetModels : list jsstring)
    (W : nat) (schedule : list (nat * World.t))
    (p : Pool.t (jsstring * jsstring) TestResult.t BulkTestView.t) :
  (1 <= W)%nat ->
  targetModels <> [] -> keys <> [] ->
  exec BulkTestView.usable (BulkTestView.probe rt baseUrl globalSettings)
    BulkTestView.record schedule
    (start BulkTestView.usable W (BulkTestView.make_tasks keys targetModels)
       (BulkTestView.initial keys (length (BulkTestView.make_tasks keys targetModels))))
  = Some p ->
  resolved p = true ->
  MatrixRowResult.key <$> BulkTestView.results (Pool.client p) = keys
  /\ BulkTestView.progress (Pool.client p)
     = (Z.of_nat (length keys * length targetModels),
        Z.of_nat (length keys * length targetModels))
  /\ forall key model,
      key ∈ keys -> model ∈ targetModels ->
      exists row result,
        find_row key (BulkTestView.results (Pool.client p)) = Some row
        /\ MatrixRowResult.results row !! model = Some (BulkTestView.cell result)
        /\ ((key, model), result) ∈ Pool.results p.
Proof.
  intros HW Hmodels Hkeys Hexec Hresolved.
  pose proof (pool_run BulkTestView.usable (BulkTestView.probe rt baseUrl globalSettings)
                BulkTestView.record (fun _ => True)
                (BulkTestView_probe_returns rt baseUrl globalSettings)
                BulkTestView_record_returns
                W _ _ schedule p (fun _ _ => I) HW Hexec)
    as (Hlen & _ & _ & Hiff & Hdone & _).
  rewrite filter_all_usable in Hiff, Hdone by reflexivity.
  destruct (Hdone Hresolved) as [_ Hperm].
  apply Hiff in Hresolved.
  rewrite (run_client _ _ _ _ _ _ schedule p Hexec), BulkTestView_recorded.
  destruct (recorded_cells (Pool.results p)
              (BulkTestView.initial keys
                 (length (BulkTestView.make_tasks keys targetModels))))
    as (Hrows & _ & Hcells & Hprogress).
  cbv zeta in *. split; [|split].
  - rewrite Hrows. unfold BulkTestView.initial. simpl.
    rewrite <- list_fmap_compose. apply list_fmap_id.
  - rewrite Hprogress, Hlen, Hresolved, make_tasks_count.
    destruct (Pool.results p) eqn:Hnone; [|reflexivity].
    simpl in Hlen. rewrite <- Hlen in Hresolved. rewrite make_tasks_count in Hresolved.
    destruct keys; [congruence|]. destruct targetModels; [congruence|]. discriminate.
  - intros key model Hkey Hmodel.
    apply Hcells; [apply find_row_initial; assumption|].
    rewrite Hperm. apply make_tasks_pairs. auto.
Qed.

Lemma bulk_matrix_is_filled_witness :
  exists p,
    exec BulkTestView.usable
      (BulkTestView.probe (example_runtime []) (js "https://api.example.com")
         (example_settings 1 1))
      BulkTestView.record
      [(0%nat, example_world (FetchFailure failed_to_fetch))]
      (start BulkTestView.usable 1 (BulkTestView.make_tasks [js "sk-1"] [js "gpt-4"])
         (BulkTestView.initial [js "sk-1"]
            (length (BulkTestView.make_tasks [js "sk-1"] [js "gpt-4"]))))
    = Some p
    /\ BulkTestView.progress (Pool.client p) = (1, 1).
Proof.
  match goal with |- exists p, ?run = Some p /\ _ =>
    destruct run as [p|] eqn:Hexec; [|vm_compute in Hexec; discriminate]
  end.
  exists p. split; [reflexivity|].
  assert (Hresolved : resolved p = true).
  { pose proof (pool_run BulkTestView.usable
                  (BulkTestView.probe (example_runtime []) (js "https://api.example.com")
                     (example_settings 1 1))
                  BulkTestView.record (fun _ => True)
                  (BulkTestView_probe_returns (example_runtime [])
                     (js "https://api.example.com") (example_settings 1 1))
                  BulkTestView_record_returns
                  1 _ _ _ p (fun _ _ => I) (le_n 1) Hexec)
      as (_ & _ & _ & Hiff & _).
    apply Hiff. reflexivity. }
  apply (bulk_matrix_is_filled (example_runtime []) (js "https://api.example.com")
           (example_settings 1 1) [js "sk-1"] [js "gpt-4"] 1
           [(0%nat, example_world (FetchFailure failed_to_fetch))] p (le_n 1));
    [discriminate | discriminate | exact Hexec | exact Hresolved].
Defined.

Lemma row_kind (row : MatrixRowResult.t) :
  (some_success row = true /\ all_failed row = false /\ untested row = false)
  \/ (some_success row = false /\ all_failed row = true /\ untested row = false)
  \/ (some_success row = false /\ all_failed row = false /\ untested row = true).
Proof.
  unfold some_success, all_failed, untested.
  destruct (decide (MatrixRowResult.results row = ∅)) as [Hempty | Hsome].
  - right. right. rewrite Hempty, map_to_list_empty, map_size_empty. simpl.
    rewrite bool_decide_eq_true_2 by reflexivity. auto.
  - rewrite (bool_decide_eq_false_2 (MatrixRowResult.results row = ∅)) by assumption.
    rewrite (bool_decide_eq_false_2 (size _ = 0%nat))
      by (intros Hsize; apply Hsome, map_size_empty_inv, Hsize).
    simpl.
    induction ((map_to_list (MatrixRowResult.results row)).*2) as [|res values IH];
      simpl; [auto|].
    destruct (bool_decide (MatrixCellResult.status res = st_success)); simpl; [auto|].
    exact IH.
Qed.

(** Every row of the matrix is of exactly one kind: working (some model
    succeeded), failed (it has results, none a success) or untested. So the
    keys exported as working and as failed never overlap, and with the keys
    of the untested rows they make up all keys; only an empty matrix leaves
    nothing to copy when all keys are asked for. *)
Theorem exported_keys_partition (results : list MatrixRowResult.t) :
  (forall row,
      some_success row && all_failed row = false
      /\ some_success row || all_failed row = negb (untested row))
  /\ keysToExport export_all results
     ≡ₚ keysToExport export_working results ++ keysToExport export_failed results
        ++ (MatrixRowResult.key <$> List.filter untested results)
  /\ (handleExportKeys export_all results = None <-> results = []).
Proof.
  split; [|split].
  - intros row.
    destruct (row_kind row) as [(-> & -> & ->) | [(-> & -> & ->) | (-> & -> & ->)]]; auto.
  - unfold keysToExport. induction results as [|row results IH]; simpl; [reflexivity|].
    destruct (row_kind row) as [(-> & -> & ->) | [(-> & -> & ->) | (-> & -> & ->)]]; simpl.
    + apply Permutation_skip, IH.
    + etransitivity; [apply Permutation_skip, IH|]. apply Permutation_middle.
    + etransitivity; [apply Permutation_skip, IH|].
      rewrite !app_assoc. apply Permutation_middle.
  - unfold handleExportKeys. case_bool_decide as Hnil; [tauto|].
    destruct results as [|row results]; [congruence|]. simpl. split; discriminate.
Qed.

(** ** Stored data: import and export *)

Lemma merge_new_again {Item} (id : Item -> jsstring) (existing incoming : list Item) :
  merge_new id (merge_new id existing incoming) incoming = merge_new id existing incoming.
Proof.
  unfold merge_new at 1.
  match goal with |- context [List.filter ?f ?l] =>
    rewrite (filter_ext_in f (fun _ => false) l), filter_false; [apply app_nil_r|]
  end.
  intros a Ha. rewrite negb_false_iff, bool_decide_eq_true.
  unfold merge_new. rewrite fmap_app. apply elem_of_app.
  destruct (decide (id a ∈ id <$> existing)) as [Hold | Hnew]; [auto|].
  right. apply list_elem_of_fmap. exists a. split; [reflexivity|].
  apply list_elem_of_In, filter_In. split; [assumption|].
  rewrite negb_true_iff, bool_decide_eq_false. assumption.
Qed.

Lemma merge_new_same {Item} (id : Item -> jsstring) (existing : list Item) :
  merge_new id existing existing = existing.
Proof.
  unfold merge_new.
  match goal with |- context [List.filter ?f ?l] =>
    rewrite (filter_ext_in f (fun _ => false) l), filter_false; [apply app_nil_r|]
  end.
  intros a Ha. rewrite negb_false_iff, bool_decide_eq_true.
  apply list_elem_of_fmap. exists a. split; [reflexivity|]. apply list_elem_of_In, Ha.
Qed.

Lemma merge_new_fresh {Item} (id : Item -> jsstring) (incoming : list Item) :
  merge_new id [] incoming = incoming.
Proof.
  unfold merge_new. simpl. induction incoming as [|a incoming IH]; simpl; [reflexivity|].
  f_equal. exact IH.
Qed.

Lemma merge_new_NoDup {Item} (id : Item -> jsstring) (existing incoming : list Item) :
  NoDup (id <$> existing) -> NoDup (id <$> incoming) ->
  NoDup (id <$> merge_new id existing incoming).
Proof.
  intros Hexisting Hincoming. unfold merge_new. rewrite fmap_app.
  apply NoDup_app. split; [assumption|]. split.
  - intros x Hx Hin. apply list_elem_of_fmap in Hin as (a & -> & Ha).
    apply list_elem_of_In, filter_In in Ha as [_ Ha].
    rewrite negb_true_iff, bool_decide_eq_false in Ha. contradiction.
  - clear Hexisting. induction incoming as [|a incoming IH]; simpl; [constructor|].
    apply NoDup_cons in Hincoming as [Ha Hincoming].
    destruct (negb _); [|auto].
    rewrite fmap_cons. apply NoDup_cons. split; [|auto].
    intros Hin. apply Ha. apply list_elem_of_fmap in Hin as (b & Hb & Hin).
    apply list_elem_of_fmap. exists b. split; [assumption|].
    apply list_elem_of_In, filter_In in Hin as [Hin _]. apply list_elem_of_In, Hin.
Qed.

(** Importing a backup merges by id: the stored connections and prompts
    stay in place and only entries with a new id are appended, so importing
    the same data twice changes nothing the second time, importing one's own
    export changes nothing, and importing an export into an empty store
    restores the connections, the settings and the prompts exported. Ids that
    are distinct in the store and in the import stay distinct. *)
Theorem import_merges_by_id (w : World.t) (data : Backup.t) (s : Stored.t) :
  processImportData data (processImportData data s) = processImportData data s
  /\ processImportData (getAllDataForExport w s) s = s
  /\ (forall settings,
         processImportData (getAllDataForExport w s)
           {| Stored.apis := []; Stored.globalSettings := settings; Stored.prompts := [] |}
         = s)
  /\ Stored.apis s `prefix_of` Stored.apis (processImportData data s)
  /\ Stored.prompts s `prefix_of` Stored.prompts (processImportData data s)
  /\ (NoDup (ApiConfig.id <$> Stored.apis s) ->
      NoDup (ApiConfig.id <$> default [] (Backup.apis data)) ->
      NoDup (ApiConfig.id <$> Stored.apis (processImportData data s))).
Proof.
  destruct s as [apis settings prompts], data as [incoming new_settings new_prompts v t].
  unfold processImportData, getAllDataForExport. simpl.
  split; [|split; [|split; [|split; [|split]]]].
  - f_equal.
    + destruct incoming; [apply merge_new_again | reflexivity].
    + destruct new_settings; reflexivity.
    + destruct new_prompts; [apply merge_new_again | reflexivity].
  - rewrite !merge_new_same. reflexivity.
  - intros settings'. rewrite !merge_new_fresh. reflexivity.
  - destruct incoming; [eexists; reflexivity | reflexivity].
  - destruct new_prompts; [eexists; reflexivity | reflexivity].
  - destruct incoming as [incoming|]; simpl; [apply merge_new_NoDup | auto].
Qed.

(** ** Selections *)

Lemma Set_delete_spec (x : jsstring) (s : list jsstring) :
  NoDup s ->
  NoDup (Set_delete x s) /\ forall y, y ∈ Set_delete x s <-> y ∈ s /\ y <> x.
Proof.
  intros Hs. unfold Set_delete. split.
  - apply NoDup_ListNoDup, List.NoDup_filter, NoDup_ListNoDup, Hs.
  - intros y. rewrite list_elem_of_In, filter_In, <- list_elem_of_In.
    rewrite negb_true_iff, bool_decide_eq_false. reflexivity.
Qed.

Lemma Set_add_spec (x : jsstring) (s : list jsstring) :
  NoDup s ->
  NoDup (Set_add x s) /\ forall y, y ∈ Set_add x s <-> y ∈ s \/ y = x.
Proof.
  intros Hs. unfold Set_add. case_bool_decide as Hin.
  - split; [assumption|]. intros y. split; [auto|]. intros [Hy | ->]; assumption.
  - split.
    + apply NoDup_app. split; [assumption|]. split; [|apply NoDup_singleton].
      intros y Hy Hx. apply list_elem_of_singleton in Hx as ->. contradiction.
    + intros y. rewrite elem_of_app, list_elem_of_singleton. reflexivity.
Qed.

Lemma toggle_all_fold (all : bool) (filteredModels : list jsstring) : forall selected,
  NoDup selected ->
  let next := foldl (fun next m => if all then Set_delete m next else Set_add m next)
                selected filteredModels in
  NoDup next
  /\ forall y, y ∈ next <->
               if all then y ∈ selected /\ y ∉ filteredModels
               else y ∈ selected \/ y ∈ filteredModels.
Proof.
  induction filteredModels as [|m filteredModels IH]; intros selected Hs; cbv zeta; simpl.
  - split; [assumption|]. intros y. destruct all.
    + split; [intros Hy; split; [assumption | apply not_elem_of_nil] | tauto].
    + split; [auto|]. intros [Hy | Hy]; [assumption | inversion Hy].
  - destruct all.
    + destruct (Set_delete_spec m selected Hs) as [Hnodup Hmem].
      destruct (IH _ Hnodup) as [Hnext Hin]. split; [exact Hnext|].
      intros y. rewrite Hin, Hmem, not_elem_of_cons. tauto.
    + destruct (Set_add_spec m selected Hs) as [Hnodup Hmem].
      destruct (IH _ Hnodup) as [Hnext Hin]. split; [exact Hnext|].
      intros y. rewrite Hin, Hmem, elem_of_cons. tauto.
Qed.

(** Toggling a selection: a toggle flips the membership of its element and
    of no other, and two toggles of the same element restore the selection
    (as a set: the element moves to the end of the order of insertion).
    Toggling all visible models deselects them if every one was selected, and
    selects them all otherwise; a model that is filtered out keeps its
    state. The selection stays free of duplicates. *)
Theorem selection_toggles (modelId : jsstring) (filteredModels selected : list jsstring) :
  NoDup selected ->
  (NoDup (toggleModelSelection modelId selected)
   /\ (forall y, y ∈ toggleModelSelection modelId selected
                 <-> if bool_decide (y = modelId) then y ∉ selected else y ∈ selected)
   /\ toggleModelSelection modelId (toggleModelSelection modelId selected) ≡ₚ selected)
  /\ (NoDup (toggleAllVisibleModels filteredModels selected)
      /\ (forall y, y ∉ filteredModels ->
                    (y ∈ toggleAllVisibleModels filteredModels selected <-> y ∈ selected))
      /\ (forall y, y ∈ filteredModels ->
                    (y ∈ toggleAllVisibleModels filteredModels selected
                     <-> exists m, m ∈ filteredModels /\ m ∉ selected))).
Proof.
  intros Hs.
  assert (Htoggle : forall s, NoDup s ->
             NoDup (toggleModelSelection modelId s)
             /\ forall y, y ∈ toggleModelSelection modelId s
                          <-> if bool_decide (y = modelId) then y ∉ s else y ∈ s).
  { intros s Hnodup. unfold toggleModelSelection. case_bool_decide as Hin.
    - destruct (Set_delete_spec modelId s Hnodup) as [Hd Hmem]. split; [exact Hd|].
      intros y. rewrite Hmem. case_bool_decide as Hy; [subst y|]; tauto.
    - destruct (Set_add_spec modelId s Hnodup) as [Hd Hmem]. split; [exact Hd|].
      intros y. rewrite Hmem. case_bool_decide as Hy; [subst y|]; tauto. }
  split.
  - destruct (Htoggle selected Hs) as [Hnodup Hmem].
    split; [exact Hnodup|]. split; [exact Hmem|].
    destruct (Htoggle _ Hnodup) as [Hnodup' Hmem'].
    apply NoDup_Permutation; [assumption | assumption|].
    intros y. rewrite Hmem'. specialize (Hmem y).
    case_bool_decide; [|assumption].
    rewrite Hmem. destruct (decide (y ∈ selected)); tauto.
  - unfold toggleAllVisibleModels.
    set (all := (0 <? Z.of_nat (length filteredModels))
                && forallb (fun m => bool_decide (m ∈ selected)) filteredModels).
    destruct (toggle_all_fold all filteredModels selected Hs) as [Hnodup Hmem].
    cbv zeta in Hmem. split; [exact Hnodup|].
    assert (Hall : all = true <-> filteredModels <> [] /\ forall m, m ∈ filteredModels -> m ∈ selected).
    { unfold all. rewrite andb_true_iff, Z.ltb_lt, forallb_forall.
      split.
      - intros [Hlen Hforall]. split; [destruct filteredModels; [simpl in Hlen; lia | discriminate]|].
        intros m Hm. apply list_elem_of_In, Hforall in Hm.
        apply bool_decide_eq_true in Hm. exact Hm.
      - intros [Hne Hforall]. split; [destruct filteredModels; [congruence | simpl; lia]|].
        intros m Hm. apply bool_decide_eq_true, Hforall, list_elem_of_In, Hm. }
    split.
    + intros y Hy. rewrite Hmem. destruct all; tauto.
    + intros y Hy. rewrite Hmem. destruct all.
      * destruct (proj1 Hall eq_refl) as [_ Hforall]. split; [tauto|].
        intros (m & Hm & Hnot). exfalso. apply Hnot, Hforall, Hm.
      * split; [|auto]. intros _.
        destruct (decide (Forall (fun m => m ∈ selected) filteredModels)) as [Hforall | Hnot].
        -- exfalso. assert (Htrue : false = true); [|discriminate].
           apply Hall. split; [intros ->; inversion Hy|].
           apply Forall_forall. exact Hforall.
        -- apply not_Forall_Exists in Hnot; [|intros m; apply _].
           apply Exists_exists in Hnot as (m & Hm & Hnot). eauto.
Qed.

Lemma selection_toggles_witness :
  toggleModelSelection (js "gpt-4") (toggleModelSelection (js "gpt-4") [js "gpt-4"; js "o1"])
  ≡ₚ [js "gpt-4"; js "o1"].
Proof.
  apply (selection_toggles (js "gpt-4") [] [js "gpt-4"; js "o1"]).
  apply NoDup_cons. split; [|apply NoDup_singleton].
  intros Hin. apply list_elem_of_singleton in Hin. discriminate.
Defined.

(** ** The filter of the log list *)

Lemma includes_empty (s : jsstring) : includes s [] = true.
Proof. destruct s; reflexivity. Qed.

(** The status filter of the log list and the statistics: every log is
    shown under "all"; the statistics count every log once, as a success or
    as an error; "success" shows exactly the logs that [getLogsStats] counts
    as successes (2xx); "error" shows the logs with status 0 or at least 400,
    all of which the statistics count as errors; a log whose status is any
    other number (negative, 1 to 199, 300 to 399) is counted as an error but
    shown only under "all". With an empty search and no filter every log is
    shown. *)
Theorem status_filter_and_statistics (toLowerCase : jsstring -> jsstring) (rt : Builtins)
    (search apiId : jsstring) (log : RequestLog.t) :
  let shown status :=
    matchStatus {| LogFilter.search := search; LogFilter.status := status;
                   LogFilter.apiId := apiId |} log in
  let counted := count_log (0, 0, 0) log in
  shown filter_all = true
  /\ shown filter_success && shown filter_error = false
  /\ ((counted.1.1 = 1 /\ counted.1.2 = 0) \/ (counted.1.1 = 0 /\ counted.1.2 = 1))
  /\ (shown filter_success = true <-> counted.1.1 = 1)
  /\ (shown filter_success = false <-> counted.1.2 = 1)
  /\ (shown filter_error = true -> counted.1.2 = 1)
  /\ (shown filter_success || shown filter_error = false
      <-> RequestLog.status log < 0 \/ 0 < RequestLog.status log < 200
          \/ 300 <= RequestLog.status log < 400)
  /\ (RequestLog.status log < 0 \/ 0 < RequestLog.status log < 200
      \/ 300 <= RequestLog.status log < 400 ->
      counted.1.2 = 1 /\ shown filter_success = false /\ shown filter_error = false)
  /\ ((truthy (RequestLog.model log) = true -> exists s, RequestLog.model log = VStr s) ->
      log_matches toLowerCase rt
        {| LogFilter.search := []; LogFilter.status := filter_all;
           LogFilter.apiId := js "all" |} log = Normal true).
Proof.
  cbv zeta. split; [reflexivity|].
  assert (Harith :
            let success := (200 <=? RequestLog.status log) && (RequestLog.status log <? 300) in
            let error := (RequestLog.status log =? 0) || (400 <=? RequestLog.status log) in
            success && error = false
            /\ (((count_log (0, 0, 0) log).1.1 = 1 /\ (count_log (0, 0, 0) log).1.2 = 0)
                \/ ((count_log (0, 0, 0) log).1.1 = 0 /\ (count_log (0, 0, 0) log).1.2 = 1))
            /\ (success = true <-> (count_log (0, 0, 0) log).1.1 = 1)
            /\ (success = false <-> (count_log (0, 0, 0) log).1.2 = 1)
            /\ (error = true -> (count_log (0, 0, 0) log).1.2 = 1)
            /\ (success || error = false
                <-> RequestLog.status log < 0 \/ 0 < RequestLog.status log < 200
                    \/ 300 <= RequestLog.status log < 400)
            /\ (RequestLog.status log < 0 \/ 0 < RequestLog.status log < 200
                \/ 300 <= RequestLog.status log < 400 ->
                (count_log (0, 0, 0) log).1.2 = 1 /\ success = false /\ error = false)).
  { unfold count_log.
    destruct (Z.leb_spec 200 (RequestLog.status log)),
      (Z.ltb_spec (RequestLog.status log) 300),
      (Z.eqb_spec (RequestLog.status log) 0),
      (Z.leb_spec 400 (RequestLog.status log)); simpl; try lia;
      (split; [reflexivity|]); (split; [auto|]);
      repeat split; intros; first [discriminate | reflexivity | lia]. }
  destruct Harith as (Hdisjoint & Honce & Hsuccess & Hfailure & Herror & Hneither & Hother).
  split; [exact Hdisjoint|]. split; [exact Honce|]. split; [exact Hsuccess|].
  split; [exact Hfailure|]. split; [exact Herror|]. split; [exact Hneither|].
  split; [exact Hother|].
  unfold log_matches, matchSearch, model_lower. simpl.
  destruct (includes (toLowerCase (RequestLog.url log)) (toLowerCase [])); [reflexivity|].
  destruct (RequestLog.model log) as [| |flag|num|text|elems|fields]; simpl; intros Hmodel;
    rewrite ?includes_empty, ?orb_true_r; try reflexivity.
  - destruct flag; simpl; [|rewrite ?includes_empty, ?orb_true_r; reflexivity].
    destruct (Hmodel eq_refl) as [? ?]; discriminate.
  - destruct (num =? 0) eqn:Hzero; simpl;
      [rewrite ?includes_empty, ?orb_true_r; reflexivity|].
    destruct Hmodel as [? ?]; [reflexivity | discriminate].
  - destruct (Hmodel eq_refl) as [? ?]; discriminate.
  - destruct (Hmodel eq_refl) as [? ?]; discriminate.
Qed.

(** ** The form of a connection *)

(** The standard tab previews the endpoint that will be called: for a
    base URL that is filled in, the preview of each kind is what
    [getEndpoint] resolves for the configuration that the form constructs. *)
Theorem preview_is_endpoint (f : AddApiView.t) (type : EndpointType) :
  AddApiView.activeTab f = AddApiView.tab_standard ->
  AddApiView.baseUrl f <> [] ->
  AddApiView.getStandardPreview f type = getEndpoint (AddApiView.constructTempConfig f) type.
Proof.
  intros Htab Hbase. unfold AddApiView.getStandardPreview, getEndpoint.
  unfold AddApiView.constructTempConfig. rewrite Htab. simpl.
  rewrite !bool_decide_eq_false_2 by assumption.
  destruct (AddApiView.autoV1 f); reflexivity.
Qed.

Lemma preview_is_endpoint_witness :
  AddApiView.getStandardPreview
    {| AddApiView.activeTab := AddApiView.tab_standard; AddApiView.name := js "Example";
       AddApiView.apiKey := js "sk-test"; AddApiView.baseUrl := js "https://api.example.com/";
       AddApiView.autoV1 := true; AddApiView.enableChat := true;
       AddApiView.enableModels := true; AddApiView.modelsEndpoint := [];
       AddApiView.chatEndpoint := []; AddApiView.customHeaders := [];
       AddApiView.customParams := [] |} chat
  = getEndpoint
      (AddApiView.constructTempConfig
         {| AddApiView.activeTab := AddApiView.tab_standard; AddApiView.name := js "Example";
            AddApiView.apiKey := js "sk-test"; AddApiView.baseUrl := js "https://api.example.com/";
            AddApiView.autoV1 := true; AddApiView.enableChat := true;
            AddApiView.enableModels := true; AddApiView.modelsEndpoint := [];
            AddApiView.chatEndpoint := []; AddApiView.customHeaders := [];
            AddApiView.customParams := [] |}) chat.
Proof.
  apply preview_is_endpoint; [reflexivity | vm_compute; discriminate].
Defined.

(** Editing a connection and saving it unchanged keeps its identity and
    its endpoints: the saved configuration has the id, the name, the key and
    the mode of the one loaded, and [getEndpoint] resolves the same URL for
    it, provided that a standard connection has a base URL and does not carry
    the legacy flag [skipAutoCompletion]. What is saved has both features,
    whatever the connection loaded had. *)
Theorem edit_and_save_keeps_endpoints (rt : Builtins) (w : World.t)
    (initialData : ApiConfig.t) (f : AddApiView.t) (type : EndpointType) :
  AddApiView.load rt initialData = Normal f ->
  trim (ApiConfig.name initialData) <> [] ->
  trim (ApiConfig.apiKey initialData) <> [] ->
  ApiConfig.id initialData <> [] ->
  ApiConfig.features initialData <> Some [] ->
  (ApiConfig.connectionMode initialData = standard ->
   ApiConfig.baseUrl initialData <> []
   /\ ApiConfig.skipAutoCompletion initialData <> Some true) ->
  exists saved,
    AddApiView.handleSave w (Some initialData) f = Some saved
    /\ ApiConfig.id saved = ApiConfig.id initialData
    /\ ApiConfig.name saved = ApiConfig.name initialData
    /\ ApiConfig.apiKey saved = ApiConfig.apiKey initialData
    /\ ApiConfig.connectionMode saved = ApiConfig.connectionMode initialData
    /\ getEndpoint saved type = getEndpoint initialData type
    /\ ApiConfig.features saved = Some [feature_chat; feature_models].
Proof.
  intros Hload Hname Hkey Hid Hfeatures Hstandard. unfold AddApiView.load in Hload.
  destruct (foldr _ _ _) as [params|e]; [|discriminate].
  injection Hload as <-.
  assert (Hname' : ApiConfig.name initialData <> []).
  { intros Hnil. apply Hname. rewrite Hnil. reflexivity. }
  assert (Henabled :
            negb match ApiConfig.features initialData with
                 | Some features => bool_decide (feature_chat ∈ features)
                 | None => true
                 end
            && negb match ApiConfig.features initialData with
                    | Some features => bool_decide (feature_models ∈ features)
                    | None => true
                    end = false).
  { destruct (ApiConfig.features initialData) as [[|feature features]|];
      [congruence | | reflexivity].
    destruct feature.
    - rewrite (bool_decide_eq_true_2 (feature_chat ∈ _)) by (apply elem_of_cons; auto).
      reflexivity.
    - rewrite (bool_decide_eq_true_2 (feature_models ∈ _)) by (apply elem_of_cons; auto).
      apply andb_false_r. }
  unfold AddApiView.handleSave.
  cbn [AddApiView.name AddApiView.apiKey AddApiView.enableChat AddApiView.enableModels].
  rewrite !bool_decide_eq_false_2 by assumption. rewrite Henabled.
  eexists. split; [reflexivity|].
  unfold AddApiView.constructTempConfig, getEndpoint. simpl.
  rewrite ?bool_decide_eq_false_2 by assumption.
  destruct (ApiConfig.connectionMode initialData) eqn:Hmode; simpl.
  - destruct (Hstandard eq_refl) as [Hbase Hskip].
    rewrite ?bool_decide_eq_false_2 by assumption.
    repeat split; try reflexivity.
    destruct (ApiConfig.skipAutoCompletion initialData) as [[]|]; [congruence| |];
      simpl; destruct (default true (ApiConfig.autoV1 initialData)); reflexivity.
  - repeat split; reflexivity.
Qed.

Lemma edit_and_save_keeps_endpoints_witness :
  exists saved,
    AddApiView.handleSave (example_world (FetchAborted [])) (Some customised_api)
      {| AddApiView.activeTab := AddApiView.tab_standard;
         AddApiView.name := js "Customised"; AddApiView.apiKey := js "sk-test";
         AddApiView.baseUrl := js "https://api.example.com"; AddApiView.autoV1 := true;
         AddApiView.enableChat := true; AddApiView.enableModels := true;
         AddApiView.modelsEndpoint := []; AddApiView.chatEndpoint := [];
         AddApiView.customHeaders := [(js "Authorization", js "Key sk-test")];
         AddApiView.customParams := [(js "max_tokens", js "16")] |} = Some saved
    /\ getEndpoint saved chat = getEndpoint customised_api chat.
Proof.
  destruct (edit_and_save_keeps_endpoints (example_runtime [])
              (example_world (FetchAborted [])) customised_api
              {| AddApiView.activeTab := AddApiView.tab_standard;
                 AddApiView.name := js "Customised"; AddApiView.apiKey := js "sk-test";
                 AddApiView.baseUrl := js "https://api.example.com"; AddApiView.autoV1 := true;
                 AddApiView.enableChat := true; AddApiView.enableModels := true;
                 AddApiView.modelsEndpoint := []; AddApiView.chatEndpoint := [];
                 AddApiView.customHeaders := [(js "Authorization", js "Key sk-test")];
                 AddApiView.customParams := [(js "max_tokens", js "16")] |} chat)
    as (saved & Hsaved & _ & _ & _ & _ & Hendpoint & _).
  - vm_compute. reflexivity.
  - vm_compute. discriminate.
  - vm_compute. discriminate.
  - vm_compute. discriminate.
  - discriminate.
  - intros _. split; [vm_compute; discriminate | discriminate].
  - exists saved. split; assumption.
Defined.
